(** * CompararArchivosHip: extraction, normalisation and reconciliation of
      race-card data (carreras_desde_pdf.py)

    Shallow embedding of the decision logic of [carreras_desde_pdf.py].

    Modelling conventions.
    - A Python [str] is a Rocq [string]; each character is read as the Unicode
      code point of the same number, so the texts covered are those whose
      code points lie below 256.  The Unicode-aware predicates of Python
      ([str.isspace], [str.isdigit], the classes [\d], [\s], [\w] of [re])
      are given by their tables on that range.  The en dash of the class
      [[-–]] lies outside the range, hence that class is the hyphen alone.
    - A Python [float] is an IEEE 754 binary64 value, [spec_float] with
      precision 53 and maximal exponent 1024; [float(str)] rounds the decimal
      it reads to the nearest such value, ties to even.
    - A Python [int] is a [Z]; a [dict] is a [gmap]; a [set] is a [gset] or
      the domain of a [gmap].  [int(str)] fails on a text of more than 4300
      digits, the default limit of CPython; where the program does not catch
      that failure (the number of a race header), the documents covered are
      those whose numbers stay within the limit.
    - A Python [list] is a Rocq [list], and memory is not bounded:
      [MemoryError] is not modelled.  [OverflowError], raised for a range of
      more than [sys.maxsize] elements, is modelled for [_expandir_race_map]
      by [_expandir_race_map_desborda].
    - The pages of a document are the list of their texts, as returned by
      [extract_text() or ""]; the content of the report file is one string.
    - A discrepancy message is modelled by a constructor that carries the
      values interpolated into the message. *)

From Stdlib Require Import ZArith NArith Ascii String List Bool Lia.
From Stdlib Require Import Floats.SpecFloat.
From stdpp Require Import base option list sorting gmap strings.

Local Open Scope string_scope.
Local Open Scope Z_scope.

(** ** Characters and the string methods of Python used by the program *)

Module Py.

Definition cp (c : ascii) : N := N_of_ascii c.

Definition entre (lo hi : N) (c : ascii) : bool :=
  ((lo <=? cp c) && (cp c <=? hi))%N.

(** [str.isspace] on one character; also the class [\s]. *)
Definition isspace (c : ascii) : bool :=
  entre 9 13 c || entre 28 32 c || (cp c =? 133)%N || (cp c =? 160)%N.

(** The class [\d] ([str.isdecimal]). *)
Definition isdecimal (c : ascii) : bool := entre 48 57 c.

(** [str.isdigit] on one character: the decimal digits and the superscript
    digits U+00B2, U+00B3, U+00B9. *)
Definition isdigit_char (c : ascii) : bool :=
  isdecimal c || (cp c =? 178)%N || (cp c =? 179)%N || (cp c =? 185)%N.

Definition isupper_ascii (c : ascii) : bool := entre 65 90 c.
Definition islower_ascii (c : ascii) : bool := entre 97 122 c.

(** The class [\w]: alphanumeric characters and the underscore. *)
Definition isword (c : ascii) : bool :=
  isdecimal c || isupper_ascii c || islower_ascii c || (cp c =? 95)%N
  || (cp c =? 170)%N || (cp c =? 178)%N || (cp c =? 179)%N || (cp c =? 181)%N
  || (cp c =? 185)%N || (cp c =? 186)%N || entre 188 190 c
  || entre 192 214 c || entre 216 246 c || entre 248 255 c.

(** [str.lower] on one character. *)
Definition lower_char (c : ascii) : ascii :=
  if isupper_ascii c || entre 192 214 c || entre 216 222 c
  then ascii_of_N (cp c + 32) else c.

(** [str.upper] on one character.  The upper-case forms of U+00B5, U+00DF and
    U+00FF lie outside the modelled range; those three are left unchanged. *)
Definition upper_char (c : ascii) : ascii :=
  if islower_ascii c || entre 224 246 c || entre 248 254 c
  then ascii_of_N (cp c - 32) else c.

Fixpoint map_chars (f : ascii -> ascii) (s : string) : string :=
  match s with
  | EmptyString => EmptyString
  | String c s' => String (f c) (map_chars f s')
  end.

Definition lower : string -> string := map_chars lower_char.
Definition upper : string -> string := map_chars upper_char.

Definition is_empty (s : string) : bool :=
  match s with EmptyString => true | String _ _ => false end.

Fixpoint lstrip (s : string) : string :=
  match s with
  | EmptyString => EmptyString
  | String c s' => if isspace c then lstrip s' else s
  end.

Fixpoint rstrip (s : string) : string :=
  match s with
  | EmptyString => EmptyString
  | String c s' =>
      let r := rstrip s' in
      if isspace c && is_empty r then EmptyString else String c r
  end.

(** [s.strip()] *)
Definition strip (s : string) : string := rstrip (lstrip s).

Fixpoint app (s t : string) : string :=
  match s with
  | EmptyString => t
  | String c s' => String c (app s' t)
  end.

Fixpoint take (n : nat) (s : string) : string :=
  match n, s with
  | S n', String c s' => String c (take n' s')
  | _, _ => EmptyString
  end.

Fixpoint drop (n : nat) (s : string) : string :=
  match n, s with
  | S n', String _ s' => drop n' s'
  | _, _ => s
  end.

(** [s.startswith(p)] *)
Fixpoint startswith (p s : string) : bool :=
  match p, s with
  | EmptyString, _ => true
  | String a p', String b s' => Ascii.eqb a b && startswith p' s'
  | String _ _, EmptyString => false
  end.

(** [sub in s] *)
Fixpoint contains (sub s : string) : bool :=
  startswith sub s ||
  match s with
  | EmptyString => false
  | String _ s' => contains sub s'
  end.

(** [s.find(sub)]: the lowest index where [sub] starts, [None] for -1. *)
Fixpoint find (sub s : string) : option nat :=
  if startswith sub s then Some 0%nat
  else match s with
       | EmptyString => None
       | String _ s' => S <$> find sub s'
       end.

(** [s.split(sep)] for a separator of one character. *)
Fixpoint split (sep : ascii) (s : string) : list string :=
  match s with
  | EmptyString => [EmptyString]
  | String c s' =>
      let r := split sep s' in
      if Ascii.eqb c sep then EmptyString :: r
      else match r with
           | h :: t => String c h :: t
           | [] => [String c EmptyString]
           end
  end.

(** [s.replace(old, new)] for a non-empty [old]: occurrences are replaced
    from left to right without overlap.  [skip] counts the characters of an
    occurrence still to be passed over. *)
Fixpoint replace_aux (old new : string) (skip : nat) (s : string) : string :=
  match s with
  | EmptyString => EmptyString
  | String c s' =>
      match skip with
      | S k => replace_aux old new k s'
      | O =>
          if startswith old s
          then app new (replace_aux old new (String.length old - 1) s')
          else String c (replace_aux old new 0 s')
      end
  end.

Definition replace (old new s : string) : string := replace_aux old new 0 s.

Fixpoint all_chars (p : ascii -> bool) (s : string) : bool :=
  match s with
  | EmptyString => true
  | String c s' => p c && all_chars p s'
  end.

(** [s.isascii()]: every code point lies below 128.  On such a text
    [str.upper] and [str.lower] act character by character, as [upper] and
    [lower] do. *)
Definition isascii (s : string) : bool :=
  all_chars (fun c => (cp c <? 128)%N) s.

(** [s.isdigit()]: false on the empty string. *)
Definition isdigit (s : string) : bool :=
  negb (is_empty s) && all_chars isdigit_char s.

Definition digit_val (c : ascii) : Z := Z.of_N (cp c) - 48.

(** Value of a run of decimal digits in which single underscores may
    separate digits, read left to right from the accumulator [acc];
    [None] when the run is ill-formed.  [prev_digit] tells whether the
    previous character was a digit. *)
Fixpoint digitpart (acc : Z) (ndig : nat) (prev_digit : bool) (s : string)
  : option (Z * nat) :=
  match s with
  | EmptyString => if prev_digit then Some (acc, ndig) else None
  | String c s' =>
      if isdecimal c then digitpart (10 * acc + digit_val c) (S ndig) true s'
      else if Ascii.eqb c "_" then
        if prev_digit then digitpart acc ndig false s' else None
      else None
  end.

Definition strip_sign (s : string) : bool * string :=
  match s with
  | String "-" s' => (true, s')
  | String "+" s' => (false, s')
  | _ => (false, s)
  end.

(** [sys.get_int_max_str_digits()]: the limit of CPython, 4300 unless it is
    configured otherwise, on the number of digits that [int] reads from a
    text in base 10. *)
Definition max_str_digits : Z := 4300.

(** [int(s)] in base 10; [None] stands for [ValueError], which is raised
    for a text that is not a number and for a number of more than
    [max_str_digits] digits, leading zeros included; the sign, the
    underscores and the white space around do not count. *)
Definition int (s : string) : option Z :=
  let '(neg, body) := strip_sign (strip s) in
  match digitpart 0 0 false body with
  | Some (n, ndig) =>
      if max_str_digits <? Z.of_nat ndig then None
      else Some (if neg then - n else n)
  | None => None
  end.

(** [list(range(a, b))] *)
Definition range (a b : Z) : list Z :=
  map (fun i => a + Z.of_nat i) (seq 0 (Z.to_nat (b - a))).

(** [max(l)] for a non-empty [l]. *)
Definition max_list (l : list Z) : Z :=
  match l with
  | [] => 0
  | n :: ns => fold_left Z.max ns n
  end.

Definition nl : ascii := "010"%char.
Definition tab : ascii := "009"%char.

(** [sys.maxsize] of a 64-bit build: the greatest length of a list. *)
Definition maxsize : Z := 2 ^ 63 - 1.

End Py.

(** ** Binary64 values and [float(str)] *)

Module Float.

Definition prec : Z := 53.
Definition emax : Z := 1024.

Definition sub : spec_float -> spec_float -> spec_float := SFsub prec emax.
Definition abs : spec_float -> spec_float := SFabs.
Definition ltb : spec_float -> spec_float -> bool := SFltb.

(** The binary64 value nearest to [n / d] (ties to even), [n] and [d]
    positive.  The quotient is taken with more than 60 significant bits and
    one sticky bit, which [binary_normalize] then rounds. *)
Definition of_ratio (neg : bool) (n d : Z) : spec_float :=
  if (n =? 0) then S754_zero neg
  else
    let e := Z.log2 n - Z.log2 d - 64 in
    let num := if (e <? 0) then Z.shiftl n (- e) else n in
    let den := if (e <? 0) then d else Z.shiftl d e in
    let q := num / den in
    let sticky := if (num mod den =? 0) then 0 else 1 in
    let m := 2 * q + sticky in
    binary_normalize prec emax (if neg then - m else m) (e - 1) neg.

(** The binary64 value nearest to [m * 10 ^ e10]. *)
Definition of_decimal (neg : bool) (m e10 : Z) : spec_float :=
  if (0 <=? e10) then of_ratio neg (m * 10 ^ e10) 1
  else of_ratio neg m (10 ^ (- e10)).

(** Splits [s] at the first character satisfying [p]. *)
Fixpoint break (p : ascii -> bool) (s : string) : string * string :=
  match s with
  | EmptyString => (EmptyString, EmptyString)
  | String c s' =>
      if p c then (EmptyString, s)
      else let '(a, b) := break p s' in (String c a, b)
  end.

Definition is_exp_mark (c : ascii) : bool := Ascii.eqb c "e" || Ascii.eqb c "E".
Definition is_point (c : ascii) : bool := Ascii.eqb c ".".

(** The exponent part: empty, or [e]/[E], an optional sign and digits. *)
Definition exponent (s : string) : option Z :=
  match s with
  | EmptyString => Some 0
  | String _ s' =>
      let '(neg, body) := Py.strip_sign s' in
      match Py.digitpart 0 0 false body with
      | Some (n, _) => Some (if neg then - n else n)
      | None => None
      end
  end.

(** Integer and fraction digits around an optional point: the significand as
    an integer with the number of fraction digits.  At least one of the two
    runs of digits is present. *)
Definition significand (s : string) : option (Z * nat) :=
  let '(ip, rest) := break is_point s in
  match rest with
  | EmptyString => match Py.digitpart 0 0 false ip with
                   | Some (n, _) => Some (n, O)
                   | None => None
                   end
  | String _ fp =>
      match ip, fp with
      | EmptyString, EmptyString => None
      | EmptyString, _ => Py.digitpart 0 0 false fp
      | _, EmptyString => match Py.digitpart 0 0 false ip with
                          | Some (n, _) => Some (n, O)
                          | None => None
                          end
      | _, _ => match Py.digitpart 0 0 false ip with
                | Some (n, _) => Py.digitpart n 0 false fp
                | None => None
                end
      end
  end.

(** [float(s)]; [None] stands for [ValueError]. *)
Definition float (s : string) : option spec_float :=
  let '(neg, body) := Py.strip_sign (Py.strip s) in
  let low := Py.lower body in
  if String.eqb low "inf" || String.eqb low "infinity" then Some (S754_infinity neg)
  else if String.eqb low "nan" then Some S754_nan
  else
    let '(num, ex) := break is_exp_mark body in
    match significand num, exponent ex with
    | Some (m, nfrac), Some e => Some (of_decimal neg m (e - Z.of_nat nfrac))
    | _, _ => None
    end.

End Float.

(** ** Regular expressions with the backtracking semantics of [re]

    A pattern is written as a term of [regex] with its flags resolved:
    [re.IGNORECASE] is carried by the character predicates, [re.DOTALL] by
    the predicate chosen for the dot, [re.MULTILINE] by the argument of
    [Bol].  Alternatives are tried in order, a greedy repetition tries one
    more iteration first and a lazy one tries the continuation first, so the
    first success found is the match that [re] reports. *)

Module Re.

Inductive regex : Type :=
| Eps
| Chr (p : ascii -> bool)
| Cat (r1 r2 : regex)
| Alt (r1 r2 : regex)
| Star (greedy : bool) (r : regex)
| Bol (multiline : bool)
| Wordb
| Group (i : nat) (r : regex).

(** Captured groups, most recent binding first. *)
Definition caps : Type := list (nat * string).

Fixpoint group (i : nat) (cs : caps) : option string :=
  match cs with
  | [] => None
  | (j, s) :: cs' => if Nat.eqb i j then Some s else group i cs'
  end.

Definition word_before (prev : option ascii) : bool :=
  match prev with Some c => Py.isword c | None => false end.

Definition word_after (s : string) : bool :=
  match s with String c _ => Py.isword c | EmptyString => false end.

Definition at_bol (multiline : bool) (prev : option ascii) : bool :=
  match prev with
  | None => true
  | Some c => multiline && Ascii.eqb c "010"
  end.

Section Matcher.
Context {A : Type}.

(** [rmatch r cs prev s k]: match [r] at the front of [s], the character
    before [s] being [prev], then continue with [k]; [None] makes the
    matcher backtrack.  An iteration of a repetition must consume a
    character. *)
Fixpoint rmatch (r : regex) (cs : caps) (prev : option ascii) (s : string)
    (k : caps -> option ascii -> string -> option A) {struct r} : option A :=
  match r with
  | Eps => k cs prev s
  | Chr p =>
      match s with
      | String c s' => if p c then k cs (Some c) s' else None
      | EmptyString => None
      end
  | Cat r1 r2 =>
      rmatch r1 cs prev s (fun cs' prev' s' => rmatch r2 cs' prev' s' k)
  | Alt r1 r2 =>
      match rmatch r1 cs prev s k with
      | Some x => Some x
      | None => rmatch r2 cs prev s k
      end
  | Star greedy r' =>
      (fix loop (n : nat) (cs : caps) (prev : option ascii) (s : string)
         : option A :=
         match n with
         | O => k cs prev s
         | S n' =>
             let once (_ : unit) :=
               rmatch r' cs prev s
                 (fun cs' prev' s' =>
                    if (String.length s' <? String.length s)%nat
                    then loop n' cs' prev' s' else None) in
             if greedy then
               match once tt with
               | Some x => Some x
               | None => k cs prev s
               end
             else
               match k cs prev s with
               | Some x => Some x
               | None => once tt
               end
         end) (S (String.length s)) cs prev s
  | Bol multiline => if at_bol multiline prev then k cs prev s else None
  | Wordb => if xorb (word_before prev) (word_after s) then k cs prev s else None
  | Group i r' =>
      rmatch r' cs prev s
        (fun cs' prev' s' =>
           k ((i, Py.take (String.length s - String.length s') s) :: cs') prev' s')
  end.
End Matcher.

(** A match: where it starts, the matched text, the groups, and what
    follows it in the subject. *)
Record found : Type := Found {
  m_start : nat;
  m_text : string;
  m_groups : caps;
  m_prev : option ascii;
  m_rest : string
}.

Definition match_here (r : regex) (pos : nat) (prev : option ascii) (s : string)
  : option found :=
  rmatch r [] prev s
    (fun cs prev' s' =>
       Some (Found pos (Py.take (String.length s - String.length s') s) cs prev' s')).

(** [pattern.match(s)]: a match starting at the beginning of [s]. *)
Definition match_ (r : regex) (s : string) : option found :=
  match_here r 0 None s.

(** The leftmost match in [s], which stands at offset [pos] after [prev]. *)
Fixpoint search_from (r : regex) (pos : nat) (prev : option ascii) (s : string)
  : option found :=
  match match_here r pos prev s with
  | Some m => Some m
  | None =>
      match s with
      | EmptyString => None
      | String c s' => search_from r (S pos) (Some c) s'
      end
  end.

(** [pattern.search(s)] *)
Definition search (r : regex) (s : string) : option found :=
  search_from r 0 None s.

(** [pattern.finditer(s)]: successive leftmost matches without overlap.
    After an empty match the scan moves one character on; no pattern of the
    program matches the empty string. *)
Fixpoint finditer_from (fuel : nat) (r : regex) (pos : nat)
    (prev : option ascii) (s : string) : list found :=
  match fuel with
  | O => []
  | S fuel' =>
      match search_from r pos prev s with
      | None => []
      | Some m =>
          m :: (if Py.is_empty (m_text m) then
                  match m_rest m with
                  | EmptyString => []
                  | String c s' =>
                      finditer_from fuel' r (S (m_start m)) (Some c) s'
                  end
                else
                  finditer_from fuel' r
                    (m_start m + String.length (m_text m)) (m_prev m) (m_rest m))
      end
  end.

Definition finditer (r : regex) (s : string) : list found :=
  finditer_from (S (String.length s)) r 0 None s.

(** [m.group(i)] for a group that took part in the match. *)
Definition group_of (i : nat) (m : found) : string :=
  default EmptyString (group i (m_groups m)).

(** *** Pattern notation *)

Definition is_char (a : ascii) : ascii -> bool := fun c => Ascii.eqb c a.
(** A character under [re.IGNORECASE]. *)
Definition is_char_i (a : ascii) : ascii -> bool :=
  fun c => Ascii.eqb (Py.lower_char c) (Py.lower_char a).
(** A range of characters under [re.IGNORECASE], such as [[A-Z]]. *)
Definition is_letter_i : ascii -> bool :=
  fun c => Py.isupper_ascii c || Py.islower_ascii c.

Definition any_char : ascii -> bool := fun _ => true.
(** The dot without [re.DOTALL]. *)
Definition not_newline : ascii -> bool := fun c => negb (Ascii.eqb c "010").

(** A literal text. *)
Fixpoint lit (s : string) : regex :=
  match s with
  | EmptyString => Eps
  | String c EmptyString => Chr (is_char c)
  | String c s' => Cat (Chr (is_char c)) (lit s')
  end.

(** A literal text under [re.IGNORECASE]. *)
Fixpoint lit_i (s : string) : regex :=
  match s with
  | EmptyString => Eps
  | String c EmptyString => Chr (is_char_i c)
  | String c s' => Cat (Chr (is_char_i c)) (lit_i s')
  end.

Definition opt (r : regex) : regex := Alt r Eps.          (* r? *)
Definition plus (r : regex) : regex := Cat r (Star true r).  (* r+ *)
Definition plus_lazy (r : regex) : regex := Cat r (Star false r).  (* r+? *)
Definition star (r : regex) : regex := Star true r.       (* r* *)

Fixpoint cat (rs : list regex) : regex :=
  match rs with
  | [] => Eps
  | [r] => r
  | r :: rs' => Cat r (cat rs')
  end.

Fixpoint alt (rs : list regex) : regex :=
  match rs with
  | [] => Chr (fun _ => false)
  | [r] => r
  | r :: rs' => Alt r (alt rs')
  end.

Definition d : regex := Chr Py.isdecimal.       (* \d *)
Definition s : regex := Chr Py.isspace.         (* \s *)
Definition not_s : regex := Chr (fun c => negb (Py.isspace c)).  (* [^\s] *)

End Re.

(** ** Bet classification: exclusion of later stages *)

(** [2do\.?\s*pase|3er\.?\s*pase|4to\.?\s*pase|5to\.?\s*pase|ultimo\s*pase],
    [re.IGNORECASE] *)
Definition _PATRON_EXCLUIR_PASE_SIN_FINAL : Re.regex :=
  Re.alt
    [ Re.cat [Re.lit_i "2do"; Re.opt (Re.lit "."); Re.star Re.s; Re.lit_i "pase"];
      Re.cat [Re.lit_i "3er"; Re.opt (Re.lit "."); Re.star Re.s; Re.lit_i "pase"];
      Re.cat [Re.lit_i "4to"; Re.opt (Re.lit "."); Re.star Re.s; Re.lit_i "pase"];
      Re.cat [Re.lit_i "5to"; Re.opt (Re.lit "."); Re.star Re.s; Re.lit_i "pase"];
      Re.cat [Re.lit_i "ultimo"; Re.star Re.s; Re.lit_i "pase"] ].

(** [\bfinal\b|final\s*pase], [re.IGNORECASE] *)
Definition _PATRON_FINAL : Re.regex :=
  Re.alt
    [ Re.cat [Re.Wordb; Re.lit_i "final"; Re.Wordb];
      Re.cat [Re.lit_i "final"; Re.star Re.s; Re.lit_i "pase"] ].

(** [\b1er\.?\s*pase\b|\b1re\.?\s*pase\b], [re.IGNORECASE] *)
Definition _PATRON_PRIMER_PASE : Re.regex :=
  Re.alt
    [ Re.cat [Re.Wordb; Re.lit_i "1er"; Re.opt (Re.lit "."); Re.star Re.s;
              Re.lit_i "pase"; Re.Wordb];
      Re.cat [Re.Wordb; Re.lit_i "1re"; Re.opt (Re.lit "."); Re.star Re.s;
              Re.lit_i "pase"; Re.Wordb] ].

Definition hay (r : Re.regex) (texto : string) : bool :=
  bool_decide (is_Some (Re.search r texto)).

Definition es_apuesta_excluida (nombre : string) : bool :=
  if Py.is_empty nombre then false
  else if Py.startswith "doble" (Py.lower (Py.strip nombre)) then false
  else if hay _PATRON_EXCLUIR_PASE_SIN_FINAL nombre then true
  else if hay _PATRON_FINAL nombre then
    if hay _PATRON_PRIMER_PASE nombre then false else true
  else false.

(** ** Monetary token parser *)

Definition _parsear_monto_str (valor_str : string) : option spec_float :=
  if Py.is_empty valor_str then None
  else
    let s := Py.strip valor_str in
    if Py.is_empty s then None
    else if Py.contains "," s then
      Float.float (Py.replace "," "." (Py.replace "." "" s))
    else if Py.contains "." s then
      let partes := Py.split "." s in
      if (2 <=? length partes)%nat && forallb Py.isdigit partes
         && (String.length (List.last partes "") =? 3)%nat
      then
        match Float.float (Py.replace "." "" s) with
        | Some v => Some v
        | None => Float.float s
        end
      else Float.float s
    else Float.float s.

(** ** Race-range expander *)

(** The [try] block of a range [X-Y]: both ends parsed, then
    [range(inicio, fin + 1)]; [None] when [int] raises. *)
Definition rango_de (izq der : string) : option (list Z) :=
  match Py.int (Py.strip izq) with
  | None => None
  | Some inicio =>
      match Py.int (Py.strip der) with
      | None => None
      | Some fin => Some (Py.range inicio (fin + 1))
      end
  end.

(** One turn of the loop over the comma-separated parts; [carreras] is the
    list built so far. *)
Definition expandir_parte (carreras : list Z) (parte : string) : list Z :=
  let parte := Py.strip parte in
  if Py.is_empty parte then carreras
  else if Py.contains "-" parte then
    match Py.split "-" parte with
    | [izq; der] =>
        match rango_de izq der with
        | Some r => carreras ++ r
        | None => carreras
        end
    | _ => carreras
    end
  else
    match Py.int parte with
    | Some n => carreras ++ [n]
    | None => carreras
    end.

Definition _expandir_race_map (race_map : string) : list Z :=
  let race_map := Py.upper (Py.strip race_map) in
  if String.eqb race_map "ALL" then Py.range 1 16
  else if Py.contains "," race_map then
    fold_left expandir_parte (Py.split "," race_map) []
  else
    let rango :=
      if Py.contains "-" race_map then
        match Py.split "-" race_map with
        | [izq; der] => rango_de izq der
        | _ => None
        end
      else None in
    match rango with
    | Some r => r
    | None =>
        match Py.int race_map with
        | Some n => [n]
        | None => []
        end
    end.

(** Whether making the list of [range(inicio, fin + 1)] raises
    [OverflowError]: it does when the range has more than [sys.maxsize]
    elements.  The [try] blocks catch [ValueError] only. *)
Definition rango_desborda (izq der : string) : bool :=
  match Py.int (Py.strip izq), Py.int (Py.strip der) with
  | Some inicio, Some fin => Py.maxsize <? fin + 1 - inicio
  | _, _ => false
  end.

Definition parte_desborda (parte : string) : bool :=
  let parte := Py.strip parte in
  negb (Py.is_empty parte) && Py.contains "-" parte
  && match Py.split "-" parte with
     | [izq; der] => rango_desborda izq der
     | _ => false
     end.

(** Whether the call [_expandir_race_map(race_map)] raises [OverflowError]
    instead of returning; [_expandir_race_map] gives the list that the call
    returns when it does not. *)
Definition _expandir_race_map_desborda (race_map : string) : bool :=
  let race_map := Py.upper (Py.strip race_map) in
  if String.eqb race_map "ALL" then false
  else if Py.contains "," race_map then
    existsb parte_desborda (Py.split "," race_map)
  else
    Py.contains "-" race_map
    && match Py.split "-" race_map with
       | [izq; der] => rango_desborda izq der
       | _ => false
       end.

(** ** Horse count per race of the official document *)

(** [int(m.group(i))] for a group made of at most 4300 decimal digits. *)
Definition int_grupo (i : nat) (m : Re.found) : Z :=
  default 0 (Py.int (Re.group_of i m)).

(** The class [[ªºa]] under [re.IGNORECASE]. *)
Definition es_ordinal (c : ascii) : bool :=
  (Py.cp c =? 170)%N || (Py.cp c =? 186)%N || Re.is_char_i "a" c.

(** [(\d+)\s*[ªºa]\s*[-–]\s*(.+?)\s*[-–]\s*\d{1,2}\s*:\s*\d{2}\s*hs\.?],
    [re.IGNORECASE | re.DOTALL] *)
Definition _PATRON_CARRERA_PDF : Re.regex :=
  Re.cat
    [ Re.Group 1 (Re.plus Re.d); Re.star Re.s; Re.Chr es_ordinal; Re.star Re.s;
      Re.lit "-"; Re.star Re.s; Re.Group 2 (Re.plus_lazy (Re.Chr Re.any_char));
      Re.star Re.s; Re.lit "-"; Re.star Re.s; Re.d; Re.opt Re.d; Re.star Re.s;
      Re.lit ":"; Re.star Re.s; Re.d; Re.d; Re.star Re.s; Re.lit_i "hs";
      Re.opt (Re.lit ".") ].

(** [^(\d{2})\s+[A-Z]], [re.MULTILINE | re.IGNORECASE] *)
Definition patron_caballo : Re.regex :=
  Re.cat [ Re.Bol true; Re.Group 1 (Re.Cat Re.d Re.d); Re.plus Re.s;
           Re.Chr Re.is_letter_i ].

(** The horse numbers of a page: the matches of [patron_caballo] whose
    number lies in 1..24. *)
Definition numeros_caballos (texto : string) : list Z :=
  List.filter (fun num => (1 <=? num) && (num <=? 24))
    (map (int_grupo 1) (Re.finditer patron_caballo texto)).

Definition cantidad_caballos (texto : string) : Z :=
  match numeros_caballos texto with
  | [] => 0
  | nums => Py.max_list nums
  end.

(** One turn of the loop over the pages. *)
Definition caballos_pagina (resultado : gmap Z Z) (texto : string) : gmap Z Z :=
  match Re.search _PATRON_CARRERA_PDF texto with
  | None => resultado
  | Some m_carrera => <[int_grupo 1 m_carrera := cantidad_caballos texto]> resultado
  end.

Definition obtener_caballos_por_carrera (paginas : list string) : gmap Z Z :=
  fold_left caballos_pagina paginas ∅.

(** ** Normaliser of the document side *)

Record carrera : Type := Carrera {
  caballos : Z;
  apuestas : gmap string (option spec_float)
}.

(** One raw observation [[num_carrera, cantidad_caballos, codigo, valor]]. *)
Definition apuesta_raw : Type := (Z * Z * string * string)%type.

Definition normalizar_apuesta (resultado : gmap Z carrera) (a : apuesta_raw)
  : gmap Z carrera :=
  let '(num_carrera, cantidad, codigo_apuesta, valor_str) := a in
  let c := default (Carrera cantidad ∅) (resultado !! num_carrera) in
  <[num_carrera :=
      Carrera (caballos c) (<[codigo_apuesta := _parsear_monto_str valor_str]> (apuestas c))]>
    resultado.

Definition _normalizar_desde_lista_apuestas (apuestas_raw : list apuesta_raw)
  : gmap Z carrera :=
  fold_left normalizar_apuesta apuestas_raw ∅.

(** ** Normaliser of the configuration report *)

(** [sorted(keys)] *)
Definition sorted (l : list Z) : list Z := merge_sort Z.le l.

(** The dictionary [{k: f(k) for k in X}]. *)
Definition dict_de_conjunto {V : Type} (f : Z -> V) (X : gset Z) : gmap Z V :=
  map_imap (fun k (_ : unit) => Some (f k)) (gset_to_gmap tt X).

Definition dict_de_codigos {V : Type} (f : string -> V) (X : gset string)
  : gmap string V :=
  map_imap (fun k (_ : unit) => Some (f k)) (gset_to_gmap tt X).

(** [^\s*(\d+)\s+([A-Z\s]+?)(?:\s+1/9)+], [re.MULTILINE] *)
Definition patron_carrera : Re.regex :=
  Re.cat
    [ Re.Bol true; Re.star Re.s; Re.Group 1 (Re.plus Re.d); Re.plus Re.s;
      Re.Group 2 (Re.plus_lazy (Re.Chr (fun c => Py.isupper_ascii c || Py.isspace c)));
      Re.plus (Re.Cat (Re.plus Re.s) (Re.lit "1/9")) ].

(** [1/9] *)
Definition patron_caballos : Re.regex := Re.lit "1/9".

(** [\bSCR\b], [re.IGNORECASE] *)
Definition patron_scr : Re.regex := Re.cat [Re.Wordb; Re.lit_i "SCR"; Re.Wordb].

(** [\b(GAN|SEG|TER|EXA|TRI|IMP|DOB|TPL|QTN|QTP|CAD|CUA)\b] *)
Definition patron_apuestas_linea : Re.regex :=
  Re.cat
    [ Re.Wordb;
      Re.Group 1
        (Re.alt (map Re.lit
           ["GAN"; "SEG"; "TER"; "EXA"; "TRI"; "IMP"; "DOB"; "TPL"; "QTN"; "QTP";
            "CAD"; "CUA"]));
      Re.Wordb ].

(** [^\s*\d+\s+] *)
Definition patron_otra_carrera : Re.regex :=
  Re.cat [Re.Bol false; Re.star Re.s; Re.plus Re.d; Re.plus Re.s].

(** [patron_apuestas_linea.findall(linea)] *)
Definition codigos_en_linea (linea : string) : list string :=
  map (Re.group_of 1) (Re.finditer patron_apuestas_linea linea).

(** The inner [while] over the lines that follow a race line: codes of the
    indented continuation lines, up to the first blank line, non-indented
    line or line that starts another race. *)
Fixpoint codigos_continuacion (siguientes : list string) : list string :=
  match siguientes with
  | [] => []
  | linea_siguiente :: resto =>
      if Py.is_empty (Py.strip linea_siguiente) then []
      else if negb (Py.startswith " " linea_siguiente
                    || Py.startswith (String Py.tab "") linea_siguiente) then []
      else if bool_decide (is_Some (Re.match_ patron_otra_carrera linea_siguiente)) then []
      else codigos_en_linea linea_siguiente ++ codigos_continuacion resto
  end.

Definition max_lineas_siguientes : nat := 15.

(** State of the availability pass. *)
Record disponibilidad : Type := Disponibilidad {
  caballos_por_carrera : gmap Z Z;
  apuestas_por_carrera : gmap Z (gset string)
}.

(** [apuestas_por_carrera[num].update(codigos)] *)
Definition agregar_codigos (num : Z) (codigos : list string)
    (m : gmap Z (gset string)) : gmap Z (gset string) :=
  <[num := default ∅ (m !! num) ∪ list_to_set codigos]> m.

(** One turn of the outer [while]: [linea] is [lineas[i]] and [siguientes]
    the lines after it. *)
Definition leer_linea_carrera (st : disponibilidad) (linea : string)
    (siguientes : list string) : disponibilidad :=
  match Re.match_ patron_carrera linea with
  | None => st
  | Some m =>
      let num_carrera := int_grupo 1 m in
      let cantidad :=
        Z.of_nat (length (Re.finditer patron_caballos linea))
        + Z.of_nat (length (Re.finditer patron_scr linea)) in
      Disponibilidad
        (<[num_carrera := cantidad]> (caballos_por_carrera st))
        (agregar_codigos num_carrera
           (codigos_continuacion (firstn max_lineas_siguientes siguientes))
           (agregar_codigos num_carrera (codigos_en_linea linea)
              (apuestas_por_carrera st)))
  end.

Fixpoint leer_lineas_carrera (st : disponibilidad) (lineas : list string)
  : disponibilidad :=
  match lineas with
  | [] => st
  | linea :: siguientes =>
      leer_lineas_carrera (leer_linea_carrera st linea siguientes) siguientes
  end.

(** Pass 1: horses and active bets per race. *)
Definition pase_disponibilidad (contenido : string) : disponibilidad :=
  leer_lineas_carrera (Disponibilidad ∅ ∅) (Py.split Py.nl contenido).

(** The text of the section [RSM TABLE]: from the marker to the first of a
    triple line break and the marker [TIM BETTING]. *)
Definition seccion_rsm (contenido : string) : option string :=
  match Py.find "RSM TABLE" contenido with
  | None => None
  | Some inicio_rsm =>
      let seccion := Py.drop inicio_rsm contenido in
      let fin_rsm_1 := Py.find (String Py.nl (String Py.nl (String Py.nl ""))) seccion in
      let fin_rsm_2 := Py.find "TIM BETTING" seccion in
      let fin_rsm :=
        match fin_rsm_1, fin_rsm_2 with
        | Some a, Some b => Some (Nat.min a b)
        | Some a, None => Some a
        | None, Some b => Some b
        | None, None => None
        end in
      Some (match fin_rsm with
            | Some fin => Py.take fin seccion
            | None => seccion
            end)
  end.

Definition es_monto (c : ascii) : bool :=
  Py.isdecimal c || Ascii.eqb c "." || Ascii.eqb c ",".

(** [^\s*\d+\s+(RM)\s+---\s+([A-Z]+)\s+TS\s+([\d.,]+)], [re.MULTILINE],
    where RM, the race map, stands for [[^\s]+(?:[-\s,][^\s]+)* ] *)
Definition patron_rsm : Re.regex :=
  Re.cat
    [ Re.Bol true; Re.star Re.s; Re.plus Re.d; Re.plus Re.s;
      Re.Group 1
        (Re.Cat (Re.plus Re.not_s)
           (Re.star
              (Re.Cat
                 (Re.Chr (fun c => Ascii.eqb c "-" || Py.isspace c || Ascii.eqb c ","))
                 (Re.plus Re.not_s))));
      Re.plus Re.s; Re.lit "---"; Re.plus Re.s;
      Re.Group 2 (Re.plus (Re.Chr Py.isupper_ascii));
      Re.plus Re.s; Re.lit "TS"; Re.plus Re.s;
      Re.Group 3 (Re.plus (Re.Chr es_monto)) ].

Definition codigos_rsm : list string :=
  ["EXA"; "TRI"; "IMP"; "DOB"; "TPL"; "QTN"; "QTP"; "CAD"; "CUA"].

(** [mapeo_rsm.get(tipo_rsm)]; [WPS] is mapped to [None]. *)
Definition mapeo_rsm (tipo_rsm : string) : option string :=
  if bool_decide (tipo_rsm ∈ codigos_rsm) then Some tipo_rsm else None.

(** [valores[carrera][codigo] = valor] *)
Definition asignar_valor (codigo : string) (valor : spec_float)
    (valores : gmap Z (gmap string spec_float)) (carrera : Z)
  : gmap Z (gmap string spec_float) :=
  <[carrera := <[codigo := valor]> (default ∅ (valores !! carrera))]> valores.

(** The races of a row of the table: [ALL] is the list of real races when
    there is one. *)
Definition carreras_de_fila (carreras_reales_reporte : list Z) (race_map : string)
  : list Z :=
  if String.eqb (Py.upper race_map) "ALL" then
    match carreras_reales_reporte with
    | [] => _expandir_race_map race_map
    | _ => carreras_reales_reporte
    end
  else _expandir_race_map race_map.

(** The inner [for carrera in carreras]. *)
Definition asignar_a_carreras (carreras_reales_reporte : list Z)
    (codigo : string) (valor : spec_float) (carreras : list Z)
    (valores : gmap Z (gmap string spec_float))
  : gmap Z (gmap string spec_float) :=
  fold_left
    (fun valores carrera =>
       if negb (bool_decide (carreras_reales_reporte = []))
          && negb (bool_decide (carrera ∈ carreras_reales_reporte))
       then valores
       else asignar_valor codigo valor valores carrera)
    carreras valores.

(** One turn of the loop over the rows matched by [patron_rsm]. *)
Definition leer_fila_rsm (carreras_reales_reporte : list Z)
    (valores : gmap Z (gmap string spec_float)) (m : Re.found)
  : gmap Z (gmap string spec_float) :=
  let race_map := Py.strip (Re.group_of 1 m) in
  let tipo_rsm := Py.strip (Re.group_of 2 m) in
  let valor_str := Py.strip (Re.group_of 3 m) in
  match _parsear_monto_str valor_str with
  | None => valores
  | Some valor_float =>
      match mapeo_rsm tipo_rsm with
      | None => valores
      | Some codigo_apuesta =>
          asignar_a_carreras carreras_reales_reporte codigo_apuesta valor_float
            (carreras_de_fila carreras_reales_reporte race_map) valores
      end
  end.

(** Pass 2: minimum stakes from the section [RSM TABLE]. *)
Definition pase_minimos (contenido : string) (caballos_por_carrera : gmap Z Z)
  : gmap Z (gmap string spec_float) :=
  match seccion_rsm contenido with
  | None => ∅
  | Some seccion =>
      let carreras_reales_reporte := sorted (elements (dom caballos_por_carrera)) in
      fold_left (leer_fila_rsm carreras_reales_reporte)
        (Re.finditer patron_rsm seccion) ∅
  end.

(** [(GAN|SEG|TER|EXA|IMP|TRI|DOB|TPL|QTN|QTP|CAD|CUA)\s+([\d.,]+)] *)
Definition patron_default : Re.regex :=
  Re.cat
    [ Re.Group 1
        (Re.alt (map Re.lit
           ["GAN"; "SEG"; "TER"; "EXA"; "IMP"; "TRI"; "DOB"; "TPL"; "QTN"; "QTP";
            "CAD"; "CUA"]));
      Re.plus Re.s; Re.Group 2 (Re.plus (Re.Chr es_monto)) ].

(** Pass 3: the values of [CARD DEFAULT MINIMUMS]. *)
Definition valores_default (contenido : string) : gmap string spec_float :=
  match Py.find "CARD DEFAULT MINIMUMS - ARS" contenido with
  | None => ∅
  | Some inicio_defaults =>
      fold_left
        (fun valores m =>
           match _parsear_monto_str (Re.group_of 2 m) with
           | Some v => <[Re.group_of 1 m := v]> valores
           | None => valores
           end)
        (Re.finditer patron_default (Py.take 500 (Py.drop inicio_defaults contenido)))
        ∅
  end.

(** Pass 4: one entry per race of pass 1; the amount of a code is the one of
    pass 2 for that race when there is one. *)
Definition combinar (disp : disponibilidad)
    (valores_por_carrera : gmap Z (gmap string spec_float))
    (valores_default : gmap string spec_float) : gmap Z carrera :=
  let todas_las_carreras :=
    dom (caballos_por_carrera disp) ∪ dom (apuestas_por_carrera disp) in
  dict_de_conjunto
    (fun num_carrera =>
       let apuestas_carrera := default ∅ (apuestas_por_carrera disp !! num_carrera) in
       let valores_carrera := default ∅ (valores_por_carrera !! num_carrera) in
       Carrera
         (default 0 (caballos_por_carrera disp !! num_carrera))
         (dict_de_codigos (fun codigo => valores_carrera !! codigo) apuestas_carrera))
    todas_las_carreras.

Definition _normalizar_reporte (contenido : string) : gmap Z carrera :=
  let disp := pase_disponibilidad contenido in
  let valores_por_carrera := pase_minimos contenido (caballos_por_carrera disp) in
  combinar disp valores_por_carrera (valores_default contenido).

(** ** Reconciliation of the document against the report *)

Inductive diferencia : Type :=
| CarreraSoloEnReporte (num_carrera : Z)
| CarreraSoloEnPdf (num_carrera : Z)
| CaballosDifieren (num_carrera : Z) (caballos_pdf caballos_reporte : Z)
| ApuestasSoloEnPdf (num_carrera : Z) (codigos : gset string)
| ApuestasSoloEnReporte (num_carrera : Z) (codigos : gset string)
| ValorDiferente (num_carrera : Z) (codigo : string) (valor_pdf valor_reporte : spec_float)
| ValorSoloEnPdf (num_carrera : Z) (codigo : string) (valor_pdf : spec_float)
| ValorSoloEnReporte (num_carrera : Z) (codigo : string) (valor_reporte : spec_float).

(** The literal [0.01]. *)
Definition tolerancia : spec_float := S754_finite false 5764607523034235 (-59).

(** [abs(a - b) > 0.01] *)
Definition supera_tolerancia (a b : spec_float) : bool :=
  Float.ltb tolerancia (Float.abs (Float.sub a b)).

Definition apuestas_sin_comparar_valor : list string := ["GAN"; "SEG"; "TER"].

(** Body of the loop over the common codes. *)
Definition comparar_valor (num_carrera : Z) (codigo : string)
    (valor_pdf valor_reporte : option spec_float) : list diferencia :=
  if bool_decide (codigo ∈ apuestas_sin_comparar_valor) then []
  else
    match valor_pdf, valor_reporte with
    | Some a, Some b =>
        if supera_tolerancia a b then [ValorDiferente num_carrera codigo a b] else []
    | Some a, None => [ValorSoloEnPdf num_carrera codigo a]
    | None, Some b => [ValorSoloEnReporte num_carrera codigo b]
    | None, None => []
    end.

(** [d[codigo]] for a code known to be a key of [d]. *)
Definition valor_de (d : gmap string (option spec_float)) (codigo : string)
  : option spec_float := default None (d !! codigo).

(** Body of the loop over the races. *)
Definition comparar_carrera (datos_pdf datos_reporte : gmap Z carrera)
    (num_carrera : Z) : list diferencia :=
  match datos_pdf !! num_carrera, datos_reporte !! num_carrera with
  | None, _ => [CarreraSoloEnReporte num_carrera]
  | Some _, None => [CarreraSoloEnPdf num_carrera]
  | Some p, Some r =>
      let apuestas_pdf := dom (apuestas p) in
      let apuestas_reporte := dom (apuestas r) in
      let solo_en_pdf := apuestas_pdf ∖ apuestas_reporte in
      let solo_en_reporte := apuestas_reporte ∖ apuestas_pdf in
      let apuestas_comunes := apuestas_pdf ∩ apuestas_reporte in
      (if bool_decide (caballos p = caballos r) then []
       else [CaballosDifieren num_carrera (caballos p) (caballos r)])
      ++ (if bool_decide (solo_en_pdf = ∅) then []
          else [ApuestasSoloEnPdf num_carrera solo_en_pdf])
      ++ (if bool_decide (solo_en_reporte = ∅) then []
          else [ApuestasSoloEnReporte num_carrera solo_en_reporte])
      ++ flat_map
           (fun codigo =>
              comparar_valor num_carrera codigo
                (valor_de (apuestas p) codigo) (valor_de (apuestas r) codigo))
           (elements apuestas_comunes)
  end.

(** The comparison of [comparar_pdf_y_reporte], from the two normalised
    structures on. *)
Definition comparar_datos (datos_pdf datos_reporte : gmap Z carrera)
  : bool * list diferencia :=
  let todas_las_carreras := dom datos_pdf ∪ dom datos_reporte in
  let diferencias :=
    flat_map (comparar_carrera datos_pdf datos_reporte)
      (sorted (elements todas_las_carreras)) in
  (bool_decide (length diferencias = 0%nat), diferencias).

(** [comparar_pdf_y_reporte] with the raw observations of the document
    already read and the content of the report file. *)
Definition comparar_pdf_y_reporte (apuestas_raw : list apuesta_raw)
    (contenido_reporte : string) : bool * list diferencia :=
  comparar_datos (_normalizar_desde_lista_apuestas apuestas_raw)
    (_normalizar_reporte contenido_reporte).

(** ** Palermo: extraction from the document *)

Definition _mapear_nombre_apuesta_palermo (descripcion : string) : option string :=
  if Py.is_empty descripcion then None
  else
    let texto := Py.replace "  " " " (Py.lower (Py.strip descripcion)) in
    if Py.contains "cuatrifecta" texto then Some "CUA"
    else if Py.contains "trifecta" texto then Some "TRI"
    else if Py.contains "doble extra" texto then Some "DOB"
    else if Py.contains "doble" texto then Some "DOB"
    else if Py.contains "5 y 6" texto || Py.contains "5y6" texto
            || Py.contains "5 & 6" texto then Some "CAD"
    else if Py.contains "pick cuatro" texto || Py.contains "pick 4" texto then Some "QTN"
    else if Py.contains "pick cinco" texto || Py.contains "pick 5" texto then Some "QTP"
    else if Py.contains "exacta" texto then Some "EXA"
    else if Py.contains "triplo" texto then Some "TPL"
    else if Py.contains "imperfecta" texto then Some "IMP"
    else None.

(** The class [[ªº]] *)
Definition es_sufijo_ordinal (c : ascii) : bool :=
  (Py.cp c =? 170)%N || (Py.cp c =? 186)%N.

(** [\b\d{1,2}/\d{1,2}/\d{2,4}\b] *)
Definition patron_fecha : Re.regex :=
  Re.cat
    [ Re.Wordb; Re.d; Re.opt Re.d; Re.lit "/"; Re.d; Re.opt Re.d; Re.lit "/";
      Re.d; Re.d; Re.opt (Re.Cat Re.d (Re.opt Re.d)); Re.Wordb ].

(** [(.+?)\(\s*[\$\s]*([\d.,]+)(?:\.-)?\s*\)\s+(.+)] *)
Definition patron_fila : Re.regex :=
  Re.cat
    [ Re.Group 1 (Re.plus_lazy (Re.Chr Re.not_newline)); Re.lit "("; Re.star Re.s;
      Re.star (Re.Chr (fun c => Ascii.eqb c "$" || Py.isspace c));
      Re.Group 2 (Re.plus (Re.Chr es_monto)); Re.opt (Re.lit ".-"); Re.star Re.s;
      Re.lit ")"; Re.plus Re.s; Re.Group 3 (Re.plus (Re.Chr Re.not_newline)) ].

(** [DESDE\s+LA\s+(\d+)\s*[ªº]?\s+HASTA\s+LA\s+(\d+)\s*[ªº]?] *)
Definition patron_desde_hasta : Re.regex :=
  Re.cat
    [ Re.lit "DESDE"; Re.plus Re.s; Re.lit "LA"; Re.plus Re.s;
      Re.Group 1 (Re.plus Re.d); Re.star Re.s; Re.opt (Re.Chr es_sufijo_ordinal);
      Re.plus Re.s; Re.lit "HASTA"; Re.plus Re.s; Re.lit "LA"; Re.plus Re.s;
      Re.Group 2 (Re.plus Re.d); Re.star Re.s; Re.opt (Re.Chr es_sufijo_ordinal) ].

(** [(\d+)\s*[ªº]?] *)
Definition patron_numero : Re.regex :=
  Re.cat [Re.Group 1 (Re.plus Re.d); Re.star Re.s; Re.opt (Re.Chr es_sufijo_ordinal)].

Definition _extraer_carreras_palermo (carreras_str : string) : list Z :=
  let texto := Py.upper carreras_str in
  let lista := map (int_grupo 1) (Re.finditer patron_numero carreras_str) in
  match Re.search patron_desde_hasta texto with
  | Some m_rango =>
      let inicio := int_grupo 1 m_rango in
      let fin := int_grupo 2 m_rango in
      if inicio <=? fin then Py.range inicio (fin + 1) else lista
  | None => lista
  end.

Record info_resumen : Type := InfoResumen {
  conteo_lineas : Z;
  valor : spec_float;
  carreras : gset Z
}.

(** The result of the extraction.  [orden_fechas] lists the keys of
    [apuestas_por_fecha] in the order in which they were inserted. *)
Record datos_palermo : Type := DatosPalermo {
  fechas : list string;
  orden_fechas : list string;
  apuestas_por_fecha : gmap string (gmap Z (gmap string spec_float));
  resumen_por_fecha : gmap string (gmap string info_resumen)
}.

Definition datos_vacios : datos_palermo := DatosPalermo [] [] ∅ ∅.

(** [if f not in fechas_encontradas: fechas_encontradas.append(f)] *)
Definition anotar_fecha (fechas_encontradas : list string) (f : string)
  : list string :=
  if bool_decide (f ∈ fechas_encontradas) then fechas_encontradas
  else fechas_encontradas ++ [f].

(** The updates made for a recognised row of the current date. *)
Definition registrar_fila (d : datos_palermo) (fecha codigo : string)
    (v : spec_float) (cs : list Z) : datos_palermo :=
  let por_carrera := default ∅ (apuestas_por_fecha d !! fecha) in
  let resumen := default ∅ (resumen_por_fecha d !! fecha) in
  let info := default (InfoResumen 0 v ∅) (resumen !! codigo) in
  DatosPalermo
    (fechas d)
    (if bool_decide (fecha ∈ dom (apuestas_por_fecha d)) then orden_fechas d
     else orden_fechas d ++ [fecha])
    (<[fecha := fold_left (asignar_valor codigo v) cs por_carrera]>
       (apuestas_por_fecha d))
    (<[fecha :=
         <[codigo := InfoResumen (conteo_lineas info + 1) v
                       (carreras info ∪ list_to_set cs)]> resumen]>
       (resumen_por_fecha d)).

(** State of the scan of a page. *)
Record lector : Type := Lector {
  datos : datos_palermo;
  fecha_actual : option string
}.

Definition con_fechas (d : datos_palermo) (fs : list string) : datos_palermo :=
  DatosPalermo fs (orden_fechas d) (apuestas_por_fecha d) (resumen_por_fecha d).

(** Body of the loop over the lines of a page. *)
Definition procesar_linea (st : lector) (linea : string) : lector :=
  let linea_stripped := Py.strip linea in
  if Py.is_empty linea_stripped then st
  else
    let halladas := map Re.m_text (Re.finditer patron_fecha linea_stripped) in
    let d := con_fechas (datos st) (fold_left anotar_fecha halladas (fechas (datos st))) in
    let actual := match last halladas with
                  | Some f => Some f
                  | None => fecha_actual st
                  end in
    let st' := Lector d actual in
    if negb (Py.contains "(" linea_stripped) || negb (Py.contains ")" linea_stripped)
    then st'
    else
      match Re.match_ patron_fila linea_stripped with
      | None => st'
      | Some m =>
          match actual with
          | None => st'
          | Some fecha =>
              match _mapear_nombre_apuesta_palermo (Py.strip (Re.group_of 1 m)) with
              | None => st'
              | Some codigo_apuesta =>
                  match _parsear_monto_str (Py.strip (Re.group_of 2 m)) with
                  | None => st'
                  | Some v =>
                      match _extraer_carreras_palermo (Py.strip (Re.group_of 3 m)) with
                      | [] => st'
                      | cs => Lector (registrar_fila d fecha codigo_apuesta v cs) actual
                      end
                  end
              end
          end
      end.

(** Body of the loop over the pages: the current date starts at [None]. *)
Definition procesar_pagina (d : datos_palermo) (texto : string) : datos_palermo :=
  datos (fold_left procesar_linea (Py.split Py.nl texto) (Lector d None)).

Definition _leer_palermo_desde_pdf (paginas : list string) : datos_palermo :=
  fold_left procesar_pagina paginas datos_vacios.

(** ** Palermo: normaliser of the report and reconciliation *)

(** [max_carrera] of the first loop over the rows. *)
Definition max_carrera_de_fila (max_carrera : Z) (m : Re.found) : Z :=
  let race_map := Py.strip (Re.group_of 1 m) in
  if String.eqb (Py.upper race_map) "ALL" then max_carrera
  else
    match _expandir_race_map race_map with
    | [] => max_carrera
    | cs => Z.max max_carrera (Py.max_list cs)
    end.

Definition leer_fila_rsm_palermo (max_carrera : Z)
    (valores : gmap Z (gmap string spec_float)) (m : Re.found)
  : gmap Z (gmap string spec_float) :=
  let race_map := Py.strip (Re.group_of 1 m) in
  let tipo_rsm := Py.strip (Re.group_of 2 m) in
  let valor_str := Py.strip (Re.group_of 3 m) in
  match mapeo_rsm tipo_rsm with
  | None => valores
  | Some codigo_apuesta =>
      match _parsear_monto_str valor_str with
      | None => valores
      | Some valor_float =>
          fold_left (asignar_valor codigo_apuesta valor_float)
            (if String.eqb (Py.upper race_map) "ALL"
             then Py.range 1 (max_carrera + 1)
             else _expandir_race_map race_map)
            valores
      end
  end.

Definition _normalizar_reporte_palermo (contenido : string)
  : gmap Z (gmap string spec_float) :=
  match seccion_rsm contenido with
  | None => ∅
  | Some seccion =>
      let filas := Re.finditer patron_rsm seccion in
      let max_carrera := fold_left max_carrera_de_fila filas 0 in
      let max_carrera := if max_carrera =? 0 then 15 else max_carrera in
      fold_left (leer_fila_rsm_palermo max_carrera) filas ∅
  end.

(** Without a selected date: [apuestas_pdf[carrera].update(apuestas)] over
    the dates in insertion order. *)
Definition combinar_fechas (d : datos_palermo) : gmap Z (gmap string spec_float) :=
  fold_left
    (fun apuestas_pdf fecha =>
       union_with (fun nuevas previas => Some (nuevas ∪ previas))
         (default ∅ (apuestas_por_fecha d !! fecha)) apuestas_pdf)
    (orden_fechas d) ∅.

Definition codigos_all_si_unica : list string := ["EXA"; "TRI"].

(** [if codigo not in apuestas_pdf[carrera]: apuestas_pdf[carrera][codigo] = valor] *)
Definition completar_carrera (codigo : string) (v : spec_float)
    (apuestas_pdf : gmap Z (gmap string spec_float)) (carrera : Z)
  : gmap Z (gmap string spec_float) :=
  let actuales := default ∅ (apuestas_pdf !! carrera) in
  <[carrera := match actuales !! codigo with
               | Some _ => actuales
               | None => <[codigo := v]> actuales
               end]> apuestas_pdf.

(** Body of the loop over [codigos_all_si_unica]. *)
Definition completar_codigo (resumen_fecha : gmap string info_resumen)
    (datos_reporte : gmap Z (gmap string spec_float))
    (apuestas_pdf : gmap Z (gmap string spec_float)) (codigo : string)
  : gmap Z (gmap string spec_float) :=
  match resumen_fecha !! codigo with
  | None => apuestas_pdf
  | Some info =>
      if bool_decide (conteo_lineas info = 1) then
        fold_left (completar_carrera codigo (valor info))
          (elements (dom datos_reporte)) apuestas_pdf
      else apuestas_pdf
  end.

(** The bets of the document side that are compared: those of the selected
    date completed by the single-occurrence rule, or those of all dates. *)
Definition apuestas_palermo (datos_pdf : datos_palermo)
    (datos_reporte : gmap Z (gmap string spec_float))
    (fecha_objetivo : option string) : gmap Z (gmap string spec_float) :=
  match fecha_objetivo with
  | None => combinar_fechas datos_pdf
  | Some fecha =>
      fold_left
        (completar_codigo (default ∅ (resumen_por_fecha datos_pdf !! fecha)) datos_reporte)
        codigos_all_si_unica
        (default ∅ (apuestas_por_fecha datos_pdf !! fecha))
  end.

Inductive diferencia_palermo : Type :=
| PalermoSoloEnReporte (num_carrera : Z)
| PalermoSoloEnPdf (num_carrera : Z)
| PalermoApuestasSoloEnPdf (num_carrera : Z) (codigos : gset string)
| PalermoApuestasSoloEnReporte (num_carrera : Z) (codigos : gset string)
| PalermoSinMontoEnPdf (num_carrera : Z) (codigo : string) (valor_rep : spec_float)
| PalermoNullEnReporte (num_carrera : Z) (codigo : string) (valor_pdf : spec_float)
| PalermoMontoDifiere (num_carrera : Z) (codigo : string) (valor_pdf valor_rep : spec_float).

Definition comparar_monto_palermo (num_carrera : Z) (codigo : string)
    (valor_pdf valor_rep : option spec_float) : list diferencia_palermo :=
  match valor_pdf, valor_rep with
  | None, None => []
  | None, Some b => [PalermoSinMontoEnPdf num_carrera codigo b]
  | Some a, None => [PalermoNullEnReporte num_carrera codigo a]
  | Some a, Some b =>
      if supera_tolerancia a b then [PalermoMontoDifiere num_carrera codigo a b] else []
  end.

Definition comparar_carrera_palermo
    (apuestas_pdf datos_reporte : gmap Z (gmap string spec_float))
    (num_carrera : Z) : list diferencia_palermo :=
  match apuestas_pdf !! num_carrera, datos_reporte !! num_carrera with
  | None, _ => [PalermoSoloEnReporte num_carrera]
  | Some _, None => [PalermoSoloEnPdf num_carrera]
  | Some apuestas_carrera_pdf, Some apuestas_carrera_rep =>
      let codigos_pdf := dom apuestas_carrera_pdf in
      let codigos_rep := dom apuestas_carrera_rep in
      let solo_en_pdf := codigos_pdf ∖ codigos_rep in
      let solo_en_reporte := codigos_rep ∖ codigos_pdf in
      (if bool_decide (solo_en_pdf = ∅) then []
       else [PalermoApuestasSoloEnPdf num_carrera solo_en_pdf])
      ++ (if bool_decide (solo_en_reporte = ∅) then []
          else [PalermoApuestasSoloEnReporte num_carrera solo_en_reporte])
      ++ flat_map
           (fun codigo =>
              comparar_monto_palermo num_carrera codigo
                (apuestas_carrera_pdf !! codigo) (apuestas_carrera_rep !! codigo))
           (elements (codigos_pdf ∩ codigos_rep))
  end.

(** [comparar_palermo] with the extraction of the document already made
    ([datos_pdf]) and the content of the report file. *)
Definition comparar_palermo (datos_pdf : datos_palermo) (contenido_reporte : string)
    (fecha_objetivo : option string)
  : bool * list diferencia_palermo * list string :=
  let datos_reporte := _normalizar_reporte_palermo contenido_reporte in
  let apuestas_pdf := apuestas_palermo datos_pdf datos_reporte fecha_objetivo in
  let todas_las_carreras := dom apuestas_pdf ∪ dom datos_reporte in
  let diferencias :=
    flat_map (comparar_carrera_palermo apuestas_pdf datos_reporte)
      (sorted (elements todas_las_carreras)) in
  (bool_decide (length diferencias = 0%nat), diferencias, fechas datos_pdf).

(** ** Classes of characters used in the statements *)

Definition es_decimal_o_punto (c : ascii) : bool := Py.isdecimal c || Float.is_point c.
Definition es_digito_o_punto (c : ascii) : bool := Py.isdigit_char c || Float.is_point c.
Definition es_de_numero (c : ascii) : bool :=
  Py.isdecimal c || Ascii.eqb c "_" || Float.is_point c.

(** The integer that a run of decimal digits denotes, read left to right
    from [acc]. *)
Fixpoint valor_desde (acc : Z) (digitos : string) : Z :=
  match digitos with
  | EmptyString => acc
  | String c resto => valor_desde (10 * acc + Py.digit_val c) resto
  end.

Definition valor_decimal (digitos : string) : Z := valor_desde 0 digitos.

(** Case analysis over the 256 characters. *)
Ltac por_caracter c :=
  destruct c as [[] [] [] [] [] [] [] []]; vm_compute; try reflexivity;
  try discriminate; intuition (try discriminate; try reflexivity).

(** ** The race-range expander, as the specification words it *)

(** What one segment of a comma list contributes: a two-part hyphen segment
    gives the inclusive range, a plain segment its single number, and a
    segment that fails integer parsing gives nothing. *)
Definition segmento_spec (parte : string) : list Z :=
  let p := Py.strip parte in
  if Py.contains "-" p then
    match Py.split "-" p with
    | [x; y] =>
        match Py.int (Py.strip x), Py.int (Py.strip y) with
        | Some a, Some b => Py.range a (b + 1)
        | _, _ => []
        end
    | _ => []
    end
  else
    match Py.int p with
    | Some n => [n]
    | None => []
    end.

(** ** What a discrepancy is about *)

(** The race named by a discrepancy. *)
Definition carrera_de (d : diferencia) : Z :=
  match d with
  | CarreraSoloEnReporte n | CarreraSoloEnPdf n | CaballosDifieren n _ _
  | ApuestasSoloEnPdf n _ | ApuestasSoloEnReporte n _ | ValorDiferente n _ _ _
  | ValorSoloEnPdf n _ _ | ValorSoloEnReporte n _ _ => n
  end.

(** The bet code whose amount a discrepancy is about, if any. *)
Definition codigo_de (d : diferencia) : option string :=
  match d with
  | ValorDiferente _ c _ _ | ValorSoloEnPdf _ c _ | ValorSoloEnReporte _ c _ => Some c
  | _ => None
  end.

(** ** A sample pair of normalised structures *)

Definition ejemplo_carrera_pdf : carrera :=
  Carrera 15
    (<["GAN" := None]>
       (<["IMP" := Some (Float.of_decimal false 1000 0)]>
          (<["EXA" := Some (Float.of_decimal false 500 0)]>
             (<["TRI" := None]> ∅)))).

Definition ejemplo_carrera_reporte : carrera :=
  Carrera 15
    (<["GAN" := Some (Float.of_decimal false 2 0)]>
       (<["IMP" := Some (Float.of_decimal false 10005 (-1))]>
          (<["EXA" := None]>
             (<["TRI" := None]> ∅)))).

Definition ejemplo_pdf : gmap Z carrera := <[1 := ejemplo_carrera_pdf]> ∅.
Definition ejemplo_reporte : gmap Z carrera := <[1 := ejemplo_carrera_reporte]> ∅.

(** ** The availability pass, per race *)

(** The codes that a race line and its continuation lines contribute. *)
Definition codigos_de_linea_carrera (linea : string) (siguientes : list string)
  : gset string :=
  list_to_set (codigos_en_linea linea)
  ∪ list_to_set (codigos_continuacion (firstn max_lineas_siguientes siguientes)).

(** The union, over the race lines that carry the number [num], of the
    recognised codes of the line and of its continuation lines. *)
Fixpoint codigos_disponibles (num : Z) (lineas : list string) : gset string :=
  match lineas with
  | [] => ∅
  | linea :: siguientes =>
      match Re.match_ patron_carrera linea with
      | Some m =>
          if bool_decide (int_grupo 1 m = num)
          then codigos_de_linea_carrera linea siguientes
          else ∅
      | None => ∅
      end ∪ codigos_disponibles num siguientes
  end.

(** The races that have a race line. *)
Fixpoint carreras_con_linea (lineas : list string) : gset Z :=
  match lineas with
  | [] => ∅
  | linea :: siguientes =>
      match Re.match_ patron_carrera linea with
      | Some m => {[ int_grupo 1 m ]}
      | None => ∅
      end ∪ carreras_con_linea siguientes
  end.

(** [chr(10).join(lineas)] *)
Fixpoint unir_lineas (lineas : list string) : string :=
  match lineas with
  | [] => ""
  | [l] => l
  | l :: ls => Py.app l (String Py.nl (unir_lineas ls))
  end.

(** A report with the races 1 and 2, default minimums, and a table whose
    rows name "ALL", a list and a range. *)
Definition ejemplo_contenido : string :=
  unir_lineas
    [ "  1  GAN SEG TER EXA 1/9 1/9 SCR 1/9";
      "       DOB( 1,2 ) IMP";
      "";
      "  2  GAN EXA TRI 1/9 1/9";
      "CARD DEFAULT MINIMUMS - ARS  GAN 2,00 IMP 500,00 TRI 100";
      "RSM TABLE";
      "  1  ALL        ---  EXA  TS  1000,00  x";
      "  2  2,4        ---  TRI  TS  5.000  x";
      "  3  1-3        ---  DOB  TS  7  x";
      "TIM BETTING" ].

(** ** Palermo: the rows that the extraction records *)

(** A recorded row: date, code, amount, races. *)
Definition fila : Type := (string * string * spec_float * list Z)%type.

(** The date tokens of a trimmed line. *)
Definition fechas_de_linea (linea_stripped : string) : list string :=
  map Re.m_text (Re.finditer patron_fecha linea_stripped).

(** The current date once the date tokens of a line are read. *)
Definition fecha_tras_linea (actual : option string) (linea_stripped : string)
  : option string :=
  match last (fechas_de_linea linea_stripped) with
  | Some f => Some f
  | None => actual
  end.

(** The row that a trimmed line yields under the current date [actual]. *)
Definition fila_de_linea (actual : option string) (linea_stripped : string)
  : option fila :=
  if negb (Py.contains "(" linea_stripped) || negb (Py.contains ")" linea_stripped)
  then None
  else
    match Re.match_ patron_fila linea_stripped with
    | None => None
    | Some m =>
        match actual with
        | None => None
        | Some fecha =>
            match _mapear_nombre_apuesta_palermo (Py.strip (Re.group_of 1 m)) with
            | None => None
            | Some codigo_apuesta =>
                match _parsear_monto_str (Py.strip (Re.group_of 2 m)) with
                | None => None
                | Some v =>
                    match _extraer_carreras_palermo (Py.strip (Re.group_of 3 m)) with
                    | [] => None
                    | cs => Some (fecha, codigo_apuesta, v, cs)
                    end
                end
            end
        end
    end.

(** The rows of a run of lines read from the current date [actual] on. *)
Fixpoint filas_de_lineas (actual : option string) (lineas : list string)
  : list fila :=
  match lineas with
  | [] => []
  | linea :: resto =>
      let s := Py.strip linea in
      if Py.is_empty s then filas_de_lineas actual resto
      else
        let actual' := fecha_tras_linea actual s in
        match fila_de_linea actual' s with
        | Some f => f :: filas_de_lineas actual' resto
        | None => filas_de_lineas actual' resto
        end
  end.

(** The rows of a page, read on its own. *)
Definition filas_de_pagina (texto : string) : list fila :=
  filas_de_lineas None (Py.split Py.nl texto).

Definition filas_registradas (paginas : list string) : list fila :=
  flat_map filas_de_pagina paginas.

Definition registrar (d : datos_palermo) (f : fila) : datos_palermo :=
  let '(fecha, codigo, v, cs) := f in registrar_fila d fecha codigo v cs.

(** The amount held for a race and a code. *)
Definition ver (m : gmap Z (gmap string spec_float)) (carrera : Z) (codigo : string)
  : option spec_float :=
  default ∅ (m !! carrera) !! codigo.

(** No line of [lineas] carries a date token. *)
Definition sin_fechas (lineas : list string) : Prop :=
  forall linea, linea ∈ lineas -> fechas_de_linea (Py.strip linea) = [].

Definition fecha_de (f : fila) : string := f.1.1.1.

(** The row [f] comes from a line of the page, and its date is a date token
    of that line or of an earlier line of the same page. *)
Definition fila_con_fecha_en (lineas : list string) (f : fila) : Prop :=
  exists (i j : nat) (linea_fecha linea_fila : string),
    (i <= j)%nat
    /\ lineas !! i = Some linea_fecha
    /\ lineas !! j = Some linea_fila
    /\ fecha_de f ∈ fechas_de_linea (Py.strip linea_fecha)
    /\ fila_de_linea (Some (fecha_de f)) (Py.strip linea_fila) = Some f.

(** Two extraction results with the same bets and summaries. *)
Definition mismas_apuestas (d d' : datos_palermo) : Prop :=
  orden_fechas d = orden_fechas d'
  /\ apuestas_por_fecha d = apuestas_por_fecha d'
  /\ resumen_por_fecha d = resumen_por_fecha d'.

(** Two pages: the first carries a date and a row; the second carries a row,
    then a date, then another row. *)
Definition ejemplo_paginas : list string :=
  [ unir_lineas ["Reunion 01/02/2026"; "EXACTA ($ 500.-)  1, 2"];
    unir_lineas ["TRIFECTA (300) 1,2"; "Reunion 04/02/2026"; "TRIFECTA (400) 6"] ].

(** The amount recorded for a date, a race and a code. *)
Definition ver_fecha (d : datos_palermo) (fecha : string) (carrera : Z)
    (codigo : string) : option spec_float :=
  ver (default ∅ (apuestas_por_fecha d !! fecha)) carrera codigo.

(** ** Palermo: the single-occurrence rule *)

Definition codigo_de_fila (f : fila) : string := f.1.1.2.

(** The recorded rows of a date and a code. *)
Definition filas_de (fecha codigo : string) (filas : list fila) : list fila :=
  List.filter
    (fun f => bool_decide (fecha_de f = fecha /\ codigo_de_fila f = codigo)) filas.

(** [resumen_por_fecha.get(fecha, {}).get(codigo)] *)
Definition info_de (d : datos_palermo) (fecha codigo : string)
  : option info_resumen :=
  default ∅ (resumen_por_fecha d !! fecha) !! codigo.

Definition conteo_de (o : option info_resumen) : Z :=
  match o with
  | Some info => conteo_lineas info
  | None => 0
  end.

(** A report side with the races 1, 2 and 3. *)
Definition ejemplo_reporte_palermo : gmap Z (gmap string spec_float) :=
  <[1 := {["EXA" := Float.of_decimal false 500 0]}]>
    (<[2 := {["EXA" := Float.of_decimal false 500 0]}]>
       (<[3 := {["EXA" := Float.of_decimal false 500 0]}]> ∅)).

(** ** Horse tokens of a page, read character by character *)

(** [resto] begins with white space, and its first character after the
    white space satisfies [es_letra]. *)
Definition espacios_y_letra (es_letra : ascii -> bool) (resto : string) : bool :=
  match resto with
  | String w resto' =>
      Py.isspace w
      && match Py.lstrip resto' with
         | String l _ => es_letra l
         | EmptyString => false
         end
  | EmptyString => false
  end.

(** The number of the horse token that starts [s], if there is one: two
    decimal digits, white space, a letter. *)
Definition token_caballo (es_letra : ascii -> bool) (s : string) : option Z :=
  match s with
  | String d1 (String d2 resto) =>
      if Py.isdecimal d1 && Py.isdecimal d2 && espacios_y_letra es_letra resto
      then Some (10 * Py.digit_val d1 + Py.digit_val d2)
      else None
  | _ => None
  end.

(** The numbers of the horse tokens that stand at a line start;
    [inicio_linea] tells whether [s] begins a line. *)
Fixpoint tokens_caballo (es_letra : ascii -> bool) (inicio_linea : bool)
    (s : string) : list Z :=
  match s with
  | EmptyString => []
  | String c s' =>
      match (if inicio_linea then token_caballo es_letra s else None) with
      | Some n => n :: tokens_caballo es_letra (Ascii.eqb c Py.nl) s'
      | None => tokens_caballo es_letra (Ascii.eqb c Py.nl) s'
      end
  end.

(** The largest token number within 1..24, and 0 when there is none. *)
Definition cuenta_de_tokens (es_letra : ascii -> bool) (texto : string) : Z :=
  match List.filter (fun num => (1 <=? num) && (num <=? 24))
          (tokens_caballo es_letra true texto) with
  | [] => 0
  | nums => Py.max_list nums
  end.

(** Two pages of the race 1: horses 01 to 05 on the first, a single token
    with a lower-case name on the second. *)
Definition ejemplo_programa : list string :=
  [ unir_lineas ["1a - Premio UNO - 14:05 hs."; "01 ALFA"; "05 BETA"];
    unir_lineas ["1a - Premio UNO - 14:05 hs."; "03 gamma"] ].

(** A page of the race 1 whose only candidate token is followed by the
    letter U+00D1, capital N with tilde. *)
Definition ejemplo_pagina_enie : list string :=
  [ unir_lineas ["1a - Premio UNO - 14:05 hs.";
                 "05 " ++ String "209"%char "ANDU"] ].

(** The loop of a repetition, as [Re.rmatch] runs it. *)
Definition bucle_estrella {A : Type} (greedy : bool) (r' : Re.regex)
    (k : Re.caps -> option ascii -> string -> option A)
  : nat -> Re.caps -> option ascii -> string -> option A :=
  fix loop (n : nat) (cs : Re.caps) (prev : option ascii) (s : string) : option A :=
    match n with
    | O => k cs prev s
    | S n' =>
        let once (_ : unit) :=
          Re.rmatch r' cs prev s
            (fun cs' prev' s' =>
               if (String.length s' <? String.length s)%nat
               then loop n' cs' prev' s' else None) in
        if greedy then
          match once tt with
          | Some x => Some x
          | None => k cs prev s
          end
        else
          match k cs prev s with
          | Some x => Some x
          | None => once tt
          end
    end.

(** ** Amounts that are neither negative nor NaN *)

Definition no_negativo (v : spec_float) : Prop :=
  match v with
  | S754_zero false | S754_infinity false | S754_finite false _ _ => True
  | _ => False
  end.

(** ** Agreement of two normalised structures *)

(** Two amounts of a common code that the comparison lets pass. *)
Definition valores_compatibles (valor_pdf valor_reporte : option spec_float) : Prop :=
  match valor_pdf, valor_reporte with
  | Some a, Some b => supera_tolerancia a b = false
  | None, None => True
  | _, _ => False
  end.

(** Two races that agree: same number of horses, same codes, and compatible
    amounts for every code other than GAN, SEG and TER. *)
Definition carreras_coinciden (p r : carrera) : Prop :=
  caballos p = caballos r
  /\ dom (apuestas p) = dom (apuestas r)
  /\ forall codigo, codigo ∈ dom (apuestas p) ->
       codigo ∉ apuestas_sin_comparar_valor ->
       valores_compatibles (valor_de (apuestas p) codigo) (valor_de (apuestas r) codigo).

(** The discrepancies about one race. *)
Definition diferencias_de (num_carrera : Z) (l : list diferencia) : list diferencia :=
  List.filter (fun d => bool_decide (carrera_de d = num_carrera)) l.

(** ** The raw observations of the document *)

Definition carrera_raw (a : apuesta_raw) : Z := a.1.1.1.
Definition cantidad_raw (a : apuesta_raw) : Z := a.1.1.2.
Definition codigo_raw (a : apuesta_raw) : string := a.1.2.
Definition valor_raw (a : apuesta_raw) : string := a.2.

(** ** What a pattern recognises *)

(** [reconoce r cs prev s cs' prev' s']: the pattern [r] recognises a prefix
    of [s], standing after [prev], and leaves [s'] after [prev'], the groups
    going from [cs] to [cs']. *)
Inductive reconoce : Re.regex -> Re.caps -> option ascii -> string ->
                     Re.caps -> option ascii -> string -> Prop :=
| reconoce_eps cs prev s : reconoce Re.Eps cs prev s cs prev s
| reconoce_chr p cs prev c s :
    p c = true -> reconoce (Re.Chr p) cs prev (String c s) cs (Some c) s
| reconoce_cat r1 r2 cs prev s cs1 prev1 s1 cs2 prev2 s2 :
    reconoce r1 cs prev s cs1 prev1 s1 ->
    reconoce r2 cs1 prev1 s1 cs2 prev2 s2 ->
    reconoce (Re.Cat r1 r2) cs prev s cs2 prev2 s2
| reconoce_alt_l r1 r2 cs prev s cs' prev' s' :
    reconoce r1 cs prev s cs' prev' s' ->
    reconoce (Re.Alt r1 r2) cs prev s cs' prev' s'
| reconoce_alt_r r1 r2 cs prev s cs' prev' s' :
    reconoce r2 cs prev s cs' prev' s' ->
    reconoce (Re.Alt r1 r2) cs prev s cs' prev' s'
| reconoce_star_fin g r cs prev s : reconoce (Re.Star g r) cs prev s cs prev s
| reconoce_star_paso g r cs prev s cs1 prev1 s1 cs2 prev2 s2 :
    reconoce r cs prev s cs1 prev1 s1 ->
    (String.length s1 < String.length s)%nat ->
    reconoce (Re.Star g r) cs1 prev1 s1 cs2 prev2 s2 ->
    reconoce (Re.Star g r) cs prev s cs2 prev2 s2
| reconoce_bol m cs prev s :
    Re.at_bol m prev = true -> reconoce (Re.Bol m) cs prev s cs prev s
| reconoce_wordb cs prev s :
    xorb (Re.word_before prev) (Re.word_after s) = true ->
    reconoce Re.Wordb cs prev s cs prev s
| reconoce_group i r cs prev s cs' prev' s' :
    reconoce r cs prev s cs' prev' s' ->
    reconoce (Re.Group i r) cs prev s
      ((i, Py.take (String.length s - String.length s') s) :: cs') prev' s'.

(** ** Names of the bets of the document *)

Module Str.

(** [s.split()]: the maximal runs of characters that are not white space. *)
Fixpoint split_ws (s : string) : list string :=
  match s with
  | EmptyString => []
  | String c s' =>
      if Py.isspace c then split_ws s'
      else
        match s' with
        | EmptyString => [String c EmptyString]
        | String c' _ =>
            if Py.isspace c' then String c EmptyString :: split_ws s'
            else
              match split_ws s' with
              | h :: t => String c h :: t
              | [] => [String c EmptyString]
              end
        end
  end.

(** [sep.join(l)] *)
Fixpoint join (sep : string) (l : list string) : string :=
  match l with
  | [] => EmptyString
  | [x] => x
  | x :: l' => Py.app x (Py.app sep (join sep l'))
  end.

(** [s.rstrip(a)] for one character [a]. *)
Fixpoint rstrip_char (a : ascii) (s : string) : string :=
  match s with
  | EmptyString => EmptyString
  | String c s' =>
      let r := rstrip_char a s' in
      if Ascii.eqb c a && Py.is_empty r then EmptyString else String c r
  end.

End Str.

Definition _MAPEO_ABREVIATURAS : gmap string string :=
  list_to_map
    [ ("ganador", "GAN"); ("segundo", "SEG"); ("tercero", "TER"); ("exacta", "EXA");
      ("trifecta", "TRI"); ("imperfecta", "IMP"); ("cuatrifecta", "CUA");
      ("doble", "DOB"); ("triplo", "TPL"); ("cuaterna", "QTN"); ("quintuplo", "QTP");
      ("cadena", "CAD") ].

Definition normalizar_nombre_apuesta (nombre : string) : string :=
  let nombre := Py.strip nombre in
  if Py.is_empty nombre then nombre
  else
    match Str.split_ws nombre with
    | [] => nombre
    | primera_palabra :: _ =>
        if Py.contains "pase" (Py.lower nombre)
           || bool_decide (is_Some (_MAPEO_ABREVIATURAS !! Py.lower primera_palabra))
        then primera_palabra
        else nombre
    end.

Definition abreviar_apuesta (nombre : string) : string :=
  let nombre := Py.strip nombre in
  if Py.is_empty nombre then nombre
  else default nombre (_MAPEO_ABREVIATURAS !! Py.lower nombre).

(** A text without white space. *)
Definition sin_espacios (s : string) : Prop :=
  Py.all_chars (fun c => negb (Py.isspace c)) s = true.


(** ** Extraction of the bets of the document *)

(** [(.+?)\s*\$\s*([\d.,]+)], [re.IGNORECASE] *)
Definition _PATRON_APUESTA_VALOR : Re.regex :=
  Re.cat
    [ Re.Group 1 (Re.plus_lazy (Re.Chr Re.not_newline)); Re.star Re.s; Re.lit "$";
      Re.star Re.s; Re.Group 2 (Re.plus (Re.Chr es_monto)) ].

(** The number of characters U+00DF of a text.  [str.upper] turns each of
    them into two characters. *)
Fixpoint cuenta_eszett (s : string) : nat :=
  match s with
  | EmptyString => 0%nat
  | String c s' => ((if (Py.cp c =? 223)%N then 1 else 0) + cuenta_eszett s')%nat
  end.

(** [lin.upper().index("APUESTAS:")] for a line that has the marker.  The
    index is taken in the upper-case form of the line, in which every U+00DF
    before the marker stands as two characters; no other character of the
    modelled range changes the length, and none becomes part of the marker. *)
Definition indice_apuestas (lin : string) : nat :=
  match Py.find "APUESTAS:" (Py.upper lin) with
  | Some idx => (idx + cuenta_eszett (Py.take idx lin))%nat
  | None => 0%nat
  end.

(** The loop that collects [bloque_apuestas]: the rest of the first line
    that has the marker, and the line after it. *)
Fixpoint bloque_apuestas (lineas : list string) : list string :=
  match lineas with
  | [] => []
  | lin :: resto =>
      if Py.contains "APUESTAS:" (Py.upper lin) then
        Py.strip (Py.drop (indice_apuestas lin + String.length "APUESTAS:") lin)
        :: match resto with
           | siguiente :: _ => [Py.strip siguiente]
           | [] => []
           end
      else bloque_apuestas resto
  end.

Definition texto_apuestas (texto : string) : string :=
  Str.join " " (bloque_apuestas (Py.split Py.nl texto)).

(** Body of the loop over the matches of [_PATRON_APUESTA_VALOR]. *)
Definition apuestas_de_match (num_carrera cantidad_caballos : Z) (m : Re.found)
  : list apuesta_raw :=
  let apuesta_bruta := Str.rstrip_char "," (Py.strip (Re.group_of 1 m)) in
  let valor := Py.strip (Re.group_of 2 m) in
  if Py.is_empty apuesta_bruta || Py.is_empty valor then []
  else if Py.contains "Ganador" apuesta_bruta then
    map (fun p =>
           (num_carrera, cantidad_caballos,
            abreviar_apuesta (normalizar_nombre_apuesta p), EmptyString))
      (List.filter (fun p => negb (Py.is_empty p))
         (map Py.strip (Py.split "," apuesta_bruta)))
  else
    let apuesta :=
      if Py.contains "," apuesta_bruta
      then Py.strip (List.last (Py.split "," apuesta_bruta) EmptyString)
      else apuesta_bruta in
    if es_apuesta_excluida apuesta then []
    else [(num_carrera, cantidad_caballos,
           abreviar_apuesta (normalizar_nombre_apuesta apuesta), valor)].

(** One turn of the loop over the pages. *)
Definition apuestas_pagina (caballos_por_carrera : gmap Z Z) (texto : string)
  : list apuesta_raw :=
  match Re.search _PATRON_CARRERA_PDF texto with
  | None => []
  | Some m_carrera =>
      let num_carrera := int_grupo 1 m_carrera in
      let cantidad_caballos := default 0 (caballos_por_carrera !! num_carrera) in
      let texto_apuestas := texto_apuestas texto in
      if Py.is_empty texto_apuestas then []
      else
        flat_map (apuestas_de_match num_carrera cantidad_caballos)
          (Re.finditer _PATRON_APUESTA_VALOR texto_apuestas)
  end.

Definition obtener_apuestas_por_carrera (paginas : list string) : list apuesta_raw :=
  let caballos_por_carrera := obtener_caballos_por_carrera paginas in
  flat_map (apuestas_pagina caballos_por_carrera) paginas.

(** [_normalizar_pdf] on the pages of the document. *)
Definition _normalizar_pdf (paginas : list string) : gmap Z carrera :=
  _normalizar_desde_lista_apuestas (obtener_apuestas_por_carrera paginas).

(** A page of a programme with its line of bets. *)
Definition ejemplo_pagina_apuestas : string :=
  unir_lineas
    [ "1a - Premio UNO - 14:05 hs.";
      "01 ALFA";
      "02 BETA";
      "APUESTAS: Ganador, Segundo, Tercero $ 2, Exacta $ 500,";
      "Cuaterna 2do.Pase, Cadena 1er.Pase $ 1.000" ].

(** The twelve codes that the report lines can carry. *)
Definition codigos_de_reporte : list string :=
  ["GAN"; "SEG"; "TER"; "EXA"; "TRI"; "IMP"; "DOB"; "TPL"; "QTN"; "QTP"; "CAD"; "CUA"].

(** The amounts of a pass over the RSM table are neither negative nor NaN,
    and their codes are those of the table. *)
Definition valores_validos (valores : gmap Z (gmap string spec_float)) : Prop :=
  forall n d codigo v,
    valores !! n = Some d -> d !! codigo = Some v ->
    no_negativo v /\ codigo ∈ codigos_rsm.

(** The groups that a pattern binds. *)
Fixpoint grupos (r : Re.regex) : list nat :=
  match r with
  | Re.Cat r1 r2 | Re.Alt r1 r2 => grupos r1 ++ grupos r2
  | Re.Star _ r' => grupos r'
  | Re.Group i r' => i :: grupos r'
  | _ => []
  end.

(** The nine codes that a description of the Palermo document can get. *)
Definition codigos_palermo : list string :=
  ["CUA"; "TRI"; "DOB"; "CAD"; "QTN"; "QTP"; "EXA"; "TPL"; "IMP"].

Definition valor_de_fila (f : fila) : spec_float := f.1.2.
Definition carreras_de_fila_palermo (f : fila) : list Z := f.2.

(** The dates of an extraction result hang together: no date is listed
    twice, every date that has bets is listed, the summaries are kept for
    the dates that have bets, and the insertion order lists those dates. *)
Definition fechas_coherentes (d : datos_palermo) : Prop :=
  NoDup (fechas d)
  /\ (forall f, f ∈ dom (apuestas_por_fecha d) -> f ∈ fechas d)
  /\ dom (resumen_por_fecha d) = dom (apuestas_por_fecha d)
  /\ NoDup (orden_fechas d)
  /\ (forall f, f ∈ orden_fechas d <-> f ∈ dom (apuestas_por_fecha d)).

(** Two races of the Palermo comparison that agree: same codes, and amounts
    within the tolerance. *)
Definition carreras_coinciden_palermo (p r : gmap string spec_float) : Prop :=
  dom p = dom r
  /\ forall codigo a b, p !! codigo = Some a -> r !! codigo = Some b ->
       supera_tolerancia a b = false.

(** ** Race headers per page *)

(** An element of the result of [obtener_carreras_por_pagina]. *)
Record pagina_carrera : Type := PaginaCarrera {
  pagina : Z;
  numero_carrera : option Z;
  nombre_carrera : option string
}.

(** Body of the loop over the pages; [pagina_actual] is 1-based. *)
Definition carrera_de_pagina (pagina_actual : Z) (texto : string) : pagina_carrera :=
  match Re.search _PATRON_CARRERA_PDF texto with
  | Some m =>
      PaginaCarrera pagina_actual (Some (int_grupo 1 m))
        (Some (Str.join " " (Str.split_ws (Py.strip (Re.group_of 2 m)))))
  | None => PaginaCarrera pagina_actual None None
  end.

Definition obtener_carreras_por_pagina (paginas : list string) : list pagina_carrera :=
  imap (fun num_pagina texto => carrera_de_pagina (Z.of_nat num_pagina + 1) texto)
    paginas.

(** ** Patterns and letter case *)

(** Every class of characters of the pattern [r] gives the same answer on
    [c] and on [f c]. *)
Fixpoint clases_invariantes (f : ascii -> ascii) (r : Re.regex) : Prop :=
  match r with
  | Re.Chr p => forall c, p (f c) = p c
  | Re.Cat r1 r2 | Re.Alt r1 r2 => clases_invariantes f r1 /\ clases_invariantes f r2
  | Re.Star _ r' | Re.Group _ r' => clases_invariantes f r'
  | _ => True
  end.

(** A change of characters that keeps the classes of words and of line
    breaks, such as a change of letter case. *)
Definition conserva_limites (f : ascii -> ascii) : Prop :=
  (forall c, Py.isword (f c) = Py.isword c)
  /\ (forall c, Ascii.eqb (f c) "010" = Ascii.eqb c "010").

(** Both runs succeed or both fail. *)
Definition mismo_exito {A B : Type} (x : option A) (y : option B) : Prop :=
  is_Some x <-> is_Some y.

(** ** The whole comparison, from the pages of the document *)

(** What a discrepancy of the comparison can carry. *)
Definition diferencia_plausible (d : diferencia) : Prop :=
  match d with
  | CaballosDifieren _ caballos_pdf caballos_reporte =>
      0 <= caballos_pdf <= 24 /\ 1 <= caballos_reporte
  | ValorDiferente _ codigo a b =>
      no_negativo a /\ no_negativo b /\ supera_tolerancia a b = true
      /\ codigo ∈ codigos_rsm
  | ValorSoloEnPdf _ codigo a =>
      no_negativo a /\ codigo ∉ apuestas_sin_comparar_valor
  | ValorSoloEnReporte _ codigo b => no_negativo b /\ codigo ∈ codigos_rsm
  | _ => True
  end.

(** An integer that is not negative, by its constructor. *)
Definition z_no_negativo (z : Z) : Prop :=
  match z with Zneg _ => False | _ => True end.

(** Inversion of the concatenations of a recognised pattern. *)
Ltac invertir_cat :=
  repeat match goal with
         | H : reconoce (Re.Cat _ _) _ _ _ _ _ _ |- _ => inversion H; subst; clear H
         end.

(** * Properties *)

(** ** Exclusion of later stages *)

Lemma hay_vacio_pase : hay _PATRON_EXCLUIR_PASE_SIN_FINAL "" = false.
Proof. vm_compute. reflexivity. Qed.

Lemma hay_vacio_final : hay _PATRON_FINAL "" = false.
Proof. vm_compute. reflexivity. Qed.

Lemma is_empty_true (s : string) : Py.is_empty s = true -> s = "".
Proof. destruct s; simpl; congruence. Qed.

(** C3, amended.  A name that does not begin with "doble" is excluded when it
    carries a marker of the second to fifth or of the last stage, and when it
    carries the word "final" without a first-stage qualifier.  A name whose
    trimmed lower-case form begins with "doble" is never excluded, and a name
    with both the word "final" and a first-stage qualifier is not excluded
    provided it carries no marker of a later stage.  A second-stage name is
    excluded, "Doble Plus" is not, "Final" alone is, "Final 1er.Pase" is
    not. *)
Theorem es_apuesta_excluida_reglas (nombre : string) :
  (Py.startswith "doble" (Py.lower (Py.strip nombre)) = true ->
   es_apuesta_excluida nombre = false)
  /\ (Py.startswith "doble" (Py.lower (Py.strip nombre)) = false ->
      hay _PATRON_EXCLUIR_PASE_SIN_FINAL nombre = true ->
      es_apuesta_excluida nombre = true)
  /\ (Py.startswith "doble" (Py.lower (Py.strip nombre)) = false ->
      hay _PATRON_FINAL nombre = true ->
      hay _PATRON_PRIMER_PASE nombre = false ->
      es_apuesta_excluida nombre = true)
  /\ (hay _PATRON_EXCLUIR_PASE_SIN_FINAL nombre = false ->
      hay _PATRON_FINAL nombre = true ->
      hay _PATRON_PRIMER_PASE nombre = true ->
      es_apuesta_excluida nombre = false)
  /\ es_apuesta_excluida "Cuaterna 2do.Pase" = true
  /\ es_apuesta_excluida "Doble Plus" = false
  /\ es_apuesta_excluida "Final" = true
  /\ es_apuesta_excluida "Cuaterna Final" = true
  /\ es_apuesta_excluida "Final 1er.Pase" = false
  /\ es_apuesta_excluida "Cuaterna Final 1er.Pase" = false.
Proof.
  repeat match goal with
         | |- _ /\ _ => split
         | |- es_apuesta_excluida (String _ _) = _ => vm_compute; reflexivity
         end;
    unfold es_apuesta_excluida;
    (destruct (Py.is_empty nombre) eqn:Hvacio;
     [ apply is_empty_true in Hvacio; subst nombre;
       rewrite ?hay_vacio_pase, ?hay_vacio_final; intros; congruence
     | intros;
       destruct (Py.startswith "doble" (Py.lower (Py.strip nombre)));
       destruct (hay _PATRON_EXCLUIR_PASE_SIN_FINAL nombre);
       destruct (hay _PATRON_FINAL nombre);
       destruct (hay _PATRON_PRIMER_PASE nombre);
       congruence ]).
Qed.

Lemma es_apuesta_excluida_reglas_witness :
  (Py.startswith "doble" (Py.lower (Py.strip " Doble Final Plus")) = true
   /\ es_apuesta_excluida " Doble Final Plus" = false)
  /\ (hay _PATRON_EXCLUIR_PASE_SIN_FINAL "Triplo 3er Pase" = true
      /\ es_apuesta_excluida "Triplo 3er Pase" = true)
  /\ (hay _PATRON_FINAL "Triplo Final" = true
      /\ hay _PATRON_PRIMER_PASE "Triplo Final" = false
      /\ es_apuesta_excluida "Triplo Final" = true)
  /\ (hay _PATRON_FINAL "Cuaterna Final 1re Pase" = true
      /\ hay _PATRON_PRIMER_PASE "Cuaterna Final 1re Pase" = true
      /\ es_apuesta_excluida "Cuaterna Final 1re Pase" = false).
Proof.
  split; [|split; [|split]].
  - split; [reflexivity|].
    apply (proj1 (es_apuesta_excluida_reglas " Doble Final Plus")). reflexivity.
  - split; [reflexivity|].
    apply (proj1 (proj2 (es_apuesta_excluida_reglas "Triplo 3er Pase")));
      reflexivity.
  - split; [reflexivity|split; [reflexivity|]].
    apply (proj1 (proj2 (proj2 (es_apuesta_excluida_reglas "Triplo Final"))));
      reflexivity.
  - split; [reflexivity|split; [reflexivity|]].
    apply (proj1 (proj2 (proj2 (proj2
             (es_apuesta_excluida_reglas "Cuaterna Final 1re Pase")))));
      reflexivity.
Defined.

(** C3 as stated fails.  A name may carry the word "final" and a
    first-stage qualifier and still be excluded, because the markers of the
    later stages are looked for first; and, read without the exception for
    "doble", the first rule fails on a name that begins with "doble" and
    carries a marker of a later stage. *)
Lemma es_apuesta_excluida_final_primer_pase_excluida :
  ~ (forall nombre : string,
        hay _PATRON_FINAL nombre = true ->
        hay _PATRON_PRIMER_PASE nombre = true ->
        es_apuesta_excluida nombre = false)
  /\ ~ (forall nombre : string,
          hay _PATRON_EXCLUIR_PASE_SIN_FINAL nombre = true ->
          es_apuesta_excluida nombre = true).
Proof.
  split; intros H.
  - specialize (H "Triplo Final 1er.Pase 2do.Pase" eq_refl eq_refl).
    vm_compute in H. discriminate H.
  - specialize (H "Doble 2do.Pase" eq_refl).
    vm_compute in H. discriminate H.
Qed.

(** ** Monetary token parser *)

Lemma all_chars_impl (p q : ascii -> bool) (s : string) :
  (forall c, p c = true -> q c = true) ->
  Py.all_chars p s = true -> Py.all_chars q s = true.
Proof.
  intros Hpq. induction s as [|c s IH]; simpl; [reflexivity|].
  rewrite !andb_true_iff. intros [Hc Hs]. auto.
Qed.

Lemma all_chars_app (p : ascii -> bool) (s t : string) :
  Py.all_chars p (Py.app s t) = Py.all_chars p s && Py.all_chars p t.
Proof.
  induction s as [|c s IH]; simpl; [reflexivity|].
  rewrite IH. apply andb_assoc.
Qed.

Lemma lstrip_id (s : string) :
  Py.all_chars (fun c => negb (Py.isspace c)) s = true -> Py.lstrip s = s.
Proof.
  destruct s as [|c s]; simpl; [reflexivity|].
  rewrite andb_true_iff. intros [Hc _].
  apply negb_true_iff in Hc. rewrite Hc. reflexivity.
Qed.

Lemma rstrip_id (s : string) :
  Py.all_chars (fun c => negb (Py.isspace c)) s = true -> Py.rstrip s = s.
Proof.
  induction s as [|c s IH]; simpl; [reflexivity|].
  rewrite andb_true_iff. intros [Hc Hs].
  apply negb_true_iff in Hc. rewrite Hc, (IH Hs). reflexivity.
Qed.

Lemma strip_id (s : string) :
  Py.all_chars (fun c => negb (Py.isspace c)) s = true -> Py.strip s = s.
Proof.
  intros H. unfold Py.strip. rewrite (lstrip_id s H). apply rstrip_id, H.
Qed.

Lemma break_none (p : ascii -> bool) (s : string) :
  Py.all_chars (fun c => negb (p c)) s = true -> Float.break p s = (s, "").
Proof.
  induction s as [|c s IH]; simpl; [reflexivity|].
  rewrite andb_true_iff. intros [Hc Hs].
  apply negb_true_iff in Hc. rewrite Hc, (IH Hs). reflexivity.
Qed.



Lemma digitpart_decimal (s : string) : forall acc n b,
  Py.all_chars Py.isdecimal s = true ->
  (b = true \/ s <> "") ->
  is_Some (Py.digitpart acc n b s).
Proof.
  induction s as [|c s IH]; simpl; intros acc n b Hall Hne.
  - destruct Hne as [-> | Hne]; [eexists; reflexivity | congruence].
  - apply andb_true_iff in Hall as [Hc Hs]. rewrite Hc.
    apply IH; auto.
Qed.

Lemma digitpart_valor (s : string) : forall acc n b,
  Py.all_chars Py.isdecimal s = true ->
  (b = true \/ s <> "") ->
  Py.digitpart acc n b s = Some (valor_desde acc s, (n + String.length s)%nat).
Proof.
  induction s as [|c s IH]; simpl; intros acc n b Hall Hne.
  - destruct Hne as [-> | Hne]; [|congruence]. rewrite Nat.add_0_r. reflexivity.
  - apply andb_true_iff in Hall as [Hc Hs]. rewrite Hc.
    rewrite IH by auto. f_equal. f_equal. lia.
Qed.


(** [int] on a non-empty run of decimal digits: the integer that the digits
    denote, unless there are more than 4300 of them. *)
Lemma int_decimales (s : string) :
  s <> "" -> Py.all_chars Py.isdecimal s = true ->
  Py.int s
  = if Py.max_str_digits <? Z.of_nat (String.length s) then None
    else Some (valor_decimal s).
Proof.
  intros Hne Hdec. unfold Py.int. rewrite strip_id.
  2:{ revert Hdec. apply all_chars_impl. intros x Hx. por_caracter x. }
  assert (Hsign : Py.strip_sign s = (false, s)).
  { destruct s as [|c t]; [congruence|].
    simpl in Hdec. apply andb_true_iff in Hdec as [Hc _].
    unfold Py.strip_sign. revert Hc. por_caracter c. }
  rewrite Hsign, (digitpart_valor s 0 0%nat false Hdec) by (right; exact Hne).
  reflexivity.
Qed.



Lemma digito_o_punto_hechos (c : ascii) :
  es_digito_o_punto c = true ->
  Py.isspace c = false /\ Float.is_exp_mark c = false
  /\ Ascii.eqb (Py.lower_char c) "i" = false
  /\ Ascii.eqb (Py.lower_char c) "n" = false
  /\ (es_de_numero c = true -> es_decimal_o_punto c = true)
  /\ match c with "-"%char | "+"%char => False | _ => True end.
Proof. por_caracter c. Qed.

(** On a non-empty text made of digits and periods, [float] reads a
    significand and nothing else. *)
Lemma float_digitos_y_puntos (c : ascii) (u : string) :
  Py.all_chars es_digito_o_punto (String c u) = true ->
  Float.float (String c u)
  = match Float.significand (String c u) with
    | Some (m, nfrac) => Some (Float.of_decimal false m (0 - Z.of_nat nfrac))
    | None => None
    end.
Proof.
  intros Hall. unfold Float.float.
  rewrite strip_id.
  2:{ revert Hall. apply all_chars_impl. intros x Hx.
      apply digito_o_punto_hechos in Hx as (-> & _). reflexivity. }
  assert (Hc : es_digito_o_punto c = true).
  { simpl in Hall. apply andb_true_iff in Hall as [Hc _]. exact Hc. }
  destruct (digito_o_punto_hechos c Hc) as (_ & _ & Hi & Hn & _ & Hsig).
  assert (Hsign : Py.strip_sign (String c u) = (false, String c u)).
  { unfold Py.strip_sign.
    destruct c as [[] [] [] [] [] [] [] []]; try reflexivity; destruct Hsig. }
  rewrite Hsign.
  assert (Hinf : forall t, String.eqb (Py.lower (String c u)) (String "i" t) = false).
  { intros t. simpl. rewrite Hi. reflexivity. }
  assert (Hnan : forall t, String.eqb (Py.lower (String c u)) (String "n" t) = false).
  { intros t. simpl. rewrite Hn. reflexivity. }
  rewrite !Hinf, Hnan. cbn [orb].
  rewrite break_none.
  2:{ revert Hall. apply all_chars_impl. intros x Hx.
      apply digito_o_punto_hechos in Hx as (_ & -> & _). reflexivity. }
  destruct (Float.significand (String c u)) as [[m k]|]; reflexivity.
Qed.

Lemma replace_punto_cons (c : ascii) (s : string) :
  Py.replace "." "" (String c s)
  = if Ascii.eqb "." c then Py.replace "." "" s
    else String c (Py.replace "." "" s).
Proof.
  unfold Py.replace. simpl. rewrite andb_true_r.
  destruct (Ascii.eqb "." c); reflexivity.
Qed.

Lemma replace_punto_all (q : ascii -> bool) (s : string) :
  Py.all_chars (fun c => q c || Float.is_point c) s = true ->
  Py.all_chars q (Py.replace "." "" s) = true.
Proof.
  induction s as [|c s IH]; [reflexivity|].
  cbn [Py.all_chars]. rewrite andb_true_iff. intros [Hc Hs].
  rewrite replace_punto_cons, (Ascii.eqb_sym "." c).
  unfold Float.is_point in Hc.
  destruct (Ascii.eqb c "."); [auto|].
  rewrite orb_false_r in Hc. cbn [Py.all_chars]. rewrite Hc. auto.
Qed.



Lemma split_sin_separador (sep : ascii) (s : string) :
  Py.contains (String sep "") s = false -> Py.split sep s = [s].
Proof.
  induction s as [|c s IH]; [reflexivity|].
  cbn [Py.contains Py.startswith Py.split].
  rewrite andb_true_r, (Ascii.eqb_sym sep c).
  destruct (Ascii.eqb c sep); [discriminate|].
  cbn [orb]. intros H. rewrite (IH H). reflexivity.
Qed.

Lemma split_length_2_contains (sep : ascii) (s : string) :
  length (Py.split sep s) = 2%nat -> Py.contains (String sep "") s = true.
Proof.
  intros H. destruct (Py.contains (String sep "") s) eqn:E; [reflexivity|].
  rewrite (split_sin_separador _ _ E) in H. discriminate H.
Qed.










(** ** Race-range expander *)

Lemma expandir_parte_segmento (carreras : list Z) (parte : string) :
  expandir_parte carreras parte = (carreras ++ segmento_spec parte)%list.
Proof.
  unfold expandir_parte, segmento_spec, rango_de.
  destruct (Py.strip parte) as [|c p] eqn:Hp.
  - simpl. rewrite app_nil_r. reflexivity.
  - cbn [Py.is_empty].
    destruct (Py.contains "-" (String c p)).
    + destruct (Py.split "-" (String c p)) as [|x [|y [|z l]]];
        rewrite ?app_nil_r; try reflexivity.
      destruct (Py.int (Py.strip x)); [|rewrite app_nil_r; reflexivity].
      destruct (Py.int (Py.strip y)); [reflexivity|rewrite app_nil_r; reflexivity].
    + destruct (Py.int (String c p)); [reflexivity|rewrite app_nil_r; reflexivity].
Qed.

Lemma fold_expandir_parte (partes : list string) (carreras : list Z) :
  fold_left expandir_parte partes carreras
  = (carreras ++ flat_map segmento_spec partes)%list.
Proof.
  revert carreras. induction partes as [|p l IH]; intros carreras; simpl.
  - rewrite app_nil_r. reflexivity.
  - rewrite IH, expandir_parte_segmento, <- app_assoc. reflexivity.
Qed.

Lemma upper_all_sin_espacios (race_map : string) :
  Py.upper race_map = "ALL" -> Py.strip race_map = race_map.
Proof.
  intros H. apply strip_id.
  destruct race_map as [|a [|b [|c [|d r]]]]; try discriminate H.
  simpl in H. injection H as Ha Hb Hc. simpl.
  assert (Hnsp : forall x y, Py.upper_char x = y ->
             (y = "A"%char \/ y = "L"%char) -> negb (Py.isspace x) = true).
  { intros x y <- Hy. revert Hy. por_caracter x. }
  rewrite (Hnsp a _ Ha), (Hnsp b _ Hb), (Hnsp c _ Hc); auto.
Qed.

Lemma contains_caracter (p : ascii -> bool) (c : ascii) (s : string) :
  Py.all_chars p s = true -> p c = false ->
  Py.contains (String c "") s = false.
Proof.
  intros Hall Hc. induction s as [|x s IH]; [reflexivity|].
  cbn [Py.all_chars] in Hall. apply andb_true_iff in Hall as [Hx Hs].
  cbn [Py.contains Py.startswith]. rewrite (IH Hs), orb_false_r.
  destruct (Ascii.eqb_spec c x) as [-> | _]; [congruence|reflexivity].
Qed.

(** C8.  The expander works on the trimmed, upper-cased expression [t].
    "ALL" gives 1..15; the caller that knows the real races of the report
    replaces that by the list of those races when it is not empty.  A comma
    list gives the concatenation of what its segments contribute, and an
    expression without commas gives the inclusive range when it is a
    two-part hyphen expression whose ends parse, provided that no range has
    more than [sys.maxsize] elements: the call raises [OverflowError]
    otherwise.  An expression without commas that is no such range gives its
    single number, else nothing.  A run of decimal digits parses to the
    number it denotes when it has at most 4300 digits and fails to parse
    when it has more.  "1-13" gives the 13 races 1..13 and "2,4,6-7,10"
    gives 2, 4, 6, 7, 10. *)
Theorem _expandir_race_map_reglas (race_map : string) :
  let t := Py.upper (Py.strip race_map) in
  (t = "ALL" ->
   _expandir_race_map race_map = [1; 2; 3; 4; 5; 6; 7; 8; 9; 10; 11; 12; 13; 14; 15]
   /\ _expandir_race_map_desborda race_map = false)
  /\ (forall reales : list Z, Py.upper race_map = "ALL" -> reales <> [] ->
      carreras_de_fila reales race_map = reales)
  /\ (Py.upper race_map = "ALL" ->
      carreras_de_fila [] race_map
      = [1; 2; 3; 4; 5; 6; 7; 8; 9; 10; 11; 12; 13; 14; 15])
  /\ (t <> "ALL" -> Py.contains "," t = true ->
      _expandir_race_map_desborda race_map = false ->
      _expandir_race_map race_map = flat_map segmento_spec (Py.split "," t))
  /\ (forall p x y a b, t <> "ALL" -> Py.contains "," t = true ->
      p ∈ Py.split "," t -> Py.split "-" (Py.strip p) = [x; y] ->
      Py.int (Py.strip x) = Some a -> Py.int (Py.strip y) = Some b ->
      Py.maxsize < b + 1 - a ->
      _expandir_race_map_desborda race_map = true)
  /\ (forall x y a b, t <> "ALL" -> Py.contains "," t = false ->
      Py.contains "-" t = true -> Py.split "-" t = [x; y] ->
      Py.int (Py.strip x) = Some a -> Py.int (Py.strip y) = Some b ->
      b + 1 - a <= Py.maxsize ->
      _expandir_race_map race_map = Py.range a (b + 1)
      /\ _expandir_race_map_desborda race_map = false)
  /\ (forall x y a b, t <> "ALL" -> Py.contains "," t = false ->
      Py.contains "-" t = true -> Py.split "-" t = [x; y] ->
      Py.int (Py.strip x) = Some a -> Py.int (Py.strip y) = Some b ->
      Py.maxsize < b + 1 - a ->
      _expandir_race_map_desborda race_map = true)
  /\ (forall n, t <> "ALL" -> Py.contains "," t = false ->
      (Py.contains "-" t = false \/
       (forall x y, Py.split "-" t = [x; y] ->
                    Py.int (Py.strip x) = None \/ Py.int (Py.strip y) = None)) ->
      Py.int t = Some n ->
      _expandir_race_map race_map = [n]
      /\ _expandir_race_map_desborda race_map = false)
  /\ (t <> "ALL" -> Py.contains "," t = false ->
      (Py.contains "-" t = false \/
       (forall x y, Py.split "-" t = [x; y] ->
                    Py.int (Py.strip x) = None \/ Py.int (Py.strip y) = None)) ->
      Py.int t = None ->
      _expandir_race_map race_map = []
      /\ _expandir_race_map_desborda race_map = false)
  /\ (t <> "" -> Py.all_chars Py.isdecimal t = true ->
      Z.of_nat (String.length t) <= 4300 ->
      _expandir_race_map race_map = [valor_decimal t])
  /\ (Py.all_chars Py.isdecimal t = true ->
      4300 < Z.of_nat (String.length t) ->
      _expandir_race_map race_map = [])
  /\ _expandir_race_map "1-13" = [1; 2; 3; 4; 5; 6; 7; 8; 9; 10; 11; 12; 13]
  /\ _expandir_race_map "2,4,6-7,10" = [2; 4; 6; 7; 10]
  /\ carreras_de_fila [1; 2; 3] "ALL" = [1; 2; 3].
Proof.
  intros t.
  assert (Hno : t <> "ALL" -> String.eqb t "ALL" = false).
  { intros H. apply String.eqb_neq. exact H. }
  assert (Hbare : forall r, t <> "ALL" -> Py.contains "," t = false ->
            (if Py.contains "-" t then
               match Py.split "-" t with
               | [izq; der] => rango_de izq der
               | _ => None
               end
             else None) = r ->
            _expandir_race_map race_map
            = match r with
              | Some l => l
              | None => match Py.int t with Some n => [n] | None => [] end
              end).
  { intros r Ht Hc <-. unfold _expandir_race_map. fold t.
    rewrite (Hno Ht), Hc. reflexivity. }
  assert (Hdes : t <> "ALL" -> Py.contains "," t = false ->
            _expandir_race_map_desborda race_map
            = Py.contains "-" t
              && match Py.split "-" t with
                 | [izq; der] => rango_desborda izq der
                 | _ => false
                 end).
  { intros Ht Hc. unfold _expandir_race_map_desborda. fold t.
    rewrite (Hno Ht), Hc. reflexivity. }
  assert (Hfail : t <> "ALL" -> Py.contains "," t = false ->
            (Py.contains "-" t = false \/
             (forall x y, Py.split "-" t = [x; y] ->
                          Py.int (Py.strip x) = None \/ Py.int (Py.strip y) = None)) ->
            _expandir_race_map race_map
            = match Py.int t with Some n => [n] | None => [] end
            /\ _expandir_race_map_desborda race_map = false).
  { intros Ht Hc Hr. split.
    - rewrite (Hbare None Ht Hc); [reflexivity|].
      destruct Hr as [-> | Hr]; [reflexivity|].
      destruct (Py.contains "-" t); [|reflexivity].
      destruct (Py.split "-" t) as [|x [|y [|z l]]]; try reflexivity.
      unfold rango_de.
      destruct (Hr x y eq_refl) as [-> | Hy]; [reflexivity|].
      rewrite Hy. destruct (Py.int (Py.strip x)); reflexivity.
    - rewrite (Hdes Ht Hc).
      destruct Hr as [-> | Hr]; [reflexivity|].
      destruct (Py.contains "-" t); [|reflexivity].
      destruct (Py.split "-" t) as [|x [|y [|z l]]]; try reflexivity.
      unfold rango_desborda.
      destruct (Hr x y eq_refl) as [-> | Hy]; [reflexivity|].
      rewrite Hy. destruct (Py.int (Py.strip x)); reflexivity. }
  assert (Hdigitos : Py.all_chars Py.isdecimal t = true -> t <> "" ->
            _expandir_race_map race_map
            = match Py.int t with Some n => [n] | None => [] end).
  { intros Hdec Hne.
    assert (Ht : t <> "ALL").
    { intros Heq. rewrite Heq in Hdec. discriminate Hdec. }
    apply Hfail; [exact Ht| |left].
    - apply (contains_caracter Py.isdecimal); [exact Hdec|reflexivity].
    - apply (contains_caracter Py.isdecimal); [exact Hdec|reflexivity]. }
  repeat match goal with
         | |- _ /\ _ => split
         | |- _expandir_race_map (String _ _) = _ => vm_compute; reflexivity
         | |- carreras_de_fila (_ :: _) (String _ _) = _ => vm_compute; reflexivity
         end.
  - intros Ht. unfold _expandir_race_map, _expandir_race_map_desborda. fold t.
    rewrite Ht. split; reflexivity.
  - intros reales Hu Hr. unfold carreras_de_fila. rewrite Hu.
    destruct reales; [congruence|reflexivity].
  - intros Hu. unfold carreras_de_fila, _expandir_race_map.
    rewrite (upper_all_sin_espacios _ Hu), Hu. reflexivity.
  - intros Ht Hc _. unfold _expandir_race_map. fold t.
    rewrite (Hno Ht), Hc. apply fold_expandir_parte.
  - intros p x y a b Ht Hc Hp Hs Ha Hb Hlen.
    unfold _expandir_race_map_desborda. fold t. rewrite (Hno Ht), Hc.
    apply existsb_exists. exists p. split; [apply list_elem_of_In, Hp|].
    unfold parte_desborda. rewrite Hs. unfold rango_desborda. rewrite Ha, Hb.
    assert (Hne : Py.is_empty (Py.strip p) = false).
    { destruct (Py.strip p); [discriminate Hs|reflexivity]. }
    assert (Hh : Py.contains "-" (Py.strip p) = true).
    { apply (split_length_2_contains "-"). rewrite Hs. reflexivity. }
    rewrite Hne, Hh. cbn [negb andb]. apply Z.ltb_lt, Hlen.
  - intros x y a b Ht Hc Hh Hs Ha Hb Hlen. split.
    + rewrite (Hbare (Some (Py.range a (b + 1))) Ht Hc); [reflexivity|].
      rewrite Hh, Hs. unfold rango_de. rewrite Ha, Hb. reflexivity.
    + rewrite (Hdes Ht Hc), Hh, Hs. unfold rango_desborda. rewrite Ha, Hb.
      apply Z.ltb_ge, Hlen.
  - intros x y a b Ht Hc Hh Hs Ha Hb Hlen.
    rewrite (Hdes Ht Hc), Hh, Hs. unfold rango_desborda. rewrite Ha, Hb.
    apply Z.ltb_lt, Hlen.
  - intros n Ht Hc Hr Hn. destruct (Hfail Ht Hc Hr) as [H1 H2].
    rewrite H1, Hn. auto.
  - intros Ht Hc Hr Hn. destruct (Hfail Ht Hc Hr) as [H1 H2].
    rewrite H1, Hn. auto.
  - intros Hne Hdec Hlen. rewrite (Hdigitos Hdec Hne), (int_decimales t Hne Hdec).
    unfold Py.max_str_digits.
    destruct (Z.ltb_spec 4300 (Z.of_nat (String.length t))); [lia|reflexivity].
  - intros Hdec Hlen.
    assert (Hne : t <> "") by (intros Heq; rewrite Heq in Hlen; simpl in Hlen; lia).
    rewrite (Hdigitos Hdec Hne), (int_decimales t Hne Hdec).
    unfold Py.max_str_digits.
    destruct (Z.ltb_spec 4300 (Z.of_nat (String.length t))); [reflexivity|lia].
Qed.

Lemma _expandir_race_map_reglas_witness :
  (_expandir_race_map " all " = [1; 2; 3; 4; 5; 6; 7; 8; 9; 10; 11; 12; 13; 14; 15]
   /\ _expandir_race_map_desborda " all " = false)
  /\ carreras_de_fila [1; 2] "All" = [1; 2]
  /\ carreras_de_fila [] "all" = [1; 2; 3; 4; 5; 6; 7; 8; 9; 10; 11; 12; 13; 14; 15]
  /\ _expandir_race_map "1, x, 3-4" = flat_map segmento_spec (Py.split "," "1, X, 3-4")
  /\ _expandir_race_map_desborda "2, 1-9223372036854775808" = true
  /\ (_expandir_race_map "3-5" = Py.range 3 (5 + 1)
      /\ _expandir_race_map_desborda "3-5" = false)
  /\ _expandir_race_map_desborda "0-9223372036854775807" = true
  /\ (_expandir_race_map "-5" = [-5] /\ _expandir_race_map_desborda "-5" = false)
  /\ (_expandir_race_map "5-" = [] /\ _expandir_race_map_desborda "5-" = false)
  /\ _expandir_race_map " 007 " = [valor_decimal "007"].
Proof.
  pose proof (fun r => proj1 (_expandir_race_map_reglas r)) as H1.
  pose proof (fun r => proj1 (proj2 (_expandir_race_map_reglas r))) as H2.
  pose proof (fun r => proj1 (proj2 (proj2 (_expandir_race_map_reglas r)))) as H3.
  pose proof (fun r => proj1 (proj2 (proj2 (proj2 (_expandir_race_map_reglas r)))))
    as H4.
  pose proof (fun r => proj1 (proj2 (proj2 (proj2 (proj2
                (_expandir_race_map_reglas r)))))) as H5.
  pose proof (fun r => proj1 (proj2 (proj2 (proj2 (proj2 (proj2
                (_expandir_race_map_reglas r))))))) as H6.
  pose proof (fun r => proj1 (proj2 (proj2 (proj2 (proj2 (proj2 (proj2
                (_expandir_race_map_reglas r)))))))) as H7.
  pose proof (fun r => proj1 (proj2 (proj2 (proj2 (proj2 (proj2 (proj2 (proj2
                (_expandir_race_map_reglas r))))))))) as H8.
  pose proof (fun r => proj1 (proj2 (proj2 (proj2 (proj2 (proj2 (proj2 (proj2 (proj2
                (_expandir_race_map_reglas r)))))))))) as H9.
  pose proof (fun r => proj1 (proj2 (proj2 (proj2 (proj2 (proj2 (proj2 (proj2 (proj2
                (proj2 (_expandir_race_map_reglas r))))))))))) as H10.
  split; [|split; [|split; [|split; [|split; [|split; [|split; [|split; [|split]]]]]]]].
  - apply (H1 " all "). reflexivity.
  - apply (H2 "All"); [reflexivity|discriminate].
  - apply (H3 "all"). reflexivity.
  - apply (H4 "1, x, 3-4"); [discriminate|reflexivity|vm_compute; reflexivity].
  - apply (H5 "2, 1-9223372036854775808" " 1-9223372036854775808" "1"
             "9223372036854775808" 1 9223372036854775808);
      [discriminate|reflexivity| |reflexivity|reflexivity|reflexivity|reflexivity].
    apply list_elem_of_In. vm_compute. right. left. reflexivity.
  - apply (H6 "3-5" "3" "5" 3 5); [discriminate|reflexivity..|discriminate].
  - apply (H7 "0-9223372036854775807" "0" "9223372036854775807" 0 9223372036854775807);
      [discriminate|reflexivity..].
  - apply (H8 "-5" (-5)); [discriminate|reflexivity| |reflexivity].
    right. intros x y H. injection H as <- <-. left. reflexivity.
  - apply (H9 "5-"); [discriminate|reflexivity| |reflexivity].
    right. intros x y H. injection H as <- <-. right. reflexivity.
  - apply (H10 " 007 "); [discriminate|reflexivity|vm_compute; discriminate].
Defined.

(** The claim read without the bound on the ranges: the segment "X-Y" of
    the expression below would contribute the 2^63 races 1..2^63, and the
    call raises instead; so does the comma list that holds that segment. *)
Lemma _expandir_race_map_rango_desborda :
  _expandir_race_map_desborda "1-9223372036854775808" = true
  /\ _expandir_race_map_desborda "2, 1-9223372036854775808" = true.
Proof. vm_compute. split; reflexivity. Qed.

(** ** Reconciliation of the document against the report *)

Lemma elem_of_flat_map {A B : Type} (f : A -> list B) (l : list A) (y : B) :
  y ∈ flat_map f l <-> exists x, x ∈ l /\ y ∈ f x.
Proof.
  rewrite list_elem_of_In, in_flat_map.
  split; intros (x & Hx & Hy); exists x.
  - rewrite !list_elem_of_In. auto.
  - rewrite <- !list_elem_of_In. auto.
Qed.

Lemma flat_map_nil {A B : Type} (f : A -> list B) (l : list A) :
  (forall x, x ∈ l -> f x = []) -> flat_map f l = [].
Proof.
  induction l as [|x l IH]; intros H; simpl; [reflexivity|].
  rewrite (H x), IH; [reflexivity| |left].
  intros y Hy. apply H. right. exact Hy.
Qed.

Lemma elem_of_sorted (l : list Z) (n : Z) : n ∈ sorted l <-> n ∈ l.
Proof. unfold sorted. rewrite merge_sort_Permutation. reflexivity. Qed.

Lemma comparar_valor_de (n : Z) (c : string) (vp vr : option spec_float)
    (d : diferencia) :
  d ∈ comparar_valor n c vp vr -> carrera_de d = n /\ codigo_de d = Some c.
Proof.
  unfold comparar_valor.
  destruct (bool_decide (c ∈ apuestas_sin_comparar_valor)).
  - intros H. inversion H.
  - destruct vp as [a|], vr as [b|]; try destruct (supera_tolerancia a b);
      intros H; repeat (apply elem_of_cons in H as [-> | H]); try (inversion H);
      split; reflexivity.
Qed.

Lemma comparar_carrera_de (datos_pdf datos_reporte : gmap Z carrera) (n : Z)
    (d : diferencia) :
  d ∈ comparar_carrera datos_pdf datos_reporte n -> carrera_de d = n.
Proof.
  unfold comparar_carrera.
  destruct (datos_pdf !! n) as [p|], (datos_reporte !! n) as [r|];
    try (intros H; apply list_elem_of_singleton in H; subst d; reflexivity).
  rewrite !elem_of_app.
  intros [H | [H | [H | H]]].
  - destruct (bool_decide _); [inversion H|].
    apply list_elem_of_singleton in H. subst d. reflexivity.
  - destruct (bool_decide _); [inversion H|].
    apply list_elem_of_singleton in H. subst d. reflexivity.
  - destruct (bool_decide _); [inversion H|].
    apply list_elem_of_singleton in H. subst d. reflexivity.
  - apply elem_of_flat_map in H as (c & _ & H).
    apply comparar_valor_de in H as [H _]. exact H.
Qed.

(** A discrepancy about the amount of a code of a race present on both
    sides comes from the comparison of that code. *)
Lemma diferencia_de_valor_origen (datos_pdf datos_reporte : gmap Z carrera)
    (num : Z) (p r : carrera) (codigo : string) (vp vr : option spec_float)
    (d : diferencia) :
  datos_pdf !! num = Some p -> datos_reporte !! num = Some r ->
  apuestas p !! codigo = Some vp -> apuestas r !! codigo = Some vr ->
  carrera_de d = num -> codigo_de d = Some codigo ->
  d ∈ (comparar_datos datos_pdf datos_reporte).2
  <-> d ∈ comparar_valor num codigo vp vr.
Proof.
  intros Hp Hr Hvp Hvr Hnum Hcod. unfold comparar_datos. cbn [snd].
  rewrite elem_of_flat_map. split.
  - intros (n & Hn & Hd).
    pose proof (comparar_carrera_de _ _ _ _ Hd) as Hcar.
    rewrite Hnum in Hcar. subst n.
    unfold comparar_carrera in Hd. rewrite Hp, Hr in Hd.
    rewrite !elem_of_app in Hd.
    destruct Hd as [Hd | [Hd | [Hd | Hd]]].
    + destruct (bool_decide _); [inversion Hd|].
      apply list_elem_of_singleton in Hd. subst d. discriminate Hcod.
    + destruct (bool_decide _); [inversion Hd|].
      apply list_elem_of_singleton in Hd. subst d. discriminate Hcod.
    + destruct (bool_decide _); [inversion Hd|].
      apply list_elem_of_singleton in Hd. subst d. discriminate Hcod.
    + apply elem_of_flat_map in Hd as (c & _ & Hd).
      pose proof (comparar_valor_de _ _ _ _ _ Hd) as [_ Hc].
      rewrite Hcod in Hc. injection Hc as <-.
      unfold valor_de in Hd. rewrite Hvp, Hvr in Hd. exact Hd.
  - intros Hd. exists num. split.
    + apply elem_of_sorted, elem_of_elements, elem_of_union. left.
      apply elem_of_dom. eauto.
    + unfold comparar_carrera. rewrite Hp, Hr.
      rewrite !elem_of_app. right. right. right.
      apply elem_of_flat_map. exists codigo. split.
      * apply elem_of_elements, elem_of_intersection.
        split; apply elem_of_dom; eauto.
      * unfold valor_de. rewrite Hvp, Hvr. exact Hd.
Qed.

(** C1.  For a race present on both sides and a code present on both sides
    of it: for GAN, SEG and TER no discrepancy about the amount is ever
    emitted; for any other code, the value mismatch is emitted exactly when
    both amounts are known and [abs(a - b) > 0.01], the one-sided
    discrepancies exactly when one amount is known and the other is not, and
    nothing about the amount when both are unknown; the verdict is true
    exactly when the list of discrepancies is empty. *)
Theorem comparar_datos_valores (datos_pdf datos_reporte : gmap Z carrera)
    (num : Z) (p r : carrera) (codigo : string) (vp vr : option spec_float) :
  datos_pdf !! num = Some p -> datos_reporte !! num = Some r ->
  apuestas p !! codigo = Some vp -> apuestas r !! codigo = Some vr ->
  let diferencias := (comparar_datos datos_pdf datos_reporte).2 in
  (codigo ∈ ["GAN"; "SEG"; "TER"] ->
   forall d, carrera_de d = num -> codigo_de d = Some codigo -> d ∉ diferencias)
  /\ (codigo ∉ ["GAN"; "SEG"; "TER"] ->
      (forall a b, ValorDiferente num codigo a b ∈ diferencias
                   <-> vp = Some a /\ vr = Some b /\ supera_tolerancia a b = true)
      /\ (forall a, ValorSoloEnPdf num codigo a ∈ diferencias
                    <-> vp = Some a /\ vr = None)
      /\ (forall b, ValorSoloEnReporte num codigo b ∈ diferencias
                    <-> vp = None /\ vr = Some b)
      /\ (vp = None -> vr = None ->
          forall d, carrera_de d = num -> codigo_de d = Some codigo ->
                    d ∉ diferencias))
  /\ ((comparar_datos datos_pdf datos_reporte).1 = true <-> diferencias = []).
Proof.
  intros Hp Hr Hvp Hvr diferencias.
  assert (Hval : forall d, carrera_de d = num -> codigo_de d = Some codigo ->
            d ∈ diferencias <-> d ∈ comparar_valor num codigo vp vr).
  { intros d Hn Hc. apply (diferencia_de_valor_origen _ _ _ p r); assumption. }
  split; [|split].
  - intros Hin d Hn Hc. rewrite (Hval d Hn Hc).
    unfold comparar_valor, apuestas_sin_comparar_valor.
    rewrite bool_decide_eq_true_2 by exact Hin. intros H. inversion H.
  - intros Hnot.
    assert (Hcv : comparar_valor num codigo vp vr
                  = match vp, vr with
                    | Some a, Some b =>
                        if supera_tolerancia a b
                        then [ValorDiferente num codigo a b] else []
                    | Some a, None => [ValorSoloEnPdf num codigo a]
                    | None, Some b => [ValorSoloEnReporte num codigo b]
                    | None, None => []
                    end).
    { unfold comparar_valor, apuestas_sin_comparar_valor.
      rewrite bool_decide_eq_false_2 by exact Hnot. reflexivity. }
    assert (Hsolo : forall (x y : diferencia), x ∈ [y] -> x = y).
    { intros x y H. apply list_elem_of_singleton in H. exact H. }
    split; [|split; [|split]].
    + intros a b.
      rewrite (Hval (ValorDiferente num codigo a b) eq_refl eq_refl), Hcv. split.
      * destruct vp as [a'|], vr as [b'|];
          try destruct (supera_tolerancia a' b') eqn:Hs;
          intros H; try (inversion H; fail);
          apply Hsolo in H; try discriminate H.
        injection H as <- <-. auto.
      * intros (-> & -> & ->). left.
    + intros a.
      rewrite (Hval (ValorSoloEnPdf num codigo a) eq_refl eq_refl), Hcv. split.
      * destruct vp as [a'|], vr as [b'|];
          try destruct (supera_tolerancia a' b') eqn:Hs;
          intros H; try (inversion H; fail);
          apply Hsolo in H; try discriminate H.
        injection H as <-. auto.
      * intros (-> & ->). left.
    + intros b.
      rewrite (Hval (ValorSoloEnReporte num codigo b) eq_refl eq_refl), Hcv. split.
      * destruct vp as [a'|], vr as [b'|];
          try destruct (supera_tolerancia a' b') eqn:Hs;
          intros H; try (inversion H; fail);
          apply Hsolo in H; try discriminate H.
        injection H as <-. auto.
      * intros (-> & ->). left.
    + intros -> -> d Hn Hc. rewrite (Hval d Hn Hc), Hcv. intros H. inversion H.
  - unfold comparar_datos. cbn [fst]. fold diferencias.
    rewrite bool_decide_eq_true. apply length_zero_iff_nil.
Qed.

Lemma comparar_datos_valores_witness :
  (forall d, carrera_de d = 1 -> codigo_de d = Some "GAN" ->
             d ∉ (comparar_datos ejemplo_pdf ejemplo_reporte).2)
  /\ ValorDiferente 1 "IMP" (Float.of_decimal false 1000 0)
       (Float.of_decimal false 10005 (-1))
     ∈ (comparar_datos ejemplo_pdf ejemplo_reporte).2
  /\ ValorSoloEnPdf 1 "EXA" (Float.of_decimal false 500 0)
     ∈ (comparar_datos ejemplo_pdf ejemplo_reporte).2
  /\ (forall d, carrera_de d = 1 -> codigo_de d = Some "TRI" ->
                d ∉ (comparar_datos ejemplo_pdf ejemplo_reporte).2).
Proof.
  assert (Hp : ejemplo_pdf !! 1 = Some ejemplo_carrera_pdf)
    by (vm_compute; reflexivity).
  assert (Hr : ejemplo_reporte !! 1 = Some ejemplo_carrera_reporte)
    by (vm_compute; reflexivity).
  split; [|split; [|split]].
  - apply (proj1 (comparar_datos_valores ejemplo_pdf ejemplo_reporte 1
                    ejemplo_carrera_pdf ejemplo_carrera_reporte "GAN"
                    None (Some (Float.of_decimal false 2 0)) Hp Hr
                    ltac:(vm_compute; reflexivity) ltac:(vm_compute; reflexivity))).
    apply (bool_decide_unpack _). vm_compute. exact I.
  - apply (proj1 (proj2 (comparar_datos_valores ejemplo_pdf ejemplo_reporte 1
                    ejemplo_carrera_pdf ejemplo_carrera_reporte "IMP"
                    (Some (Float.of_decimal false 1000 0))
                    (Some (Float.of_decimal false 10005 (-1))) Hp Hr
                    ltac:(vm_compute; reflexivity) ltac:(vm_compute; reflexivity)))).
    + apply (bool_decide_unpack _). vm_compute. exact I.
    + split; [reflexivity|split; [reflexivity|vm_compute; reflexivity]].
  - apply (proj1 (proj2 (comparar_datos_valores ejemplo_pdf ejemplo_reporte 1
                    ejemplo_carrera_pdf ejemplo_carrera_reporte "EXA"
                    (Some (Float.of_decimal false 500 0)) None Hp Hr
                    ltac:(vm_compute; reflexivity) ltac:(vm_compute; reflexivity)))).
    + apply (bool_decide_unpack _). vm_compute. exact I.
    + split; reflexivity.
  - apply (proj1 (proj2 (comparar_datos_valores ejemplo_pdf ejemplo_reporte 1
                    ejemplo_carrera_pdf ejemplo_carrera_reporte "TRI"
                    None None Hp Hr
                    ltac:(vm_compute; reflexivity) ltac:(vm_compute; reflexivity))));
      [|reflexivity..].
    apply (bool_decide_unpack _). vm_compute. exact I.
Defined.

(** The tolerance is the binary64 value that [float] reads from "0.01". *)
Lemma tolerancia_literal : Float.float "0.01" = Some tolerancia.
Proof. vm_compute. reflexivity. Qed.

(** Subtracting a binary64 value from itself gives zero or NaN, never more
    than the tolerance. *)
Lemma supera_tolerancia_refl (a : spec_float) : supera_tolerancia a a = false.
Proof.
  unfold supera_tolerancia, Float.sub, Float.abs, Float.ltb.
  destruct a as [s | s | | s m e]; try reflexivity; try (destruct s; reflexivity).
  unfold SFsub. cbv zeta.
  match goal with
  | |- context [binary_normalize _ _ ?z _ _] => assert (Hz : z = 0)
  end.
  { apply Z.sub_diag. }
  rewrite Hz. reflexivity.
Qed.

Lemma comparar_carrera_mismo (datos : gmap Z carrera) (n : Z) :
  n ∈ dom datos -> comparar_carrera datos datos n = [].
Proof.
  intros Hn. apply elem_of_dom in Hn as [p Hp].
  unfold comparar_carrera. rewrite Hp.
  rewrite (bool_decide_eq_true_2 (caballos p = caballos p)) by reflexivity.
  rewrite difference_diag_L.
  rewrite (bool_decide_eq_true_2 (∅ = ∅)) by reflexivity.
  cbn [List.app]. apply flat_map_nil. intros c _.
  unfold comparar_valor.
  destruct (bool_decide (c ∈ apuestas_sin_comparar_valor)); [reflexivity|].
  destruct (valor_de (apuestas p) c) as [a|]; [|reflexivity].
  rewrite supera_tolerancia_refl. reflexivity.
Qed.

(** C9.  Comparing a normalised structure with itself gives the verdict
    true and no discrepancy. *)
Theorem comparar_datos_mismo (datos : gmap Z carrera) :
  comparar_datos datos datos = (true, []).
Proof.
  unfold comparar_datos.
  rewrite flat_map_nil; [reflexivity|].
  intros n Hn. apply comparar_carrera_mismo.
  apply elem_of_sorted, elem_of_elements in Hn.
  apply elem_of_union in Hn as [Hn | Hn]; exact Hn.
Qed.

(** ** Normaliser of the configuration report *)

Lemma lookup_dict_de_conjunto {V : Type} (f : Z -> V) (X : gset Z) (k : Z) :
  dict_de_conjunto f X !! k = if decide (k ∈ X) then Some (f k) else None.
Proof.
  unfold dict_de_conjunto. rewrite map_lookup_imap, lookup_gset_to_gmap.
  destruct (decide (k ∈ X)).
  - rewrite option_guard_True by assumption. reflexivity.
  - rewrite option_guard_False by assumption. reflexivity.
Qed.

Lemma lookup_dict_de_codigos {V : Type} (f : string -> V) (X : gset string)
    (k : string) :
  dict_de_codigos f X !! k = if decide (k ∈ X) then Some (f k) else None.
Proof.
  unfold dict_de_codigos. rewrite map_lookup_imap, lookup_gset_to_gmap.
  destruct (decide (k ∈ X)).
  - rewrite option_guard_True by assumption. reflexivity.
  - rewrite option_guard_False by assumption. reflexivity.
Qed.

Lemma dom_dict_de_codigos {V : Type} (f : string -> V) (X : gset string) :
  dom (dict_de_codigos f X) = X.
Proof.
  apply set_eq. intros k. rewrite elem_of_dom, lookup_dict_de_codigos.
  destruct (decide (k ∈ X)); split; intros H;
    first [done | by eexists | by destruct H].
Qed.

Lemma lookup_agregar_codigos (num k : Z) (codigos : list string)
    (m : gmap Z (gset string)) :
  default ∅ (agregar_codigos num codigos m !! k)
  = if decide (num = k) then default ∅ (m !! k) ∪ list_to_set codigos
    else default ∅ (m !! k).
Proof.
  unfold agregar_codigos. rewrite lookup_insert.
  destruct (decide (num = k)) as [->|]; reflexivity.
Qed.

(** The set that the availability pass holds for a race is the union of the
    codes of its race lines. *)
Lemma leer_lineas_carrera_codigos (num : Z) (lineas : list string) :
  forall st,
    default ∅ (apuestas_por_carrera (leer_lineas_carrera st lineas) !! num)
    = default ∅ (apuestas_por_carrera st !! num) ∪ codigos_disponibles num lineas.
Proof.
  induction lineas as [|linea sig IH]; intros st; simpl.
  - set_solver.
  - rewrite IH. unfold leer_linea_carrera.
    destruct (Re.match_ patron_carrera linea) as [m|]; [|set_solver].
    cbn [apuestas_por_carrera]. rewrite !lookup_agregar_codigos.
    unfold codigos_de_linea_carrera.
    destruct (decide (int_grupo 1 m = num)) as [Heq|Hne].
    + rewrite (bool_decide_eq_true_2 _ Heq). set_solver.
    + rewrite (bool_decide_eq_false_2 _ Hne). set_solver.
Qed.

(** Both dictionaries of the availability pass have the races with a race
    line as keys. *)
Lemma leer_lineas_carrera_dom (lineas : list string) :
  forall st,
    dom (caballos_por_carrera (leer_lineas_carrera st lineas))
    = dom (caballos_por_carrera st) ∪ carreras_con_linea lineas
    /\ dom (apuestas_por_carrera (leer_lineas_carrera st lineas))
       = dom (apuestas_por_carrera st) ∪ carreras_con_linea lineas.
Proof.
  induction lineas as [|linea sig IH]; intros st; simpl.
  - split; set_solver.
  - destruct (IH (leer_linea_carrera st linea sig)) as [-> ->].
    unfold leer_linea_carrera.
    destruct (Re.match_ patron_carrera linea) as [m|]; [|split; set_solver].
    cbn [caballos_por_carrera apuestas_por_carrera]. unfold agregar_codigos.
    rewrite !dom_insert_L. split; set_solver.
Qed.

Lemma pase_disponibilidad_dom (contenido : string) :
  dom (caballos_por_carrera (pase_disponibilidad contenido))
  = carreras_con_linea (Py.split Py.nl contenido)
  /\ dom (apuestas_por_carrera (pase_disponibilidad contenido))
     = carreras_con_linea (Py.split Py.nl contenido).
Proof.
  unfold pase_disponibilidad.
  destruct (leer_lineas_carrera_dom (Py.split Py.nl contenido) (Disponibilidad ∅ ∅))
    as [-> ->].
  cbn [caballos_por_carrera apuestas_por_carrera]. rewrite !dom_empty_L.
  split; set_solver.
Qed.

Lemma _normalizar_reporte_lookup (contenido : string) (num : Z) :
  let disp := pase_disponibilidad contenido in
  let valores := pase_minimos contenido (caballos_por_carrera disp) in
  _normalizar_reporte contenido !! num
  = if decide (num ∈ carreras_con_linea (Py.split Py.nl contenido)) then
      Some (Carrera
              (default 0 (caballos_por_carrera disp !! num))
              (dict_de_codigos (fun codigo => default ∅ (valores !! num) !! codigo)
                 (default ∅ (apuestas_por_carrera disp !! num))))
    else None.
Proof.
  intros disp valores. unfold _normalizar_reporte, combinar.
  rewrite lookup_dict_de_conjunto.
  destruct (pase_disponibilidad_dom contenido) as [-> ->].
  rewrite union_idemp_L. reflexivity.
Qed.

(** C5.  For every race of the result: the codes of the race are exactly the
    union of the recognised codes of its race lines and their continuation
    lines; the amount of a code is the one that the pass over the RSM table
    assigned to that race and code, and unknown when there is none; the
    values read from CARD DEFAULT MINIMUMS do not enter the result. *)
Theorem _normalizar_reporte_apuestas (contenido : string) (num : Z) (c : carrera) :
  let disp := pase_disponibilidad contenido in
  let valores := pase_minimos contenido (caballos_por_carrera disp) in
  _normalizar_reporte contenido !! num = Some c ->
  dom (apuestas c) = codigos_disponibles num (Py.split Py.nl contenido)
  /\ (forall codigo, codigo ∈ dom (apuestas c) ->
        apuestas c !! codigo = Some (default ∅ (valores !! num) !! codigo))
  /\ (forall codigo v, codigo ∈ dom (apuestas c) ->
        (apuestas c !! codigo = Some (Some v)
         <-> exists m, valores !! num = Some m /\ m !! codigo = Some v))
  /\ (forall defaults, combinar disp valores defaults = _normalizar_reporte contenido).
Proof.
  intros disp valores. subst disp valores. rewrite _normalizar_reporte_lookup.
  destruct (decide _) as [Hin|]; [|discriminate]. intros [= <-].
  cbn [apuestas]. rewrite dom_dict_de_codigos.
  set (disp := pase_disponibilidad contenido).
  set (valores := pase_minimos contenido (caballos_por_carrera disp)).
  assert (Hcod : default ∅ (apuestas_por_carrera disp !! num)
                 = codigos_disponibles num (Py.split Py.nl contenido)).
  { unfold disp, pase_disponibilidad. rewrite leer_lineas_carrera_codigos.
    cbn [apuestas_por_carrera]. rewrite lookup_empty. set_solver. }
  assert (Hval : forall codigo,
             codigo ∈ default ∅ (apuestas_por_carrera disp !! num) ->
             dict_de_codigos (fun codigo => default ∅ (valores !! num) !! codigo)
               (default ∅ (apuestas_por_carrera disp !! num)) !! codigo
             = Some (default ∅ (valores !! num) !! codigo)).
  { intros codigo Hc. rewrite lookup_dict_de_codigos.
    destruct (decide _); [reflexivity|contradiction]. }
  split; [exact Hcod|split; [exact Hval|split]].
  - intros codigo v Hc. rewrite (Hval codigo Hc). split.
    + intros [= Hv]. destruct (valores !! num) as [m|]; [eauto|].
      simpl in Hv. rewrite lookup_empty in Hv. discriminate Hv.
    + intros (m & -> & Hm). simpl. rewrite Hm. reflexivity.
  - reflexivity.
Qed.

Lemma _normalizar_reporte_apuestas_witness :
  exists c, _normalizar_reporte ejemplo_contenido !! 1 = Some c
    /\ dom (apuestas c) = codigos_disponibles 1 (Py.split Py.nl ejemplo_contenido)
    /\ apuestas c !! "EXA" = Some (Some (Float.of_decimal false 1000 0))
    /\ apuestas c !! "IMP" = Some None
    /\ valores_default ejemplo_contenido !! "IMP" = Some (Float.of_decimal false 500 0).
Proof.
  destruct (_normalizar_reporte ejemplo_contenido !! 1) as [c|] eqn:Hc;
    [|vm_compute in Hc; discriminate Hc].
  exists c. split; [reflexivity|].
  pose proof (_normalizar_reporte_apuestas ejemplo_contenido 1 c Hc)
    as (Hdom & Hval & _ & _).
  split; [exact Hdom|].
  assert (Hin : forall codigo,
             bool_decide (codigo ∈ codigos_disponibles 1
                                     (Py.split Py.nl ejemplo_contenido)) = true ->
             codigo ∈ dom (apuestas c)).
  { intros codigo H. rewrite Hdom. apply bool_decide_eq_true in H. exact H. }
  split; [|split].
  - rewrite (Hval "EXA") by (apply Hin; vm_compute; reflexivity).
    vm_compute. reflexivity.
  - rewrite (Hval "IMP") by (apply Hin; vm_compute; reflexivity).
    vm_compute. reflexivity.
  - vm_compute. reflexivity.
Defined.

Lemma asignar_a_carreras_dom (reales : list Z) (codigo : string) (v : spec_float)
    (cs : list Z) :
  reales <> [] ->
  forall valores : gmap Z (gmap string spec_float),
    (forall k, k ∈ dom valores -> k ∈ reales) ->
    forall k, k ∈ dom (asignar_a_carreras reales codigo v cs valores) -> k ∈ reales.
Proof.
  intros Hne. unfold asignar_a_carreras.
  induction cs as [|c cs IH]; intros valores Hdom; simpl; [exact Hdom|].
  apply IH.
  rewrite (bool_decide_eq_false_2 _ Hne). cbn [negb andb].
  destruct (bool_decide (c ∈ reales)) eqn:Hc; cbn [negb]; [|exact Hdom].
  apply bool_decide_eq_true in Hc.
  intros k. unfold asignar_valor. rewrite dom_insert_L, elem_of_union, elem_of_singleton.
  intros [-> | Hk]; [exact Hc|apply Hdom, Hk].
Qed.

Lemma leer_fila_rsm_dom (reales : list Z) (m : Re.found) :
  reales <> [] ->
  forall valores : gmap Z (gmap string spec_float),
    (forall k, k ∈ dom valores -> k ∈ reales) ->
    forall k, k ∈ dom (leer_fila_rsm reales valores m) -> k ∈ reales.
Proof.
  intros Hne valores Hdom. unfold leer_fila_rsm.
  destruct (_parsear_monto_str _); [|exact Hdom].
  destruct (mapeo_rsm _); [|exact Hdom].
  apply asignar_a_carreras_dom; assumption.
Qed.

Lemma elem_of_reales (X : gset Z) (k : Z) : k ∈ sorted (elements X) <-> k ∈ X.
Proof. rewrite elem_of_sorted. apply elem_of_elements. Qed.

Lemma reales_no_vacia (X : gset Z) : X <> ∅ -> sorted (elements X) <> [].
Proof.
  intros HX Hnil. apply HX. apply set_eq. intros k.
  rewrite <- elem_of_reales, Hnil. split; intros H; inversion H.
Qed.

(** When the availability pass found races, the pass over the RSM table
    assigns values to those races only. *)
Lemma pase_minimos_dom (contenido : string) (caballos : gmap Z Z) :
  dom caballos <> ∅ -> dom (pase_minimos contenido caballos) ⊆ dom caballos.
Proof.
  intros Hne. unfold pase_minimos.
  destruct (seccion_rsm contenido) as [seccion|]; [|rewrite dom_empty_L; set_solver].
  pose proof (reales_no_vacia _ Hne) as Hreales.
  intros k Hk. apply elem_of_reales. revert k Hk.
  generalize (Re.finditer patron_rsm seccion). intros filas.
  assert (Hini : forall k, k ∈ dom (∅ : gmap Z (gmap string spec_float)) ->
                           k ∈ sorted (elements (dom caballos))).
  { intros k. rewrite dom_empty_L. intros H. set_solver. }
  revert Hini. generalize (∅ : gmap Z (gmap string spec_float)).
  induction filas as [|m filas IH]; intros valores Hdom; simpl; [exact Hdom|].
  apply IH. apply leer_fila_rsm_dom; assumption.
Qed.

Lemma dom__normalizar_reporte (contenido : string) :
  dom (_normalizar_reporte contenido)
  = dom (caballos_por_carrera (pase_disponibilidad contenido)).
Proof.
  apply set_eq. intros k.
  rewrite elem_of_dom, _normalizar_reporte_lookup.
  destruct (pase_disponibilidad_dom contenido) as [-> _].
  destruct (decide _); split; intros H;
    first [done | by eexists | by destruct H].
Qed.

(** C4.  The races of the result are exactly the races that the
    availability pass discovered.  When that pass found races, a row "ALL"
    expands to those races, and no row, "ALL" or explicit, assigns a value to
    a race outside them.  Hence when the pass found the races 1 and 2 only,
    the races 3 to 15 get no value and no entry. *)
Theorem _normalizar_reporte_all_acotado (contenido : string) :
  let disp := pase_disponibilidad contenido in
  let reales := dom (caballos_por_carrera disp) in
  let valores := pase_minimos contenido (caballos_por_carrera disp) in
  dom (_normalizar_reporte contenido) = reales
  /\ (forall race_map, Py.upper race_map = "ALL" -> reales <> ∅ ->
      forall carrera, carrera ∈ carreras_de_fila (sorted (elements reales)) race_map
                      <-> carrera ∈ reales)
  /\ (reales <> ∅ -> forall carrera, carrera ∈ dom valores -> carrera ∈ reales)
  /\ (reales = {[1; 2]} ->
      forall n, 3 <= n <= 15 ->
                valores !! n = None /\ _normalizar_reporte contenido !! n = None).
Proof.
  intros disp reales valores.
  assert (Hdom : dom (_normalizar_reporte contenido) = reales)
    by apply dom__normalizar_reporte.
  split; [exact Hdom|split; [|split]].
  - intros race_map Hall Hne carrera. unfold carreras_de_fila. rewrite Hall.
    cbn [String.eqb Ascii.eqb Bool.eqb andb].
    pose proof (reales_no_vacia _ Hne) as Hl.
    destruct (sorted (elements reales)) eqn:Hs; [congruence|].
    rewrite <- Hs. apply elem_of_reales.
  - intros Hne carrera Hc. apply (pase_minimos_dom contenido _ Hne), Hc.
  - intros Hreales n Hn.
    assert (Hnot : n ∉ reales).
    { rewrite Hreales. intros H. apply elem_of_union in H as [H | H];
        apply elem_of_singleton in H; lia. }
    split.
    + apply not_elem_of_dom. intros H. apply Hnot.
      apply (pase_minimos_dom contenido (caballos_por_carrera disp)); [|exact H].
      fold reales. rewrite Hreales. intros Hemp.
      assert (H1 : (1 : Z) ∈ ({[1; 2]} : gset Z)) by set_solver.
      rewrite Hemp in H1. set_solver.
    + apply not_elem_of_dom. rewrite Hdom. exact Hnot.
Qed.

Lemma _normalizar_reporte_all_acotado_witness :
  dom (caballos_por_carrera (pase_disponibilidad ejemplo_contenido)) = {[1; 2]}
  /\ (forall carrera,
        carrera ∈ carreras_de_fila
                    (sorted (elements
                       (dom (caballos_por_carrera (pase_disponibilidad ejemplo_contenido)))))
                    "ALL"
        <-> carrera ∈ dom (caballos_por_carrera (pase_disponibilidad ejemplo_contenido)))
  /\ (forall carrera,
        carrera ∈ dom (pase_minimos ejemplo_contenido
                         (caballos_por_carrera (pase_disponibilidad ejemplo_contenido))) ->
        carrera ∈ dom (caballos_por_carrera (pase_disponibilidad ejemplo_contenido)))
  /\ (forall n, 3 <= n <= 15 ->
        pase_minimos ejemplo_contenido
          (caballos_por_carrera (pase_disponibilidad ejemplo_contenido)) !! n = None
        /\ _normalizar_reporte ejemplo_contenido !! n = None).
Proof.
  assert (Hdom : dom (caballos_por_carrera (pase_disponibilidad ejemplo_contenido))
                 = {[1; 2]}).
  { apply (bool_decide_unpack _). vm_compute. exact I. }
  assert (Hne : dom (caballos_por_carrera (pase_disponibilidad ejemplo_contenido)) <> ∅).
  { apply (bool_decide_unpack _). vm_compute. exact I. }
  split; [exact Hdom|split; [|split]].
  - apply (proj1 (proj2 (_normalizar_reporte_all_acotado ejemplo_contenido)) "ALL");
      [reflexivity|exact Hne].
  - apply (proj1 (proj2 (proj2 (_normalizar_reporte_all_acotado ejemplo_contenido)))).
    exact Hne.
  - apply (proj2 (proj2 (proj2 (_normalizar_reporte_all_acotado ejemplo_contenido)))).
    exact Hdom.
Defined.

(** ** Palermo: extraction from the document *)

Lemma fila_de_linea_fecha (actual : option string) (s : string) (f : fila) :
  fila_de_linea actual s = Some f -> actual = Some (fecha_de f).
Proof.
  unfold fila_de_linea.
  destruct (negb _ || negb _); [discriminate|].
  destruct (Re.match_ patron_fila s) as [m|]; [|discriminate].
  destruct actual as [fecha|]; [|discriminate].
  destruct (_mapear_nombre_apuesta_palermo _); [|discriminate].
  destruct (_parsear_monto_str _); [|discriminate].
  destruct (_extraer_carreras_palermo _); [discriminate|].
  intros [= <-]. reflexivity.
Qed.

Lemma fila_de_linea_sin_fecha (s : string) : fila_de_linea None s = None.
Proof.
  destruct (fila_de_linea None s) as [f|] eqn:H; [|reflexivity].
  apply fila_de_linea_fecha in H. discriminate H.
Qed.

Lemma fecha_tras_linea_casos (actual : option string) (s : string) :
  (fechas_de_linea s = [] /\ fecha_tras_linea actual s = actual)
  \/ (exists f, f ∈ fechas_de_linea s /\ fecha_tras_linea actual s = Some f).
Proof.
  unfold fecha_tras_linea.
  destruct (last (fechas_de_linea s)) as [f|] eqn:Hl.
  - right. exists f. split; [|reflexivity].
    apply last_Some in Hl as [l ->]. apply elem_of_app. right. left.
  - left. apply last_None in Hl. rewrite Hl. split; reflexivity.
Qed.

(** The body of the loop over the lines, in terms of the row of the line. *)
Lemma procesar_linea_fila (st : lector) (linea : string) :
  procesar_linea st linea
  = let s := Py.strip linea in
    if Py.is_empty s then st
    else
      let d := con_fechas (datos st)
                 (fold_left anotar_fecha (fechas_de_linea s) (fechas (datos st))) in
      let actual := fecha_tras_linea (fecha_actual st) s in
      Lector (match fila_de_linea actual s with
              | Some f => registrar d f
              | None => d
              end) actual.
Proof.
  unfold procesar_linea, fila_de_linea, fecha_tras_linea, fechas_de_linea. cbv zeta.
  destruct (Py.is_empty (Py.strip linea)); [reflexivity|].
  destruct (negb _ || negb _); [reflexivity|].
  destruct (Re.match_ patron_fila _) as [m|]; [|reflexivity].
  destruct (match last _ with Some f => Some f | None => fecha_actual st end)
    as [fecha|]; [|reflexivity].
  destruct (_mapear_nombre_apuesta_palermo _); [|reflexivity].
  destruct (_parsear_monto_str _); [|reflexivity].
  destruct (_extraer_carreras_palermo _); reflexivity.
Qed.

Lemma mismas_apuestas_registrar (d d' : datos_palermo) (f : fila) :
  mismas_apuestas d d' -> mismas_apuestas (registrar d f) (registrar d' f).
Proof.
  destruct f as [[[fecha codigo] v] cs]. intros (Ho & Ha & Hr).
  unfold mismas_apuestas, registrar, registrar_fila. cbn.
  rewrite Ho, Ha, Hr. auto.
Qed.

(** Reading lines from the current date [actual] records the rows of those
    lines, in order. *)
Lemma procesar_lineas_filas (lineas : list string) :
  forall (d d' : datos_palermo) (actual : option string),
    mismas_apuestas d d' ->
    mismas_apuestas
      (datos (fold_left procesar_linea lineas (Lector d actual)))
      (fold_left registrar (filas_de_lineas actual lineas) d').
Proof.
  induction lineas as [|linea resto IH]; intros d d' actual Hd; [exact Hd|].
  cbn [fold_left filas_de_lineas]. rewrite procesar_linea_fila. cbv zeta.
  cbn [datos fecha_actual].
  destruct (Py.is_empty (Py.strip linea)); [apply IH, Hd|].
  assert (Hc : mismas_apuestas
                 (con_fechas d (fold_left anotar_fecha
                                  (fechas_de_linea (Py.strip linea)) (fechas d))) d').
  { exact Hd. }
  destruct (fila_de_linea _ _) as [f|]; cbn [fold_left]; apply IH.
  - apply mismas_apuestas_registrar, Hc.
  - exact Hc.
Qed.

(** The extraction records the rows of each page read on its own, the
    current date being none at the start of the page. *)
Lemma _leer_palermo_filas (paginas : list string) :
  mismas_apuestas (_leer_palermo_desde_pdf paginas)
    (fold_left registrar (filas_registradas paginas) datos_vacios).
Proof.
  unfold _leer_palermo_desde_pdf, filas_registradas.
  assert (Hgen : forall d d', mismas_apuestas d d' ->
            mismas_apuestas (fold_left procesar_pagina paginas d)
              (fold_left registrar (flat_map filas_de_pagina paginas) d')).
  { induction paginas as [|texto resto IH]; intros d d' Hd; [exact Hd|].
    cbn [fold_left flat_map]. rewrite fold_left_app. apply IH.
    unfold procesar_pagina, filas_de_pagina. apply procesar_lineas_filas, Hd. }
  apply Hgen. repeat split.
Qed.

Lemma filas_sin_fechas (pre post : list string) :
  sin_fechas pre -> filas_de_lineas None (pre ++ post) = filas_de_lineas None post.
Proof.
  induction pre as [|linea pre IH]; intros Hpre; [reflexivity|].
  cbn [List.app filas_de_lineas].
  assert (Hresto : sin_fechas pre).
  { intros l Hl. apply Hpre. right. exact Hl. }
  destruct (Py.is_empty (Py.strip linea)); [apply IH, Hresto|].
  unfold fecha_tras_linea. rewrite (Hpre linea) by left. cbn [last].
  rewrite fila_de_linea_sin_fecha. apply IH, Hresto.
Qed.

Lemma filas_de_lineas_origen (lineas : list string) :
  forall (actual : option string) (f : fila),
    f ∈ filas_de_lineas actual lineas ->
    (actual = Some (fecha_de f)
     /\ exists (j : nat) (linea : string),
          lineas !! j = Some linea
          /\ fila_de_linea (Some (fecha_de f)) (Py.strip linea) = Some f)
    \/ fila_con_fecha_en lineas f.
Proof.
  induction lineas as [|linea resto IH]; intros actual f Hf; [inversion Hf|].
  cbn [filas_de_lineas] in Hf.
  assert (Hsube : forall a,
            (a = Some (fecha_de f)
             /\ exists (j : nat) (l : string),
                  resto !! j = Some l
                  /\ fila_de_linea (Some (fecha_de f)) (Py.strip l) = Some f)
            \/ fila_con_fecha_en resto f ->
            (a = Some (fecha_de f)
             /\ exists (j : nat) (l : string),
                  (linea :: resto) !! j = Some l
                  /\ fila_de_linea (Some (fecha_de f)) (Py.strip l) = Some f)
            \/ fila_con_fecha_en (linea :: resto) f).
  { intros a [[Ha (j & l & Hj & Hl)] | (i & j & lf & lr & Hij & Hi & Hj & Hin & Hl)].
    - left. split; [exact Ha|]. exists (S j), l. auto.
    - right. exists (S i), (S j), lf, lr. repeat split; auto. lia. }
  destruct (Py.is_empty (Py.strip linea)); [apply Hsube, IH, Hf|].
  assert (Hresto : f ∈ filas_de_lineas (fecha_tras_linea actual (Py.strip linea)) resto ->
            (actual = Some (fecha_de f)
             /\ exists (j : nat) (l : string),
                  (linea :: resto) !! j = Some l
                  /\ fila_de_linea (Some (fecha_de f)) (Py.strip l) = Some f)
            \/ fila_con_fecha_en (linea :: resto) f).
  { intros H. apply IH in H.
    destruct (fecha_tras_linea_casos actual (Py.strip linea))
      as [[_ Heq] | (f' & Hin & Heq)]; rewrite Heq in H.
    - apply Hsube, H.
    - destruct H as [[Ha (j & l & Hj & Hl)] | H]; [|apply (Hsube actual); right; exact H].
      injection Ha as ->. right.
      exists 0%nat, (S j), linea, l. repeat split; auto. lia. }
  destruct (fila_de_linea (fecha_tras_linea actual (Py.strip linea)) (Py.strip linea))
    as [f0|] eqn:Hf0; [|apply Hresto, Hf].
  apply elem_of_cons in Hf as [-> | Hf]; [|apply Hresto, Hf].
  pose proof (fila_de_linea_fecha _ _ _ Hf0) as Hfecha.
  rewrite Hfecha in Hf0.
  destruct (fecha_tras_linea_casos actual (Py.strip linea))
    as [[_ Heq] | (f' & Hin & Heq)]; rewrite Heq in Hfecha.
  - left. split; [exact Hfecha|]. exists 0%nat, linea. auto.
  - injection Hfecha as ->. right.
    exists 0%nat, 0%nat, linea, linea. repeat split; auto.
Qed.

Lemma filas_de_pagina_origen (texto : string) (f : fila) :
  f ∈ filas_de_pagina texto -> fila_con_fecha_en (Py.split Py.nl texto) f.
Proof.
  intros H. apply filas_de_lineas_origen in H as [[H _] | H];
    [discriminate H|exact H].
Qed.

Lemma ver_asignar_valor (c : string) (v : spec_float)
    (m : gmap Z (gmap string spec_float)) (x r : Z) (c' : string) :
  ver (asignar_valor c v m x) r c'
  = if decide (c' = c /\ r = x) then Some v else ver m r c'.
Proof.
  unfold ver, asignar_valor. rewrite lookup_insert.
  destruct (decide (x = r)) as [->|Hx].
  - cbn [default from_option id]. rewrite lookup_insert.
    destruct (decide (c = c')) as [->|Hc].
    + rewrite decide_True by auto. reflexivity.
    + rewrite decide_False by (intros [? _]; congruence). reflexivity.
  - rewrite decide_False by (intros [_ ?]; congruence). reflexivity.
Qed.

Lemma ver_fold_asignar_valor (c : string) (v : spec_float) (cs : list Z) (r : Z)
    (c' : string) :
  forall m : gmap Z (gmap string spec_float),
    ver (fold_left (asignar_valor c v) cs m) r c'
    = if decide (c' = c /\ r ∈ cs) then Some v else ver m r c'.
Proof.
  induction cs as [|x cs IH]; intros m; cbn [fold_left].
  - rewrite decide_False; [reflexivity|]. intros [_ H]. inversion H.
  - rewrite IH, ver_asignar_valor.
    destruct (decide (c' = c /\ r ∈ cs)) as [[Hc Hr]|Hn].
    + rewrite decide_True; [reflexivity|]. split; [exact Hc|right; exact Hr].
    + destruct (decide (c' = c /\ r = x)) as [[Hc ->]|Hn'].
      * rewrite decide_True; [reflexivity|]. split; [exact Hc|left].
      * rewrite decide_False; [reflexivity|].
        intros [Hc Hr]. apply elem_of_cons in Hr as [Hr | Hr]; tauto.
Qed.

Lemma ver_fecha_registrar (d : datos_palermo) (fecha codigo : string)
    (v : spec_float) (cs : list Z) (fe : string) (r : Z) (c : string) :
  ver_fecha (registrar d (fecha, codigo, v, cs)) fe r c
  = if decide (fe = fecha /\ c = codigo /\ r ∈ cs) then Some v
    else ver_fecha d fe r c.
Proof.
  unfold ver_fecha, registrar, registrar_fila. cbn [apuestas_por_fecha].
  rewrite lookup_insert.
  destruct (decide (fecha = fe)) as [->|Hf].
  - cbn [default from_option id]. rewrite ver_fold_asignar_valor.
    destruct (decide (c = codigo /\ r ∈ cs)) as [H|H].
    + rewrite decide_True by tauto. reflexivity.
    + rewrite decide_False by tauto. reflexivity.
  - rewrite decide_False by (intros [? _]; congruence). reflexivity.
Qed.

(** Every recorded amount is the amount of a recorded row of that date and
    code whose races include the race. *)
Lemma ver_fecha_filas (filas : list fila) (fe : string) (r : Z) (c : string)
    (v : spec_float) :
  forall d : datos_palermo,
    ver_fecha (fold_left registrar filas d) fe r c = Some v ->
    ver_fecha d fe r c = Some v
    \/ exists cs, (fe, c, v, cs) ∈ filas /\ r ∈ cs.
Proof.
  induction filas as [|[[[fecha codigo] w] cs] filas IH]; intros d H;
    [left; exact H|].
  cbn [fold_left] in H. apply IH in H as [H | (cs' & Hin & Hr)].
  - rewrite ver_fecha_registrar in H.
    destruct (decide (fe = fecha /\ c = codigo /\ r ∈ cs)) as [(-> & -> & Hr)|_].
    + injection H as ->. right. exists cs. split; [left|exact Hr].
    + left. exact H.
  - right. exists cs'. split; [right; exact Hin|exact Hr].
Qed.

Lemma ver_fecha_mismas (d d' : datos_palermo) (fe : string) (r : Z) (c : string) :
  mismas_apuestas d d' -> ver_fecha d fe r c = ver_fecha d' fe r c.
Proof. intros (_ & Ha & _). unfold ver_fecha. rewrite Ha. reflexivity. Qed.

(** C10.  The current date is none at the start of every page: the
    extraction records the rows of each page read on its own, whatever the
    earlier pages hold; the lines of a page that stand before its first date
    token yield no row; the date of every row of a page is a date token of
    the line of the row or of an earlier line of the same page; hence every
    recorded amount comes from a row whose date stands on the page of the
    row. *)
Theorem _leer_palermo_fecha_por_pagina (paginas : list string) :
  mismas_apuestas (_leer_palermo_desde_pdf paginas)
    (fold_left registrar (flat_map filas_de_pagina paginas) datos_vacios)
  /\ (forall texto pre post,
        Py.split Py.nl texto = (pre ++ post)%list -> sin_fechas pre ->
        filas_de_pagina texto = filas_de_lineas None post)
  /\ (forall texto, sin_fechas (Py.split Py.nl texto) -> filas_de_pagina texto = [])
  /\ (forall texto f,
        f ∈ filas_de_pagina texto -> fila_con_fecha_en (Py.split Py.nl texto) f)
  /\ (forall fecha carrera codigo v,
        ver_fecha (_leer_palermo_desde_pdf paginas) fecha carrera codigo = Some v ->
        exists texto cs,
          texto ∈ paginas
          /\ (fecha, codigo, v, cs) ∈ filas_de_pagina texto
          /\ carrera ∈ cs
          /\ fila_con_fecha_en (Py.split Py.nl texto) (fecha, codigo, v, cs)).
Proof.
  split; [apply _leer_palermo_filas|].
  split; [|split; [|split]].
  - intros texto pre post Hs Hpre. unfold filas_de_pagina. rewrite Hs.
    apply filas_sin_fechas, Hpre.
  - intros texto Hsin. unfold filas_de_pagina.
    rewrite <- (app_nil_r (Py.split Py.nl texto)).
    rewrite (filas_sin_fechas _ [] Hsin). reflexivity.
  - apply filas_de_pagina_origen.
  - intros fecha carrera codigo v H.
    rewrite (ver_fecha_mismas _ _ _ _ _ (_leer_palermo_filas paginas)) in H.
    apply ver_fecha_filas in H as [H | (cs & Hin & Hr)].
    + unfold ver_fecha, ver in H. cbn in H. rewrite !lookup_empty in H.
      cbn in H. rewrite lookup_empty in H. discriminate H.
    + apply elem_of_flat_map in Hin as (texto & Ht & Hf).
      exists texto, cs. repeat split; try assumption.
      apply filas_de_pagina_origen, Hf.
Qed.

Lemma _leer_palermo_fecha_por_pagina_witness :
  filas_de_pagina (unir_lineas ["TRIFECTA (300) 1,2"; "Reunion 04/02/2026";
                                "TRIFECTA (400) 6"])
  = filas_de_lineas None ["Reunion 04/02/2026"; "TRIFECTA (400) 6"]
  /\ filas_de_pagina (unir_lineas ["TRIFECTA (300) 1,2"; "TRIFECTA (400) 6"]) = []
  /\ fila_con_fecha_en
       (Py.split Py.nl (unir_lineas ["TRIFECTA (300) 1,2"; "Reunion 04/02/2026";
                                     "TRIFECTA (400) 6"]))
       ("04/02/2026", "TRI", Float.of_decimal false 400 0, [6])
  /\ ver_fecha (_leer_palermo_desde_pdf ejemplo_paginas) "01/02/2026" 1 "TRI" = None
  /\ exists texto cs,
       texto ∈ ejemplo_paginas
       /\ ("04/02/2026", "TRI", Float.of_decimal false 400 0, cs) ∈ filas_de_pagina texto
       /\ 6 ∈ cs
       /\ fila_con_fecha_en (Py.split Py.nl texto)
            ("04/02/2026", "TRI", Float.of_decimal false 400 0, cs).
Proof.
  assert (Hsin : forall l, (forall x, x ∈ l -> fechas_de_linea (Py.strip x) = []) ->
                           sin_fechas l) by (intros l H; exact H).
  split; [|split; [|split; [|split]]].
  - apply (proj1 (proj2 (_leer_palermo_fecha_por_pagina [])) _ ["TRIFECTA (300) 1,2"]);
      [reflexivity|].
    intros x Hx. apply list_elem_of_singleton in Hx. subst x. reflexivity.
  - apply (proj1 (proj2 (proj2 (_leer_palermo_fecha_por_pagina [])))).
    intros x Hx. cbv in Hx.
    apply elem_of_cons in Hx as [-> | Hx]; [reflexivity|].
    apply list_elem_of_singleton in Hx. subst x. reflexivity.
  - apply (proj1 (proj2 (proj2 (proj2 (_leer_palermo_fecha_por_pagina []))))).
    vm_compute. left.
  - vm_compute. reflexivity.
  - apply (proj2 (proj2 (proj2 (proj2 (_leer_palermo_fecha_por_pagina ejemplo_paginas))))).
    vm_compute. reflexivity.
Defined.

(** ** Palermo: the single-occurrence rule *)

Lemma info_de_registrar (d : datos_palermo) (fe co : string) (v : spec_float)
    (cs : list Z) (fecha codigo : string) :
  info_de (registrar d (fe, co, v, cs)) fecha codigo
  = if decide (fe = fecha /\ co = codigo) then
      Some (InfoResumen (conteo_de (info_de d fecha codigo) + 1) v
              (carreras (default (InfoResumen 0 v ∅) (info_de d fecha codigo))
               ∪ list_to_set cs))
    else info_de d fecha codigo.
Proof.
  unfold info_de, registrar, registrar_fila. cbn [resumen_por_fecha].
  rewrite lookup_insert.
  destruct (decide (fe = fecha)) as [->|Hf].
  - cbn [default from_option id]. rewrite lookup_insert.
    destruct (decide (co = codigo)) as [->|Hc].
    + rewrite decide_True by auto.
      destruct (default ∅ (resumen_por_fecha d !! fecha) !! codigo); reflexivity.
    + rewrite decide_False by (intros [_ ?]; congruence). reflexivity.
  - rewrite decide_False by (intros [? _]; congruence). reflexivity.
Qed.

(** The summary of a date and a code counts the recorded rows of that date
    and code and holds the amount of the last of them. *)
Lemma info_de_filas (fecha codigo : string) (filas : list fila) :
  forall d : datos_palermo,
    let n := length (filas_de fecha codigo filas) in
    let final := info_de (fold_left registrar filas d) fecha codigo in
    conteo_de final = conteo_de (info_de d fecha codigo) + Z.of_nat n
    /\ (n = 0%nat -> final = info_de d fecha codigo)
    /\ (forall f, last (filas_de fecha codigo filas) = Some f ->
          exists info, final = Some info /\ valor info = f.1.2).
Proof.
  induction filas as [|[[[fe co] v] cs] filas IH]; intros d.
  - cbn. split; [lia|split; [reflexivity|discriminate]].
  - cbn [fold_left]. cbv zeta.
    destruct (IH (registrar d (fe, co, v, cs))) as (Hn & H0 & Hlast).
    unfold filas_de in *. cbn [List.filter]. unfold fecha_de, codigo_de_fila in *.
    cbn [fst snd] in *. rewrite info_de_registrar in Hn, H0.
    destruct (decide (fe = fecha /\ co = codigo)) as [[-> ->]|Hne].
    + rewrite bool_decide_eq_true_2 by auto. cbn [length].
      split; [|split].
      * rewrite Hn. cbn [conteo_de conteo_lineas]. lia.
      * discriminate.
      * intros f Hf.
        destruct (List.filter _ filas) as [|g gs] eqn:Hfil.
        -- cbn in Hf. injection Hf as <-. cbn [snd].
           rewrite (H0 eq_refl). eexists. split; reflexivity.
        -- apply Hlast. rewrite <- Hf. reflexivity.
    + rewrite bool_decide_eq_false_2 by exact Hne.
      split; [exact Hn|split; [exact H0|exact Hlast]].
Qed.

Lemma ver_completar_carrera (c0 : string) (v : spec_float)
    (ap : gmap Z (gmap string spec_float)) (x r : Z) (c : string) :
  ver (completar_carrera c0 v ap x) r c
  = if decide (c = c0 /\ r = x /\ ver ap r c = None) then Some v else ver ap r c.
Proof.
  unfold ver, completar_carrera. rewrite lookup_insert.
  destruct (decide (x = r)) as [->|Hx].
  - cbn [default from_option id].
    destruct (default ∅ (ap !! r) !! c0) as [w|] eqn:Hw.
    + rewrite decide_False; [reflexivity|].
      intros (-> & _ & H). congruence.
    + rewrite lookup_insert.
      destruct (decide (c0 = c)) as [->|Hc].
      * rewrite decide_True by auto. reflexivity.
      * rewrite decide_False by (intros [? _]; congruence). reflexivity.
  - rewrite decide_False by (intros (_ & ? & _); congruence). reflexivity.
Qed.

Lemma ver_fold_completar_carrera (c0 : string) (v : spec_float) (l : list Z)
    (r : Z) (c : string) :
  forall ap : gmap Z (gmap string spec_float),
    ver (fold_left (completar_carrera c0 v) l ap) r c
    = if decide (c = c0 /\ r ∈ l /\ ver ap r c = None) then Some v else ver ap r c.
Proof.
  induction l as [|x l IH]; intros ap; cbn [fold_left].
  - rewrite decide_False; [reflexivity|]. intros (_ & H & _). inversion H.
  - rewrite IH, ver_completar_carrera.
    destruct (decide (c = c0 /\ r = x /\ ver ap r c = None)) as [(Hc & -> & Hv)|Hn].
    + rewrite decide_False by (intros (_ & _ & ?); discriminate).
      rewrite decide_True; [reflexivity|]. split; [exact Hc|split; [left|exact Hv]].
    + destruct (decide (c = c0 /\ r ∈ l /\ ver ap r c = None)) as [(Hc & Hr & Hv)|Hn'].
      * rewrite decide_True; [reflexivity|].
        split; [exact Hc|split; [right; exact Hr|exact Hv]].
      * rewrite decide_False; [reflexivity|].
        intros (Hc & Hr & Hv). apply elem_of_cons in Hr as [Hr | Hr]; tauto.
Qed.

Lemma ver_completar_codigo (resumen_fecha : gmap string info_resumen)
    (datos_reporte ap : gmap Z (gmap string spec_float)) (c0 : string)
    (r : Z) (c : string) :
  ver (completar_codigo resumen_fecha datos_reporte ap c0) r c
  = match resumen_fecha !! c0 with
    | Some info =>
        if decide (c = c0 /\ conteo_lineas info = 1 /\ r ∈ dom datos_reporte
                   /\ ver ap r c = None)
        then Some (valor info) else ver ap r c
    | None => ver ap r c
    end.
Proof.
  unfold completar_codigo.
  destruct (resumen_fecha !! c0) as [info|]; [|reflexivity].
  destruct (bool_decide (conteo_lineas info = 1)) eqn:Hb.
  - apply bool_decide_eq_true in Hb. rewrite ver_fold_completar_carrera.
    destruct (decide (c = c0 /\ r ∈ elements (dom datos_reporte) /\ ver ap r c = None))
      as [(Hc & Hr & Hv)|Hn].
    + apply elem_of_elements in Hr. rewrite decide_True by auto. reflexivity.
    + rewrite decide_False; [reflexivity|].
      intros (Hc & _ & Hr & Hv). apply Hn. rewrite elem_of_elements. auto.
  - apply bool_decide_eq_false in Hb.
    rewrite decide_False by tauto. reflexivity.
Qed.


Lemma ver_fold_completar_codigo (resumen_fecha : gmap string info_resumen)
    (datos_reporte : gmap Z (gmap string spec_float)) (codigos : list string)
    (r : Z) (c : string) :
  forall ap : gmap Z (gmap string spec_float),
    ver (fold_left (completar_codigo resumen_fecha datos_reporte) codigos ap) r c
    = match resumen_fecha !! c with
      | Some info =>
          if decide (c ∈ codigos /\ conteo_lineas info = 1 /\ r ∈ dom datos_reporte
                     /\ ver ap r c = None)
          then Some (valor info) else ver ap r c
      | None => ver ap r c
      end.
Proof.
  induction codigos as [|c0 codigos IH]; intros ap; cbn [fold_left].
  - destruct (resumen_fecha !! c); [|reflexivity].
    rewrite decide_False; [reflexivity|]. intros [H _]. inversion H.
  - rewrite IH, ver_completar_codigo.
    destruct (decide (c = c0)) as [->|Hc].
    + destruct (resumen_fecha !! c0) as [info|]; [|reflexivity].
      destruct (decide (c0 = c0 /\ conteo_lineas info = 1 /\ r ∈ dom datos_reporte
                        /\ ver ap r c0 = None)) as [(_ & H1 & H2 & H3)|Hn].
      * rewrite decide_False by (intros (_ & _ & _ & ?); discriminate).
        rewrite decide_True; [reflexivity|]. split; [left|auto].
      * rewrite decide_False by (intros (_ & ? & ? & ?); apply Hn; auto).
        rewrite decide_False by (intros (_ & ? & ? & ?); apply Hn; auto).
        reflexivity.
    + assert (Hver : match resumen_fecha !! c0 with
                     | Some info =>
                         if decide (c = c0 /\ conteo_lineas info = 1
                                    /\ r ∈ dom datos_reporte /\ ver ap r c = None)
                         then Some (valor info) else ver ap r c
                     | None => ver ap r c
                     end = ver ap r c).
      { destruct (resumen_fecha !! c0); [|reflexivity].
        rewrite decide_False by (intros [? _]; contradiction). reflexivity. }
      rewrite Hver.
      destruct (resumen_fecha !! c) as [info|]; [|reflexivity].
      destruct (decide (c ∈ codigos /\ conteo_lineas info = 1 /\ r ∈ dom datos_reporte
                        /\ ver ap r c = None)) as [(H0 & H)|Hn].
      * rewrite decide_True; [reflexivity|]. split; [right; exact H0|exact H].
      * rewrite decide_False; [reflexivity|].
        intros (H0 & H). apply Hn. split; [|exact H].
        apply elem_of_cons in H0 as [H0 | H0]; [contradiction|exact H0].
Qed.

(** What the completed structure holds for a race and a code. *)
Lemma ver_apuestas_palermo (d : datos_palermo)
    (datos_reporte : gmap Z (gmap string spec_float)) (fecha : string)
    (r : Z) (c : string) :
  ver (apuestas_palermo d datos_reporte (Some fecha)) r c
  = match info_de d fecha c with
    | Some info =>
        if decide (c ∈ codigos_all_si_unica /\ conteo_lineas info = 1
                   /\ r ∈ dom datos_reporte /\ ver_fecha d fecha r c = None)
        then Some (valor info) else ver_fecha d fecha r c
    | None => ver_fecha d fecha r c
    end.
Proof. apply ver_fold_completar_codigo. Qed.

Lemma info_de_leer (paginas : list string) (fecha codigo : string) :
  let n := length (filas_de fecha codigo (filas_registradas paginas)) in
  let final := info_de (_leer_palermo_desde_pdf paginas) fecha codigo in
  conteo_de final = Z.of_nat n
  /\ (n = 0%nat -> final = None)
  /\ (forall f, last (filas_de fecha codigo (filas_registradas paginas)) = Some f ->
        exists info, final = Some info /\ valor info = f.1.2).
Proof.
  cbv zeta.
  assert (Heq : info_de (_leer_palermo_desde_pdf paginas) fecha codigo
                = info_de (fold_left registrar (filas_registradas paginas) datos_vacios)
                    fecha codigo).
  { destruct (_leer_palermo_filas paginas) as (_ & _ & Hr).
    unfold info_de. rewrite Hr. reflexivity. }
  rewrite Heq.
  destruct (info_de_filas fecha codigo (filas_registradas paginas) datos_vacios)
    as (Hn & H0 & Hlast).
  assert (Hvacio : info_de datos_vacios fecha codigo = None).
  { unfold info_de. cbn. rewrite lookup_empty. cbn. apply lookup_empty. }
  rewrite Hvacio in Hn, H0. cbn [conteo_de] in Hn.
  split; [lia|split; [exact H0|exact Hlast]].
Qed.

(** C6.  With a selected date, for a code of the completion set EXA, TRI:
    when exactly one recorded row of the document carries the date and the
    code, every race of the report-derived structure that does not hold the
    code from the document for that date gets the amount of that row, and
    the races that hold it keep their amount; when no row or several rows
    carry them, no race gets anything.  Races outside the report-derived
    structure and codes outside the set get nothing either. *)
Theorem completar_unica_linea (paginas : list string)
    (datos_reporte : gmap Z (gmap string spec_float)) (fecha codigo : string) :
  let datos_pdf := _leer_palermo_desde_pdf paginas in
  let lineas := filas_de fecha codigo (filas_registradas paginas) in
  let completas := apuestas_palermo datos_pdf datos_reporte (Some fecha) in
  (codigo ∈ codigos_all_si_unica ->
   forall f, lineas = [f] ->
   forall carrera, carrera ∈ dom datos_reporte ->
     ver completas carrera codigo
     = match ver_fecha datos_pdf fecha carrera codigo with
       | Some explicito => Some explicito
       | None => Some f.1.2
       end)
  /\ (length lineas <> 1%nat ->
      forall carrera,
        ver completas carrera codigo = ver_fecha datos_pdf fecha carrera codigo)
  /\ (forall carrera, carrera ∉ dom datos_reporte ->
        ver completas carrera codigo = ver_fecha datos_pdf fecha carrera codigo)
  /\ (codigo ∉ codigos_all_si_unica ->
      forall carrera,
        ver completas carrera codigo = ver_fecha datos_pdf fecha carrera codigo).
Proof.
  intros datos_pdf lineas completas.
  destruct (info_de_leer paginas fecha codigo) as (Hn & H0 & Hlast).
  fold datos_pdf in Hn, H0, Hlast. fold lineas in Hn, H0, Hlast.
  assert (Hver : forall carrera,
            ver completas carrera codigo
            = match info_de datos_pdf fecha codigo with
              | Some info =>
                  if decide (codigo ∈ codigos_all_si_unica /\ conteo_lineas info = 1
                             /\ carrera ∈ dom datos_reporte
                             /\ ver_fecha datos_pdf fecha carrera codigo = None)
                  then Some (valor info)
                  else ver_fecha datos_pdf fecha carrera codigo
              | None => ver_fecha datos_pdf fecha carrera codigo
              end).
  { intros carrera. apply ver_apuestas_palermo. }
  split; [|split; [|split]].
  - intros Hcod f Hf carrera Hcar. rewrite Hver.
    rewrite Hf in Hn, Hlast. cbn in Hn.
    destruct (Hlast f eq_refl) as (info & Hinfo & Hvalor).
    rewrite Hinfo in Hn |- *. cbn [conteo_de] in Hn.
    destruct (ver_fecha datos_pdf fecha carrera codigo) as [w|] eqn:Hexp.
    + rewrite decide_False by (intros (_ & _ & _ & ?); discriminate). reflexivity.
    + rewrite decide_True by auto. rewrite Hvalor. reflexivity.
  - intros Hlen carrera. rewrite Hver.
    destruct (info_de datos_pdf fecha codigo) as [info|]; [|reflexivity].
    cbn [conteo_de] in Hn.
    rewrite decide_False; [reflexivity|]. intros (_ & H1 & _). lia.
  - intros Hfuera carrera. rewrite Hver.
    destruct (info_de datos_pdf fecha codigo) as [info|]; [|reflexivity].
    rewrite decide_False; [reflexivity|]. intros (_ & _ & ? & _). contradiction.
  - intros Hfuera carrera. rewrite Hver.
    destruct (info_de datos_pdf fecha codigo) as [info|]; [|reflexivity].
    rewrite decide_False; [reflexivity|]. intros (? & _). contradiction.
Qed.

Lemma completar_unica_linea_witness :
  ver (apuestas_palermo (_leer_palermo_desde_pdf ejemplo_paginas)
         ejemplo_reporte_palermo (Some "01/02/2026")) 3 "EXA"
  = Some (Float.of_decimal false 500 0)
  /\ ver (apuestas_palermo (_leer_palermo_desde_pdf ejemplo_paginas)
            ejemplo_reporte_palermo (Some "01/02/2026")) 1 "EXA"
     = Some (Float.of_decimal false 500 0)
  /\ ver (apuestas_palermo (_leer_palermo_desde_pdf ejemplo_paginas)
            ejemplo_reporte_palermo (Some "04/02/2026")) 3 "EXA" = None
  /\ ver (apuestas_palermo (_leer_palermo_desde_pdf ejemplo_paginas)
            ejemplo_reporte_palermo (Some "01/02/2026")) 7 "EXA" = None
  /\ ver (apuestas_palermo (_leer_palermo_desde_pdf ejemplo_paginas)
            ejemplo_reporte_palermo (Some "01/02/2026")) 3 "DOB" = None.
Proof.
  split; [|split; [|split; [|split]]].
  - rewrite (proj1 (completar_unica_linea ejemplo_paginas ejemplo_reporte_palermo
                      "01/02/2026" "EXA")
               ltac:(left)
               ("01/02/2026", "EXA", Float.of_decimal false 500 0, [1; 2])
               ltac:(vm_compute; reflexivity) 3
               ltac:(apply (bool_decide_unpack _); vm_compute; exact I)).
    vm_compute. reflexivity.
  - rewrite (proj1 (completar_unica_linea ejemplo_paginas ejemplo_reporte_palermo
                      "01/02/2026" "EXA")
               ltac:(left)
               ("01/02/2026", "EXA", Float.of_decimal false 500 0, [1; 2])
               ltac:(vm_compute; reflexivity) 1
               ltac:(apply (bool_decide_unpack _); vm_compute; exact I)).
    vm_compute. reflexivity.
  - rewrite (proj1 (proj2 (completar_unica_linea ejemplo_paginas
                             ejemplo_reporte_palermo "04/02/2026" "EXA"))
               ltac:(vm_compute; discriminate) 3).
    vm_compute. reflexivity.
  - rewrite (proj1 (proj2 (proj2 (completar_unica_linea ejemplo_paginas
                                    ejemplo_reporte_palermo "01/02/2026" "EXA")))
               7 ltac:(apply (bool_decide_unpack _); vm_compute; exact I)).
    vm_compute. reflexivity.
  - rewrite (proj2 (proj2 (proj2 (completar_unica_linea ejemplo_paginas
                                    ejemplo_reporte_palermo "01/02/2026" "DOB")))
               ltac:(apply (bool_decide_unpack _); vm_compute; exact I) 3).
    vm_compute. reflexivity.
Defined.

(** ** Horse count per race of the official document *)

Lemma decimal_hechos (c : ascii) :
  Py.isdecimal c = true ->
  Py.isspace c = false /\ Ascii.eqb c Py.nl = false /\ Re.is_letter_i c = false
  /\ match c with "-"%char | "+"%char => False | _ => True end.
Proof. por_caracter c. Qed.

Lemma espacio_hechos (c : ascii) :
  Py.isspace c = true -> Py.isdecimal c = false /\ Re.is_letter_i c = false.
Proof. por_caracter c. Qed.

Lemma letra_hechos (c : ascii) :
  Re.is_letter_i c = true ->
  Py.isspace c = false /\ Py.isdecimal c = false /\ Ascii.eqb c Py.nl = false.
Proof. por_caracter c. Qed.

Lemma int_dos_digitos (d1 d2 : ascii) :
  Py.isdecimal d1 = true -> Py.isdecimal d2 = true ->
  Py.int (String d1 (String d2 "")) = Some (10 * Py.digit_val d1 + Py.digit_val d2).
Proof.
  intros H1 H2. unfold Py.int.
  destruct (decimal_hechos d1 H1) as (Hs1 & _ & _ & Hsig).
  destruct (decimal_hechos d2 H2) as (Hs2 & _).
  rewrite strip_id by (simpl; rewrite Hs1, Hs2; reflexivity).
  assert (Hsign : Py.strip_sign (String d1 (String d2 "")) = (false, String d1 (String d2 ""))).
  { unfold Py.strip_sign.
    destruct d1 as [[] [] [] [] [] [] [] []]; try reflexivity; destruct Hsig. }
  rewrite Hsign. simpl. rewrite H1, H2. first [reflexivity | f_equal; lia].
Qed.

(** *** One step of the matcher for each form of pattern *)

Section Pasos.
Context {A : Type}.
Implicit Types (k : Re.caps -> option ascii -> string -> option A).

Lemma rmatch_cat r1 r2 cs prev s k :
  Re.rmatch (Re.Cat r1 r2) cs prev s k
  = Re.rmatch r1 cs prev s (fun cs' prev' s' => Re.rmatch r2 cs' prev' s' k).
Proof. reflexivity. Qed.

Lemma rmatch_chr p cs prev s k :
  Re.rmatch (Re.Chr p) cs prev s k
  = match s with
    | String c s' => if p c then k cs (Some c) s' else None
    | EmptyString => None
    end.
Proof. reflexivity. Qed.

Lemma rmatch_bol ml cs prev s k :
  Re.rmatch (Re.Bol ml) cs prev s k
  = if Re.at_bol ml prev then k cs prev s else None.
Proof. reflexivity. Qed.

Lemma rmatch_group i r cs prev s k :
  Re.rmatch (Re.Group i r) cs prev s k
  = Re.rmatch r cs prev s
      (fun cs' prev' s' =>
         k ((i, Py.take (String.length s - String.length s') s) :: cs') prev' s').
Proof. reflexivity. Qed.

Lemma rmatch_star greedy r cs prev s k :
  Re.rmatch (Re.Star greedy r) cs prev s k
  = bucle_estrella greedy r k (S (String.length s)) cs prev s.
Proof. reflexivity. Qed.

(** A greedy run of white space before a continuation that ignores the
    previous character and refuses white space: the continuation is reached
    after all the white space. *)
Lemma bucle_espacios k :
  (forall cs p p' u, k cs p u = k cs p' u) ->
  (forall cs p w u, Py.isspace w = true -> k cs p (String w u) = None) ->
  forall t n cs prev,
    (String.length t < n)%nat ->
    bucle_estrella true Re.s k n cs prev t = k cs prev (Py.lstrip t).
Proof.
  intros Hprev Hesp. induction t as [|c t IH]; intros n cs prev Hn.
  - destruct n as [|n]; [lia|]. reflexivity.
  - destruct n as [|n]; [simpl in Hn; lia|].
    cbn [bucle_estrella]. unfold Re.s at 1. rewrite rmatch_chr.
    cbn [Py.lstrip].
    destruct (Py.isspace c) eqn:Hc.
    + assert (Hlt : (String.length t <? String.length (String c t))%nat = true).
      { apply Nat.ltb_lt. simpl. lia. }
      rewrite Hlt.
      change ((fix loop (n0 : nat) (cs0 : Re.caps) (prev0 : option ascii)
                 (s : string) {struct n0} : option A := _) n cs (Some c) t)
        with (bucle_estrella true Re.s k n cs (Some c) t).
      rewrite IH by (simpl in Hn; lia).
      rewrite (Hprev cs (Some c) prev).
      destruct (k cs prev (Py.lstrip t)); [reflexivity|].
      apply Hesp, Hc.
    + reflexivity.
Qed.

End Pasos.

Lemma length_lstrip (u : string) : (String.length (Py.lstrip u) <= String.length u)%nat.
Proof.
  induction u as [|c u IH]; simpl; [lia|].
  destruct (Py.isspace c); simpl; lia.
Qed.

Lemma token_caballo_no_decimal (es_letra : ascii -> bool) (c : ascii) (s : string) :
  Py.isdecimal c = false -> token_caballo es_letra (String c s) = None.
Proof. intros H. unfold token_caballo. destruct s; [reflexivity|]. rewrite H. reflexivity. Qed.

(** No horse token starts inside the white space that precedes a letter,
    nor at that letter. *)
Lemma tokens_tras_espacios (l : ascii) (t : string) :
  Re.is_letter_i l = true ->
  forall (u : string) (b : bool),
    Py.lstrip u = String l t ->
    tokens_caballo Re.is_letter_i b u = tokens_caballo Re.is_letter_i false t.
Proof.
  intros Hl. destruct (letra_hechos l Hl) as (Hls & Hld & Hln).
  induction u as [|c u IH]; intros b Hu; [discriminate Hu|].
  cbn [Py.lstrip] in Hu. cbn [tokens_caballo].
  destruct (Py.isspace c) eqn:Hc.
  - destruct (espacio_hechos c Hc) as (Hcd & _).
    rewrite (token_caballo_no_decimal _ _ _ Hcd).
    destruct b; apply IH, Hu.
  - injection Hu as -> ->.
    rewrite (token_caballo_no_decimal _ _ _ Hld), Hln.
    destruct b; reflexivity.
Qed.

(** A match of [patron_caballo] at the front of [s] is a horse token at a
    line start, and the other way round. *)
Lemma match_here_caballo (pos : nat) (prev : option ascii) (s : string) :
  match Re.match_here patron_caballo pos prev s with
  | None =>
      (if Re.at_bol true prev then token_caballo Re.is_letter_i s else None) = None
  | Some m =>
      Re.at_bol true prev = true
      /\ token_caballo Re.is_letter_i s = Some (int_grupo 1 m)
      /\ Py.is_empty (Re.m_text m) = false
      /\ (String.length (Re.m_rest m) < String.length s)%nat
      /\ exists c s',
           s = String c s'
           /\ tokens_caballo Re.is_letter_i (Ascii.eqb c Py.nl) s'
              = tokens_caballo Re.is_letter_i (Re.at_bol true (Re.m_prev m))
                  (Re.m_rest m)
  end.
Proof.
  unfold Re.match_here, patron_caballo. cbn [Re.cat].
  rewrite rmatch_cat, rmatch_bol.
  destruct (Re.at_bol true prev) eqn:Hbol; [|reflexivity].
  rewrite rmatch_cat, rmatch_group, rmatch_cat. unfold Re.d at 1. rewrite rmatch_chr.
  destruct s as [|d1 s1]; [reflexivity|].
  destruct (Py.isdecimal d1) eqn:Hd1;
    [|apply token_caballo_no_decimal; exact Hd1].
  unfold Re.d at 1. rewrite rmatch_chr.
  destruct s1 as [|d2 s2]; [reflexivity|].
  cbn [token_caballo]. rewrite Hd1.
  destruct (Py.isdecimal d2) eqn:Hd2; [|reflexivity].
  cbn [andb]. unfold Re.plus. rewrite !rmatch_cat. unfold Re.s at 1. rewrite rmatch_chr.
  destruct s2 as [|w s3]; [reflexivity|].
  cbn [espacios_y_letra].
  destruct (Py.isspace w) eqn:Hw; [|reflexivity].
  cbn [andb]. rewrite rmatch_star.
  rewrite bucle_espacios.
  - rewrite rmatch_chr.
    destruct (Py.lstrip s3) as [|l t] eqn:Hs3; [reflexivity|].
    destruct (Re.is_letter_i l) eqn:Hl; [|reflexivity].
    cbn [Re.m_text Re.m_rest Re.m_prev Re.m_groups].
    pose proof (length_lstrip s3) as Hlen. rewrite Hs3 in Hlen. simpl in Hlen.
    destruct (decimal_hechos d1 Hd1) as (_ & Hn1 & _).
    destruct (decimal_hechos d2 Hd2) as (_ & Hn2 & _).
    destruct (letra_hechos l Hl) as (_ & _ & Hnl).
    split; [reflexivity|split; [|split; [|split]]].
    + unfold int_grupo, Re.group_of. cbn [Re.m_groups Re.group Nat.eqb].
      replace (String.length (String d1 (String d2 (String w s3)))
               - String.length (String w s3))%nat with 2%nat by (simpl; lia).
      cbn [Py.take default from_option id].
      rewrite (int_dos_digitos d1 d2 Hd1 Hd2). reflexivity.
    + replace (String.length (String d1 (String d2 (String w s3))) - String.length t)%nat
        with (S (S (S (String.length s3 - String.length t)))) by (simpl; lia).
      reflexivity.
    + simpl. lia.
    + exists d1, (String d2 (String w s3)). split; [reflexivity|].
      rewrite Hn1. cbn [tokens_caballo]. rewrite Hn2. cbv iota.
      cbn [Re.at_bol andb]. fold Py.nl. rewrite Hnl.
      apply (tokens_tras_espacios l t Hl s3 _ Hs3).
  - intros cs p p' u. rewrite !rmatch_chr. reflexivity.
  - intros cs p x u Hx. rewrite rmatch_chr.
    destruct (espacio_hechos x Hx) as (_ & ->). reflexivity.
  - lia.
Qed.

(** The leftmost match of [patron_caballo] is the first horse token at a
    line start. *)
Lemma search_caballo (s : string) :
  forall (pos : nat) (prev : option ascii),
    match Re.search_from patron_caballo pos prev s with
    | None => tokens_caballo Re.is_letter_i (Re.at_bol true prev) s = []
    | Some m =>
        Py.is_empty (Re.m_text m) = false
        /\ (String.length (Re.m_rest m) < String.length s)%nat
        /\ tokens_caballo Re.is_letter_i (Re.at_bol true prev) s
           = int_grupo 1 m
             :: tokens_caballo Re.is_letter_i (Re.at_bol true (Re.m_prev m))
                  (Re.m_rest m)
    end.
Proof.
  induction s as [|c s IH]; intros pos prev; cbn [Re.search_from];
    pose proof (match_here_caballo pos prev) as Hm.
  - specialize (Hm ""). destruct (Re.match_here patron_caballo pos prev "") as [m|].
    + destruct Hm as (_ & _ & _ & Hlen & _). simpl in Hlen. lia.
    + reflexivity.
  - specialize (Hm (String c s)).
    destruct (Re.match_here patron_caballo pos prev (String c s)) as [m|].
    + destruct Hm as (Hbol & Htok & Hne & Hlen & c' & s' & Heq & Hint).
      injection Heq as <- <-.
      split; [exact Hne|split; [exact Hlen|]].
      cbn [tokens_caballo]. rewrite Hbol, Htok, Hint. reflexivity.
    + specialize (IH (S pos) (Some c)).
      assert (Hpaso : tokens_caballo Re.is_letter_i (Re.at_bol true prev) (String c s)
                      = tokens_caballo Re.is_letter_i (Re.at_bol true (Some c)) s).
      { cbn [tokens_caballo]. rewrite Hm. reflexivity. }
      rewrite Hpaso.
      destruct (Re.search_from patron_caballo (S pos) (Some c) s) as [m|];
        [|exact IH].
      destruct IH as (Hne & Hlen & Htok).
      split; [exact Hne|split; [simpl; lia|exact Htok]].
Qed.

(** The matches of [patron_caballo] are the horse tokens at the line
    starts, in order. *)
Lemma finditer_caballo (n : nat) :
  forall (s : string) (pos : nat) (prev : option ascii),
    (String.length s < n)%nat ->
    map (int_grupo 1) (Re.finditer_from n patron_caballo pos prev s)
    = tokens_caballo Re.is_letter_i (Re.at_bol true prev) s.
Proof.
  induction n as [|n IH]; intros s pos prev Hn; [lia|].
  cbn [Re.finditer_from].
  pose proof (search_caballo s pos prev) as Hs.
  destruct (Re.search_from patron_caballo pos prev s) as [m|];
    [|symmetry; exact Hs].
  destruct Hs as (Hne & Hlen & Htok).
  rewrite Hne, Htok. cbn [map]. rewrite IH by lia. reflexivity.
Qed.

Lemma numeros_caballos_tokens (texto : string) :
  numeros_caballos texto
  = List.filter (fun num => (1 <=? num) && (num <=? 24))
      (tokens_caballo Re.is_letter_i true texto).
Proof.
  unfold numeros_caballos, Re.finditer.
  rewrite finditer_caballo by lia. reflexivity.
Qed.

Lemma cantidad_caballos_tokens (texto : string) :
  cantidad_caballos texto = cuenta_de_tokens Re.is_letter_i texto.
Proof.
  unfold cantidad_caballos, cuenta_de_tokens.
  rewrite numeros_caballos_tokens. reflexivity.
Qed.

Lemma max_list_cota (l : list Z) (n : Z) :
  forall x, x ∈ n :: l -> x <= fold_left Z.max l n.
Proof.
  revert n. induction l as [|y l IH]; intros n x Hx; cbn [fold_left].
  - apply list_elem_of_singleton in Hx. lia.
  - apply elem_of_cons in Hx as [-> | Hx].
    + transitivity (Z.max n y); [lia|]. apply IH. left.
    + apply elem_of_cons in Hx as [-> | Hx].
      * transitivity (Z.max n y); [lia|]. apply IH. left.
      * apply IH. right. exact Hx.
Qed.

Lemma max_list_elem (l : list Z) (n : Z) : fold_left Z.max l n ∈ n :: l.
Proof.
  revert n. induction l as [|y l IH]; intros n; cbn [fold_left]; [left|].
  specialize (IH (Z.max n y)).
  apply elem_of_cons in IH as [Heq | Hin].
  - rewrite Heq. destruct (Z.max_spec n y) as [[_ ->] | [_ ->]];
      [right; left|left].
  - right. right. exact Hin.
Qed.

(** The count of a page is the largest of its token numbers within 1..24. *)
Lemma cuenta_de_tokens_maximo (es_letra : ascii -> bool) (texto : string) :
  let nums := List.filter (fun num => (1 <=? num) && (num <=? 24))
                (tokens_caballo es_letra true texto) in
  (nums = [] -> cuenta_de_tokens es_letra texto = 0)
  /\ (nums <> [] ->
      cuenta_de_tokens es_letra texto ∈ nums
      /\ forall n, n ∈ nums -> n <= cuenta_de_tokens es_letra texto).
Proof.
  intros nums. unfold cuenta_de_tokens. fold nums.
  destruct nums as [|n l]; split; try congruence.
  intros _. split; [apply max_list_elem|apply max_list_cota].
Qed.

Lemma caballos_paginas_otras (despues : list string) (num : Z) :
  (forall t m, t ∈ despues -> Re.search _PATRON_CARRERA_PDF t = Some m ->
               int_grupo 1 m <> num) ->
  forall res : gmap Z Z,
    fold_left caballos_pagina despues res !! num = res !! num.
Proof.
  induction despues as [|t despues IH]; intros Hotras res; [reflexivity|].
  cbn [fold_left]. rewrite IH.
  - unfold caballos_pagina.
    destruct (Re.search _PATRON_CARRERA_PDF t) as [m|] eqn:Hm; [|reflexivity].
    apply lookup_insert_ne. apply (Hotras t m); [left|exact Hm].
  - intros t' m' Ht'. apply Hotras. right. exact Ht'.
Qed.

Lemma caballos_paginas_claves (paginas : list string) (num : Z) :
  forall res : gmap Z Z,
    is_Some (fold_left caballos_pagina paginas res !! num)
    <-> is_Some (res !! num)
        \/ exists texto m, texto ∈ paginas
             /\ Re.search _PATRON_CARRERA_PDF texto = Some m
             /\ int_grupo 1 m = num.
Proof.
  induction paginas as [|t paginas IH]; intros res; cbn [fold_left].
  - split; [auto|]. intros [H | (texto & m & H & _)]; [exact H|inversion H].
  - rewrite IH. unfold caballos_pagina.
    destruct (Re.search _PATRON_CARRERA_PDF t) as [m|] eqn:Hm.
    + rewrite lookup_insert.
      destruct (decide (int_grupo 1 m = num)) as [Heq|Hne]; split.
      * intros _. right. exists t, m. split; [left|auto].
      * intros _. left. eexists; reflexivity.
      * intros [H | (texto & m' & Hin & Hs & Hn)]; [left; exact H|].
        right. exists texto, m'. split; [right; exact Hin|auto].
      * intros [H | (texto & m' & Hin & Hs & Hn)]; [left; exact H|].
        apply elem_of_cons in Hin as [-> | Hin].
        -- rewrite Hm in Hs. injection Hs as <-. contradiction.
        -- right. exists texto, m'. auto.
    + split.
      * intros [H | (texto & m' & Hin & Hs & Hn)]; [left; exact H|].
        right. exists texto, m'. split; [right; exact Hin|auto].
      * intros [H | (texto & m' & Hin & Hs & Hn)]; [left; exact H|].
        apply elem_of_cons in Hin as [-> | Hin]; [congruence|].
        right. exists texto, m'. auto.
Qed.

(** C7, amended.  For every page with a race header that no later page
    repeats for the same race number, the count recorded for the race is the
    largest two-digit number within 1..24 that stands at a line start and is
    followed by white space and one of the 52 letters A..Z and a..z, and 0
    when the page has no such token; the races of the result are those of
    the headers, so a page without a header contributes nothing.  The
    letters are those of [Re.is_letter_i], the class [[A-Z]] under
    [re.IGNORECASE] on the code points below 256: a lower-case letter
    counts, a letter outside A..Z and a..z does not, so that a page whose
    only candidate is "05" before U+00D1 records 0. *)
Theorem obtener_caballos_por_carrera_cuenta (paginas : list string) :
  (forall antes texto despues m,
      paginas = (antes ++ texto :: despues)%list ->
      Re.search _PATRON_CARRERA_PDF texto = Some m ->
      (forall t m', t ∈ despues -> Re.search _PATRON_CARRERA_PDF t = Some m' ->
                    int_grupo 1 m' <> int_grupo 1 m) ->
      obtener_caballos_por_carrera paginas !! int_grupo 1 m
      = Some (cuenta_de_tokens Re.is_letter_i texto))
  /\ (forall texto,
        let nums := List.filter (fun num => (1 <=? num) && (num <=? 24))
                      (tokens_caballo Re.is_letter_i true texto) in
        (nums = [] -> cuenta_de_tokens Re.is_letter_i texto = 0)
        /\ (nums <> [] ->
            cuenta_de_tokens Re.is_letter_i texto ∈ nums
            /\ forall n, n ∈ nums -> n <= cuenta_de_tokens Re.is_letter_i texto))
  /\ (forall num,
        is_Some (obtener_caballos_por_carrera paginas !! num)
        <-> exists texto m, texto ∈ paginas
              /\ Re.search _PATRON_CARRERA_PDF texto = Some m
              /\ int_grupo 1 m = num)
  /\ obtener_caballos_por_carrera ejemplo_pagina_enie !! 1 = Some 0.
Proof.
  split; [|split; [|split]]; [| | |vm_compute; reflexivity].
  - intros antes texto despues m -> Hm Hotras.
    unfold obtener_caballos_por_carrera.
    rewrite fold_left_app. cbn [fold_left].
    rewrite (caballos_paginas_otras despues _ Hotras).
    unfold caballos_pagina at 1. rewrite Hm, lookup_insert_eq.
    rewrite cantidad_caballos_tokens. reflexivity.
  - intros texto. apply cuenta_de_tokens_maximo.
  - intros num. unfold obtener_caballos_por_carrera.
    rewrite caballos_paginas_claves. rewrite lookup_empty. split.
    + intros [[x H] | H]; [discriminate H|exact H].
    + intros H. right. exact H.
Qed.

Lemma obtener_caballos_por_carrera_cuenta_witness :
  obtener_caballos_por_carrera ejemplo_programa !! 1 = Some 3
  /\ cuenta_de_tokens Re.is_letter_i
       (unir_lineas ["1a - Premio UNO - 14:05 hs."; "no hay caballos"]) = 0
  /\ (cuenta_de_tokens Re.is_letter_i
        (unir_lineas ["1a - Premio UNO - 14:05 hs."; "01 ALFA"; "05 BETA"])
      ∈ [1; 5]
      /\ forall n, n ∈ [1; 5] ->
           n <= cuenta_de_tokens Re.is_letter_i
                  (unir_lineas ["1a - Premio UNO - 14:05 hs."; "01 ALFA"; "05 BETA"])).
Proof.
  split; [|split].
  - destruct (Re.search _PATRON_CARRERA_PDF
                (unir_lineas ["1a - Premio UNO - 14:05 hs."; "03 gamma"]))
      as [m|] eqn:Hm; [|vm_compute in Hm; discriminate Hm].
    assert (Hnum : int_grupo 1 m = 1).
    { vm_compute in Hm. injection Hm as <-. vm_compute. reflexivity. }
    rewrite <- Hnum.
    rewrite (proj1 (obtener_caballos_por_carrera_cuenta ejemplo_programa)
               [unir_lineas ["1a - Premio UNO - 14:05 hs."; "01 ALFA"; "05 BETA"]]
               (unir_lineas ["1a - Premio UNO - 14:05 hs."; "03 gamma"])
               [] m eq_refl Hm).
    + vm_compute. reflexivity.
    + intros t m' Ht. inversion Ht.
  - apply (proj1 (proj1 (proj2 (obtener_caballos_por_carrera_cuenta []))
                    (unir_lineas ["1a - Premio UNO - 14:05 hs."; "no hay caballos"]))).
    vm_compute. reflexivity.
  - apply (proj2 (proj1 (proj2 (obtener_caballos_por_carrera_cuenta []))
                    (unir_lineas ["1a - Premio UNO - 14:05 hs."; "01 ALFA"; "05 BETA"]))).
    vm_compute. discriminate.
Defined.

(** C7 as stated fails twice.  A token followed by a lower-case letter is
    counted, since the pattern is compiled with [re.IGNORECASE]; and when
    two pages carry the same race number, the count of the later page
    replaces the count of the earlier one. *)
Lemma obtener_caballos_por_carrera_contraejemplo :
  ~ (forall paginas texto m,
        texto ∈ paginas -> Re.search _PATRON_CARRERA_PDF texto = Some m ->
        obtener_caballos_por_carrera paginas !! int_grupo 1 m
        = Some (cuenta_de_tokens Py.isupper_ascii texto))
  /\ ~ (forall paginas texto m,
          texto ∈ paginas -> Re.search _PATRON_CARRERA_PDF texto = Some m ->
          obtener_caballos_por_carrera paginas !! int_grupo 1 m
          = Some (cuenta_de_tokens Re.is_letter_i texto)).
Proof.
  split; intros H.
  - destruct (Re.search _PATRON_CARRERA_PDF
                (unir_lineas ["1a - Premio UNO - 14:05 hs."; "03 gamma"]))
      as [m|] eqn:Hm; [|vm_compute in Hm; discriminate Hm].
    specialize (H ejemplo_programa _ m ltac:(right; left) Hm).
    vm_compute in Hm. injection Hm as <-. vm_compute in H. discriminate H.
  - destruct (Re.search _PATRON_CARRERA_PDF
                (unir_lineas ["1a - Premio UNO - 14:05 hs."; "01 ALFA"; "05 BETA"]))
      as [m|] eqn:Hm; [|vm_compute in Hm; discriminate Hm].
    specialize (H ejemplo_programa _ m ltac:(left) Hm).
    vm_compute in Hm. injection Hm as <-. vm_compute in H. discriminate H.
Qed.

(** * Further properties *)

(** ** Bounds of the horse count *)

Lemma cantidad_caballos_cotas (texto : string) :
  0 <= cantidad_caballos texto <= 24.
Proof.
  unfold cantidad_caballos.
  destruct (numeros_caballos texto) as [|n l] eqn:Hn; [lia|].
  pose proof (max_list_elem l n) as Hin. cbn [Py.max_list].
  rewrite <- Hn in Hin. unfold numeros_caballos in Hin.
  apply list_elem_of_In, filter_In in Hin as [_ Hin].
  apply andb_true_iff in Hin as [H1 H2]. lia.
Qed.

Lemma caballos_por_carrera_acotados (paginas : list string) (num n : Z) :
  obtener_caballos_por_carrera paginas !! num = Some n -> 0 <= n <= 24.
Proof.
  unfold obtener_caballos_por_carrera.
  assert (Hgen : forall res : gmap Z Z,
            (forall k v, res !! k = Some v -> 0 <= v <= 24) ->
            forall k v, fold_left caballos_pagina paginas res !! k = Some v ->
                        0 <= v <= 24).
  { induction paginas as [|t paginas IH]; intros res Hres; [exact Hres|].
    cbn [fold_left]. apply IH. intros k v. unfold caballos_pagina.
    destruct (Re.search _PATRON_CARRERA_PDF t) as [m|]; [|apply Hres].
    rewrite lookup_insert. destruct (decide (int_grupo 1 m = k)).
    - intros [= <-]. apply cantidad_caballos_cotas.
    - apply Hres. }
  apply Hgen. intros k v H. rewrite lookup_empty in H. discriminate H.
Qed.

(** X1.  Every horse count that [obtener_caballos_por_carrera] records lies
    between 0 and 24. *)
Theorem obtener_caballos_por_carrera_cotas (paginas : list string) (num n : Z) :
  obtener_caballos_por_carrera paginas !! num = Some n -> 0 <= n <= 24.
Proof. apply caballos_por_carrera_acotados. Qed.

Lemma obtener_caballos_por_carrera_cotas_witness :
  0 <= 3 <= 24.
Proof.
  apply (obtener_caballos_por_carrera_cotas ejemplo_programa 1 3).
  vm_compute. reflexivity.
Defined.

(** ** White space and letter case *)

Lemma lstrip_inicio (s : string) :
  match Py.lstrip s with
  | String c _ => Py.isspace c = false
  | EmptyString => True
  end.
Proof.
  induction s as [|c s IH]; simpl; [exact I|].
  destruct (Py.isspace c) eqn:Hc; [exact IH|exact Hc].
Qed.

Lemma rstrip_rstrip (s : string) : Py.rstrip (Py.rstrip s) = Py.rstrip s.
Proof.
  induction s as [|c s IH]; [reflexivity|].
  cbn [Py.rstrip]. cbv zeta.
  destruct (Py.isspace c && Py.is_empty (Py.rstrip s)) eqn:Hc; [reflexivity|].
  cbn [Py.rstrip]. cbv zeta. rewrite IH, Hc. reflexivity.
Qed.

Lemma strip_strip (s : string) : Py.strip (Py.strip s) = Py.strip s.
Proof.
  unfold Py.strip. pose proof (lstrip_inicio s) as Hini.
  destruct (Py.lstrip s) as [|c t]; [reflexivity|].
  assert (Hl : Py.lstrip (Py.rstrip (String c t)) = Py.rstrip (String c t)).
  { cbn [Py.rstrip]. cbv zeta. rewrite Hini. cbn [andb Py.lstrip].
    rewrite Hini. reflexivity. }
  rewrite Hl. apply rstrip_rstrip.
Qed.

Lemma upper_char_hechos (c : ascii) :
  Py.isspace (Py.upper_char c) = Py.isspace c
  /\ Py.upper_char (Py.upper_char c) = Py.upper_char c
  /\ Py.upper_char (Py.lower_char c) = Py.upper_char c.
Proof. por_caracter c. Qed.

Lemma lstrip_map_chars (f : ascii -> ascii) (s : string) :
  (forall c, Py.isspace (f c) = Py.isspace c) ->
  Py.lstrip (Py.map_chars f s) = Py.map_chars f (Py.lstrip s).
Proof.
  intros Hf. induction s as [|c s IH]; [reflexivity|].
  cbn [Py.map_chars Py.lstrip]. rewrite Hf.
  destruct (Py.isspace c); [exact IH|reflexivity].
Qed.

Lemma rstrip_map_chars (f : ascii -> ascii) (s : string) :
  (forall c, Py.isspace (f c) = Py.isspace c) ->
  Py.rstrip (Py.map_chars f s) = Py.map_chars f (Py.rstrip s).
Proof.
  intros Hf. induction s as [|c s IH]; [reflexivity|].
  cbn [Py.map_chars Py.rstrip]. cbv zeta. rewrite IH, Hf.
  assert (He : Py.is_empty (Py.map_chars f (Py.rstrip s)) = Py.is_empty (Py.rstrip s)).
  { destruct (Py.rstrip s); reflexivity. }
  rewrite He.
  destruct (Py.isspace c && Py.is_empty (Py.rstrip s)); reflexivity.
Qed.

Lemma strip_map_chars (f : ascii -> ascii) (s : string) :
  (forall c, Py.isspace (f c) = Py.isspace c) ->
  Py.strip (Py.map_chars f s) = Py.map_chars f (Py.strip s).
Proof.
  intros Hf. unfold Py.strip.
  rewrite lstrip_map_chars, rstrip_map_chars by exact Hf. reflexivity.
Qed.

Lemma map_chars_map_chars (f g : ascii -> ascii) (s : string) :
  Py.map_chars f (Py.map_chars g s) = Py.map_chars (fun c => f (g c)) s.
Proof. induction s as [|c s IH]; [reflexivity|]. simpl. rewrite IH. reflexivity. Qed.

Lemma map_chars_ext (f g : ascii -> ascii) (s : string) :
  (forall c, f c = g c) -> Py.map_chars f s = Py.map_chars g s.
Proof.
  intros H. induction s as [|c s IH]; [reflexivity|]. simpl. rewrite H, IH. reflexivity.
Qed.

(** X2.  The race-range expander gives the same races whatever the letter
    case of the expression and whatever white space surrounds it. *)
Theorem _expandir_race_map_mayusculas_y_espacios (race_map : string) :
  _expandir_race_map (Py.upper race_map) = _expandir_race_map race_map
  /\ _expandir_race_map (Py.lower race_map) = _expandir_race_map race_map
  /\ _expandir_race_map (Py.strip race_map) = _expandir_race_map race_map.
Proof.
  assert (Hkey : forall a b, Py.upper (Py.strip a) = Py.upper (Py.strip b) ->
                             _expandir_race_map a = _expandir_race_map b).
  { intros a b H. unfold _expandir_race_map. rewrite H. reflexivity. }
  split; [|split]; apply Hkey.
  - unfold Py.upper. rewrite strip_map_chars by apply upper_char_hechos.
    rewrite map_chars_map_chars. apply map_chars_ext. apply upper_char_hechos.
  - unfold Py.upper, Py.lower. rewrite strip_map_chars by (intros c; por_caracter c).
    rewrite map_chars_map_chars. apply map_chars_ext. apply upper_char_hechos.
  - rewrite strip_strip. reflexivity.
Qed.

(** X3.  White space around a monetary token does not change the amount
    read from it. *)
Theorem _parsear_monto_str_espacios (valor_str : string) :
  _parsear_monto_str (Py.strip valor_str) = _parsear_monto_str valor_str.
Proof.
  unfold _parsear_monto_str. rewrite strip_strip.
  destruct (Py.is_empty valor_str) eqn:Hv.
  - apply is_empty_true in Hv. subst valor_str. reflexivity.
  - destruct (Py.is_empty (Py.strip valor_str)); reflexivity.
Qed.

(** ** Sign of the amounts *)

Lemma shr_1_no_negativo (mrs : shr_record) :
  z_no_negativo (shr_m mrs) -> z_no_negativo (shr_m (shr_1 mrs)).
Proof.
  destruct mrs as [m r s]. simpl.
  destruct m as [|p|p]; [auto| |contradiction].
  destruct p; simpl; auto.
Qed.

Lemma iter_pos_shr_1 (p : positive) :
  forall mrs, z_no_negativo (shr_m mrs) ->
              z_no_negativo (shr_m (SpecFloat.iter_pos shr_1 p mrs)).
Proof.
  induction p as [p IH|p IH|]; intros mrs H; simpl.
  - apply IH, IH, shr_1_no_negativo, H.
  - apply IH, IH, H.
  - apply shr_1_no_negativo, H.
Qed.

Lemma shr_fexp_no_negativo (m e : Z) (l : location) :
  z_no_negativo m ->
  z_no_negativo (shr_m (shr_fexp Float.prec Float.emax m e l).1).
Proof.
  intros Hm. unfold shr_fexp, shr.
  assert (H0 : z_no_negativo (shr_m (shr_record_of_loc m l))).
  { destruct l as [|[]]; exact Hm. }
  destruct (Z.sub _ e); simpl; [exact H0| |exact H0].
  apply iter_pos_shr_1, H0.
Qed.

Lemma round_nearest_even_no_negativo (m : Z) (l : location) :
  z_no_negativo m -> z_no_negativo (round_nearest_even m l).
Proof.
  intros Hm. unfold round_nearest_even.
  destruct l as [|[]]; try exact Hm.
  - destruct (Z.even m); [exact Hm|]. destruct m; [exact I|exact I|contradiction].
  - destruct m; [exact I|exact I|contradiction].
Qed.

Lemma binary_round_aux_no_negativo (m e : Z) (l : location) :
  z_no_negativo m -> no_negativo (binary_round_aux Float.prec Float.emax false m e l).
Proof.
  intros Hm. unfold binary_round_aux.
  pose proof (shr_fexp_no_negativo m e l Hm) as H1.
  destruct (shr_fexp Float.prec Float.emax m e l) as [mrs' e'].
  cbn [fst] in H1.
  pose proof (round_nearest_even_no_negativo (shr_m mrs') (loc_of_shr_record mrs') H1)
    as H2.
  pose proof (shr_fexp_no_negativo _ e' loc_Exact H2) as H3.
  destruct (shr_fexp Float.prec Float.emax
              (round_nearest_even (shr_m mrs') (loc_of_shr_record mrs')) e' loc_Exact)
    as [mrs'' e''].
  cbn [fst] in H3.
  destruct (shr_m mrs''); [exact I| |contradiction].
  destruct (Z.leb e'' _); exact I.
Qed.

Lemma binary_normalize_no_negativo (m e : Z) :
  0 <= m -> no_negativo (binary_normalize Float.prec Float.emax m e false).
Proof.
  intros Hm. destruct m as [|p|p]; [exact I| |lia].
  unfold binary_normalize, binary_round.
  destruct (shl_align p e _) as [mz ez].
  apply binary_round_aux_no_negativo. exact I.
Qed.

Lemma of_decimal_no_negativo (m e10 : Z) :
  0 <= m -> no_negativo (Float.of_decimal false m e10).
Proof.
  intros Hm.
  assert (Hratio : forall n d, 0 <= n -> 0 < d -> no_negativo (Float.of_ratio false n d)).
  { intros n d Hn Hd. unfold Float.of_ratio.
    destruct (n =? 0); [exact I|].
    apply binary_normalize_no_negativo.
    set (e := Z.log2 n - Z.log2 d - 64).
    assert (Hnum : 0 <= (if e <? 0 then Z.shiftl n (- e) else n)).
    { destruct (e <? 0); [apply Z.shiftl_nonneg; exact Hn|exact Hn]. }
    assert (Hden : 0 < (if e <? 0 then d else Z.shiftl d e)).
    { destruct (e <? 0) eqn:He; [exact Hd|].
      apply Z.ltb_ge in He. rewrite Z.shiftl_mul_pow2 by exact He.
      apply Z.mul_pos_pos; [exact Hd|]. apply Z.pow_pos_nonneg; lia. }
    pose proof (Z.div_pos _ _ Hnum Hden) as Hq.
    destruct (_ mod _ =? 0); lia. }
  unfold Float.of_decimal. destruct (0 <=? e10) eqn:He.
  - apply Hratio; [|lia]. apply Z.leb_le in He.
    apply Z.mul_nonneg_nonneg; [exact Hm|]. apply Z.pow_nonneg. lia.
  - apply Hratio; [exact Hm|]. apply Z.leb_gt in He.
    apply Z.pow_pos_nonneg; lia.
Qed.

Lemma digitpart_no_negativo (s : string) :
  forall acc k b r, 0 <= acc -> Py.digitpart acc k b s = Some r -> 0 <= r.1.
Proof.
  induction s as [|x s IH]; simpl; intros acc k b r Hacc H.
  - destruct b; [|discriminate]. injection H as <-. exact Hacc.
  - destruct (Py.isdecimal x) eqn:Hx.
    + eapply IH; [|exact H].
      assert (0 <= Py.digit_val x) by (revert Hx; por_caracter x).
      lia.
    + destruct (Ascii.eqb x "_"); [|discriminate].
      destruct b; [|discriminate]. eapply IH; [|exact H]. exact Hacc.
Qed.

Lemma significand_no_negativo (s : string) (m : Z) (k : nat) :
  Float.significand s = Some (m, k) -> 0 <= m.
Proof.
  unfold Float.significand.
  destruct (Float.break Float.is_point s) as [ip rest].
  assert (H0 : forall t r, Py.digitpart 0 0 false t = Some r -> 0 <= r.1).
  { intros t r. apply digitpart_no_negativo. lia. }
  destruct rest as [|c fp].
  - destruct (Py.digitpart 0 0 false ip) as [[n j]|] eqn:Hd; [|discriminate].
    intros [= <- _]. apply (H0 _ _ Hd).
  - destruct ip as [|i ip], fp as [|f fp]; try discriminate.
    + intros H. apply (H0 _ _ H).
    + destruct (Py.digitpart 0 0 false (String i ip)) as [[n j]|] eqn:Hd; [|discriminate].
      intros [= <- _]. apply (H0 _ _ Hd).
    + destruct (Py.digitpart 0 0 false (String i ip)) as [[n j]|] eqn:Hd; [|discriminate].
      intros H. apply (digitpart_no_negativo _ _ _ _ _ (H0 _ _ Hd) H).
Qed.

Lemma float_no_negativo (t : string) (v : spec_float) :
  Py.all_chars es_digito_o_punto t = true ->
  Float.float t = Some v -> no_negativo v.
Proof.
  intros Hall. destruct t as [|c u]; [discriminate|].
  rewrite (float_digitos_y_puntos c u Hall).
  destruct (Float.significand (String c u)) as [[m k]|] eqn:Hs; [|discriminate].
  intros [= <-]. apply of_decimal_no_negativo.
  apply (significand_no_negativo _ _ _ Hs).
Qed.

Lemma replace_coma_cons (c : ascii) (s : string) :
  Py.replace "," "." (String c s)
  = if Ascii.eqb "," c then String "." (Py.replace "," "." s)
    else String c (Py.replace "," "." s).
Proof.
  unfold Py.replace. simpl. rewrite andb_true_r.
  destruct (Ascii.eqb "," c); reflexivity.
Qed.

Lemma decimal_es_digito (c : ascii) :
  Py.isdecimal c = true -> es_digito_o_punto c = true.
Proof. por_caracter c. Qed.

Lemma replace_coma_all (s : string) :
  Py.all_chars (fun c => Py.isdecimal c || Ascii.eqb c ",") s = true ->
  Py.all_chars es_digito_o_punto (Py.replace "," "." s) = true.
Proof.
  induction s as [|c s IH]; [reflexivity|].
  cbn [Py.all_chars]. rewrite andb_true_iff. intros [Hc Hs].
  rewrite replace_coma_cons, (Ascii.eqb_sym "," c).
  destruct (Ascii.eqb c ","); cbn [Py.all_chars]; [exact (IH Hs)|].
  rewrite orb_false_r in Hc. rewrite (decimal_es_digito c Hc). exact (IH Hs).
Qed.

Lemma parsear_monto_token (valor_str : string) (v : spec_float) :
  Py.all_chars es_monto valor_str = true ->
  _parsear_monto_str valor_str = Some v -> no_negativo v.
Proof.
  intros Hall. unfold _parsear_monto_str.
  destruct (Py.is_empty valor_str); [discriminate|].
  rewrite strip_id by (revert Hall; apply all_chars_impl; intros c; por_caracter c).
  destruct (Py.is_empty valor_str); [discriminate|].
  assert (Hsin : Py.all_chars (fun c => Py.isdecimal c || Ascii.eqb c ",")
                   (Py.replace "." "" valor_str) = true).
  { apply replace_punto_all. revert Hall. apply all_chars_impl.
    intros c. unfold es_monto, Float.is_point.
    destruct (Py.isdecimal c), (Ascii.eqb c "."), (Ascii.eqb c ","); auto. }
  assert (Hcon : Py.contains "," valor_str = false ->
                 Py.all_chars Py.isdecimal (Py.replace "." "" valor_str) = true
                 /\ Py.all_chars es_digito_o_punto valor_str = true).
  { clear Hsin. induction valor_str as [|c s IH]; [split; reflexivity|].
    cbn [Py.all_chars] in Hall. apply andb_true_iff in Hall as [Hc Hs].
    cbn [Py.contains Py.startswith]. rewrite andb_true_r.
    intros Hno. apply orb_false_iff in Hno as [Hcoma Hno].
    destruct (IH Hs Hno) as [IH1 IH2].
    rewrite replace_punto_cons. cbn [Py.all_chars]. rewrite IH2, andb_true_r.
    unfold es_monto in Hc. rewrite (Ascii.eqb_sym c ","), Hcoma, orb_false_r in Hc.
    rewrite (Ascii.eqb_sym "." c).
    destruct (Ascii.eqb c ".") eqn:Hp.
    - split; [exact IH1|]. unfold es_digito_o_punto, Float.is_point.
      rewrite Hp. apply orb_true_r.
    - rewrite orb_false_r in Hc. cbn [Py.all_chars]. rewrite Hc, IH1.
      split; [reflexivity|]. apply decimal_es_digito, Hc. }
  destruct (Py.contains "," valor_str) eqn:Hcoma.
  - apply float_no_negativo, replace_coma_all, Hsin.
  - destruct (Hcon eq_refl) as [Hdec Hdp].
    assert (Hdec' : Py.all_chars es_digito_o_punto (Py.replace "." "" valor_str) = true).
    { revert Hdec. apply all_chars_impl, decimal_es_digito. }
    destruct (Py.contains "." valor_str); [|apply float_no_negativo, Hdp].
    destruct (_ && _ && _); [|apply float_no_negativo, Hdp].
    destruct (Float.float (Py.replace "." "" valor_str)) as [w|] eqn:Hw;
      [|apply float_no_negativo, Hdp].
    intros [= <-]. apply (float_no_negativo _ _ Hdec' Hw).
Qed.

(** X4.  A token made of digits, periods and commas, which is all that the
    patterns of the program capture as an amount, never parses to a negative
    value nor to NaN. *)
Theorem _parsear_monto_str_no_negativo (valor_str : string) (v : spec_float) :
  Py.all_chars es_monto valor_str = true ->
  _parsear_monto_str valor_str = Some v -> no_negativo v.
Proof. apply parsear_monto_token. Qed.

Lemma _parsear_monto_str_no_negativo_witness :
  exists v, _parsear_monto_str "1.000,50" = Some v /\ no_negativo v.
Proof.
  eexists; split; [vm_compute; reflexivity|].
  apply (_parsear_monto_str_no_negativo "1.000,50"); vm_compute; reflexivity.
Defined.

(** ** The comparison of two structures *)

Lemma flat_map_nil_inv {A B : Type} (f : A -> list B) (l : list A) :
  flat_map f l = [] -> forall x, x ∈ l -> f x = [].
Proof.
  induction l as [|y l IH]; simpl; intros H x Hx; [inversion Hx|].
  apply app_eq_nil in H as [Hy Hl].
  apply elem_of_cons in Hx as [-> | Hx]; auto.
Qed.

Lemma abs_binary_round (s : bool) (m : positive) (e : Z) :
  SFabs (binary_round Float.prec Float.emax s m e)
  = SFabs (binary_round Float.prec Float.emax false m e).
Proof.
  unfold binary_round. destruct (shl_align m e _) as [mz ez].
  unfold binary_round_aux.
  destruct (shr_fexp Float.prec Float.emax (Z.pos mz) ez loc_Exact) as [mrs' e'].
  destruct (shr_fexp Float.prec Float.emax _ e' loc_Exact) as [mrs'' e''].
  destruct (shr_m mrs''); [reflexivity| |reflexivity].
  destruct (Z.leb e'' _); reflexivity.
Qed.

Lemma abs_binary_normalize_opp (m e : Z) :
  SFabs (binary_normalize Float.prec Float.emax (- m) e false)
  = SFabs (binary_normalize Float.prec Float.emax m e false).
Proof.
  destruct m as [|p|p]; simpl; [reflexivity| |];
    rewrite (abs_binary_round true); reflexivity.
Qed.

Lemma resta_opuesta (a b : Z) : b - a = - (a - b).
Proof. lia. Qed.

Lemma abs_sub_sym (a b : spec_float) :
  Float.abs (Float.sub a b) = Float.abs (Float.sub b a).
Proof.
  unfold Float.abs, Float.sub.
  destruct a as [sa|sa| |sa ma ea], b as [sb|sb| |sb mb eb];
    try reflexivity; try (destruct sa; reflexivity); try (destruct sb; reflexivity);
    try (destruct sa, sb; reflexivity).
  unfold SFsub. cbv zeta.
  assert (Hmin : Z.min eb ea = Z.min ea eb) by apply Z.min_comm.
  match goal with
  | |- _ = SFabs (binary_normalize _ _ _ ?e _) => change e with (Z.min eb ea)
  end.
  rewrite Hmin.
  match goal with
  | |- SFabs (binary_normalize _ _ ?x _ _) = SFabs (binary_normalize _ _ ?y _ _) =>
      assert (Hxy : y = - x) by apply resta_opuesta
  end.
  rewrite Hxy. symmetry. apply abs_binary_normalize_opp.
Qed.

Lemma supera_tolerancia_sym (a b : spec_float) :
  supera_tolerancia a b = supera_tolerancia b a.
Proof. unfold supera_tolerancia. rewrite (abs_sub_sym a b). reflexivity. Qed.

Lemma valores_compatibles_sym (vp vr : option spec_float) :
  valores_compatibles vp vr -> valores_compatibles vr vp.
Proof.
  destruct vp as [a|], vr as [b|]; simpl; auto.
  rewrite (supera_tolerancia_sym b a). auto.
Qed.

Lemma carreras_coinciden_sym (p r : carrera) :
  carreras_coinciden p r -> carreras_coinciden r p.
Proof.
  intros (Hc & Hd & Hv). split; [|split]; [congruence|congruence|].
  intros c Hin Hno. apply valores_compatibles_sym, Hv; [rewrite Hd|]; assumption.
Qed.

Lemma comparar_valor_nil (n : Z) (c : string) (vp vr : option spec_float) :
  comparar_valor n c vp vr = []
  <-> (c ∉ apuestas_sin_comparar_valor -> valores_compatibles vp vr).
Proof.
  unfold comparar_valor.
  destruct (bool_decide_reflect (c ∈ apuestas_sin_comparar_valor)) as [Hin|Hno].
  - split; [intros _ Hno; contradiction|reflexivity].
  - destruct vp as [a|], vr as [b|]; simpl.
    + destruct (supera_tolerancia a b); split; auto; try discriminate.
      intros H. specialize (H Hno). discriminate.
    + split; [discriminate|]. intros H. destruct (H Hno).
    + split; [discriminate|]. intros H. destruct (H Hno).
    + split; auto.
Qed.

Lemma comparar_carrera_nil (datos_pdf datos_reporte : gmap Z carrera) (n : Z) :
  comparar_carrera datos_pdf datos_reporte n = []
  <-> exists p r, datos_pdf !! n = Some p /\ datos_reporte !! n = Some r
                  /\ carreras_coinciden p r.
Proof.
  unfold comparar_carrera.
  destruct (datos_pdf !! n) as [p|] eqn:Hp.
  2:{ split; [discriminate|]. intros (p & r & H & _). discriminate. }
  destruct (datos_reporte !! n) as [r|] eqn:Hr.
  2:{ split; [discriminate|]. intros (p' & r' & _ & H & _). discriminate. }
  split.
  - intros H.
    apply app_eq_nil in H as [H1 H]. apply app_eq_nil in H as [H2 H].
    apply app_eq_nil in H as [H3 H4].
    exists p, r. split; [reflexivity|]. split; [reflexivity|].
    destruct (bool_decide_reflect (caballos p = caballos r)) as [Hc|]; [|discriminate].
    destruct (bool_decide_reflect (dom (apuestas p) ∖ dom (apuestas r) = ∅))
      as [Hs1|]; [|discriminate].
    destruct (bool_decide_reflect (dom (apuestas r) ∖ dom (apuestas p) = ∅))
      as [Hs2|]; [|discriminate].
    assert (Hdom : dom (apuestas p) = dom (apuestas r)).
    { apply set_eq. intros c. split; intros Hc'.
      - destruct (decide (c ∈ dom (apuestas r))) as [|Hn]; [assumption|].
        assert (Hx : c ∈ dom (apuestas p) ∖ dom (apuestas r))
          by (apply elem_of_difference; auto).
        rewrite Hs1 in Hx. apply elem_of_empty in Hx. contradiction.
      - destruct (decide (c ∈ dom (apuestas p))) as [|Hn]; [assumption|].
        assert (Hx : c ∈ dom (apuestas r) ∖ dom (apuestas p))
          by (apply elem_of_difference; auto).
        rewrite Hs2 in Hx. apply elem_of_empty in Hx. contradiction. }
    split; [exact Hc|]. split; [exact Hdom|].
    intros c Hin Hno.
    apply (comparar_valor_nil n c); [|exact Hno].
    apply (flat_map_nil_inv _ _ H4 c).
    apply elem_of_elements, elem_of_intersection. rewrite <- Hdom. auto.
  - intros (p' & r' & [= <-] & [= <-] & Hc & Hd & Hv).
    rewrite (bool_decide_eq_true_2 _ Hc), Hd, difference_diag_L.
    rewrite (bool_decide_eq_true_2 (∅ = ∅)) by reflexivity.
    cbn [List.app]. apply flat_map_nil. intros c Hin.
    apply comparar_valor_nil. intros Hno. apply Hv; [|exact Hno].
    apply elem_of_elements, elem_of_intersection in Hin as [_ Hin].
    rewrite Hd. exact Hin.
Qed.

Lemma comparar_datos_vacio (datos_pdf datos_reporte : gmap Z carrera) :
  (comparar_datos datos_pdf datos_reporte).2 = []
  <-> dom datos_pdf = dom datos_reporte
      /\ forall n p r, datos_pdf !! n = Some p -> datos_reporte !! n = Some r ->
                       carreras_coinciden p r.
Proof.
  unfold comparar_datos. cbn [snd]. split.
  - intros H.
    assert (Hn : forall n, n ∈ dom datos_pdf ∪ dom datos_reporte ->
                 exists p r, datos_pdf !! n = Some p /\ datos_reporte !! n = Some r
                             /\ carreras_coinciden p r).
    { intros n Hn. apply comparar_carrera_nil.
      apply (flat_map_nil_inv _ _ H n).
      apply elem_of_sorted, elem_of_elements, Hn. }
    split.
    + apply set_eq. intros n. split; intros Hin.
      * destruct (Hn n) as (p & r & _ & Hr & _); [apply elem_of_union; auto|].
        apply elem_of_dom. eauto.
      * destruct (Hn n) as (p & r & Hp & _ & _); [apply elem_of_union; auto|].
        apply elem_of_dom. eauto.
    + intros n p r Hp Hr.
      destruct (Hn n) as (p' & r' & Hp' & Hr' & Hco).
      { apply elem_of_union. left. apply elem_of_dom. eauto. }
      congruence.
  - intros [Hdom Hco]. apply flat_map_nil. intros n Hn.
    apply elem_of_sorted, elem_of_elements in Hn.
    rewrite <- Hdom, union_idemp_L in Hn.
    apply comparar_carrera_nil.
    pose proof Hn as Hn'. rewrite Hdom in Hn'.
    apply elem_of_dom in Hn as [p Hp]. apply elem_of_dom in Hn' as [r Hr].
    exists p, r. eauto.
Qed.

Lemma comparar_datos_veredicto (datos_pdf datos_reporte : gmap Z carrera) :
  (comparar_datos datos_pdf datos_reporte).1 = true
  <-> (comparar_datos datos_pdf datos_reporte).2 = [].
Proof.
  unfold comparar_datos. cbn [fst snd].
  rewrite bool_decide_eq_true. apply length_zero_iff_nil.
Qed.

(** X5.  The comparison answers that everything matches exactly when both
    structures have the same races and, in every race, the same number of
    horses, the same bet codes and, for every code other than GAN, SEG and
    TER, amounts that are both unknown or both known and within the
    tolerance. *)
Theorem comparar_datos_coincide (datos_pdf datos_reporte : gmap Z carrera) :
  (comparar_datos datos_pdf datos_reporte).1 = true
  <-> dom datos_pdf = dom datos_reporte
      /\ forall n p r, datos_pdf !! n = Some p -> datos_reporte !! n = Some r ->
                       carreras_coinciden p r.
Proof. rewrite comparar_datos_veredicto. apply comparar_datos_vacio. Qed.

(** X6.  The verdict does not depend on which structure is given first. *)
Theorem comparar_datos_simetrico (a b : gmap Z carrera) :
  (comparar_datos a b).1 = (comparar_datos b a).1.
Proof.
  assert (H : forall x y, (comparar_datos x y).1 = true ->
                          (comparar_datos y x).1 = true).
  { intros x y. rewrite !comparar_datos_veredicto, !comparar_datos_vacio.
    intros [Hd Hc]. split; [congruence|].
    intros n p r Hp Hr. apply carreras_coinciden_sym, (Hc n); assumption. }
  destruct (comparar_datos a b).1 eqn:Hab.
  - symmetry. apply H, Hab.
  - destruct (comparar_datos b a).1 eqn:Hba; [|reflexivity].
    rewrite (H _ _ Hba) in Hab. discriminate.
Qed.

Lemma StronglySorted_flat_map {A : Type} (g : A -> Z) (f : Z -> list A) (l : list Z) :
  (forall x d, d ∈ f x -> g d = x) ->
  StronglySorted Z.le l -> StronglySorted Z.le (map g (flat_map f l)).
Proof.
  intros Hg. induction 1 as [|x l Hl IH Hx]; simpl; [constructor|].
  rewrite map_app.
  assert (Hfx : forall m, m ∈ map g (f x) -> m = x).
  { intros m Hm. apply list_elem_of_fmap in Hm as (d & -> & Hd). apply Hg, Hd. }
  assert (Hrest : forall m, m ∈ map g (flat_map f l) -> x <= m).
  { intros m Hm. apply list_elem_of_fmap in Hm as (d & -> & Hd).
    apply elem_of_flat_map in Hd as (y & Hy & Hd).
    rewrite (Hg y d Hd). rewrite Forall_forall in Hx. apply Hx, Hy. }
  induction (map g (f x)) as [|m ms IHm]; simpl; [exact IH|].
  constructor.
  - apply IHm. intros m' Hm'. apply Hfx. right. exact Hm'.
  - rewrite Forall_forall. intros m' Hm'.
    rewrite (Hfx m) by left.
    apply elem_of_app in Hm' as [Hm' | Hm'].
    + rewrite (Hfx m'); [lia|]. right. exact Hm'.
    + apply Hrest, Hm'.
Qed.

Lemma sorted_StronglySorted (l : list Z) : StronglySorted Z.le (sorted l).
Proof.
  apply Sorted_StronglySorted; [intros x y z; lia|].
  unfold sorted. apply Sorted_merge_sort. intros x y. lia.
Qed.

(** X7.  The discrepancies are listed by race in ascending order, and each
    one is about a race of one of the two structures. *)
Theorem comparar_datos_orden (datos_pdf datos_reporte : gmap Z carrera) :
  StronglySorted Z.le (map carrera_de (comparar_datos datos_pdf datos_reporte).2)
  /\ forall d, d ∈ (comparar_datos datos_pdf datos_reporte).2 ->
               carrera_de d ∈ dom datos_pdf ∪ dom datos_reporte.
Proof.
  unfold comparar_datos. cbn [snd]. split.
  - apply StronglySorted_flat_map; [|apply sorted_StronglySorted].
    intros n d. apply comparar_carrera_de.
  - intros d Hd. apply elem_of_flat_map in Hd as (n & Hn & Hd).
    rewrite (comparar_carrera_de _ _ _ _ Hd).
    apply elem_of_sorted, elem_of_elements in Hn. exact Hn.
Qed.

Lemma diferencias_de_todas (n : Z) (ds : list diferencia) :
  (forall d, d ∈ ds -> carrera_de d = n) -> diferencias_de n ds = ds.
Proof.
  unfold diferencias_de. induction ds as [|d ds IH]; intros H; simpl; [reflexivity|].
  rewrite bool_decide_eq_true_2 by (apply H; left).
  rewrite IH; [reflexivity|]. intros d' Hd'. apply H. right. exact Hd'.
Qed.

Lemma diferencias_de_ninguna (n : Z) (ds : list diferencia) :
  (forall d, d ∈ ds -> carrera_de d <> n) -> diferencias_de n ds = [].
Proof.
  unfold diferencias_de. induction ds as [|d ds IH]; intros H; simpl; [reflexivity|].
  rewrite bool_decide_eq_false_2 by (apply H; left).
  apply IH. intros d' Hd'. apply H. right. exact Hd'.
Qed.

Lemma diferencias_de_flat_map (f : Z -> list diferencia) (n : Z) (l : list Z) :
  (forall x d, d ∈ f x -> carrera_de d = x) ->
  NoDup l -> n ∈ l -> diferencias_de n (flat_map f l) = f n.
Proof.
  intros Hf Hnd. induction Hnd as [|x l Hx Hnd IH]; intros Hn; [inversion Hn|].
  simpl. unfold diferencias_de. rewrite List.filter_app.
  fold (diferencias_de n (f x)). fold (diferencias_de n (flat_map f l)).
  destruct (decide (x = n)) as [-> | Hne].
  - rewrite diferencias_de_todas by apply Hf.
    rewrite diferencias_de_ninguna; [apply app_nil_r|].
    intros d Hd. apply elem_of_flat_map in Hd as (y & Hy & Hd).
    rewrite (Hf y d Hd). intros ->. contradiction.
  - rewrite diferencias_de_ninguna.
    + apply IH. apply elem_of_cons in Hn as [-> | Hn]; [contradiction|exact Hn].
    + intros d Hd. rewrite (Hf x d Hd). exact Hne.
Qed.

Lemma diferencias_de_comparar_datos (datos_pdf datos_reporte : gmap Z carrera) (n : Z) :
  n ∈ dom datos_pdf ∪ dom datos_reporte ->
  diferencias_de n (comparar_datos datos_pdf datos_reporte).2
  = comparar_carrera datos_pdf datos_reporte n.
Proof.
  intros Hn. unfold comparar_datos. cbn [snd].
  apply diferencias_de_flat_map.
  - intros x d. apply comparar_carrera_de.
  - unfold sorted. rewrite merge_sort_Permutation. apply NoDup_elements.
  - apply elem_of_sorted, elem_of_elements, Hn.
Qed.

(** X8.  A race that only one of the two structures has gives exactly one
    discrepancy, the one that says on which side it is missing: its horses
    and bets are not reported one by one. *)
Theorem comparar_datos_carrera_ausente (datos_pdf datos_reporte : gmap Z carrera)
    (n : Z) :
  n ∈ dom datos_pdf ∪ dom datos_reporte ->
  (datos_pdf !! n = None ->
   diferencias_de n (comparar_datos datos_pdf datos_reporte).2
   = [CarreraSoloEnReporte n])
  /\ (datos_reporte !! n = None ->
      diferencias_de n (comparar_datos datos_pdf datos_reporte).2
      = [CarreraSoloEnPdf n]).
Proof.
  intros Hn. rewrite (diferencias_de_comparar_datos _ _ n Hn).
  unfold comparar_carrera. split; intros H; rewrite H.
  - reflexivity.
  - destruct (datos_pdf !! n) eqn:Hp; [reflexivity|].
    apply elem_of_union in Hn as [Hn | Hn]; apply elem_of_dom in Hn as [x Hx];
      congruence.
Qed.

Lemma comparar_datos_carrera_ausente_witness :
  1 ∈ dom (∅ : gmap Z carrera) ∪ dom ejemplo_reporte
  /\ diferencias_de 1 (comparar_datos ∅ ejemplo_reporte).2 = [CarreraSoloEnReporte 1].
Proof.
  split; [vm_compute; reflexivity|].
  apply (comparar_datos_carrera_ausente ∅ ejemplo_reporte 1);
    [vm_compute; reflexivity|reflexivity].
Defined.

(** ** Normalisation of the raw observations *)

Lemma normalizar_apuesta_lookup (resultado : gmap Z carrera) (a : apuesta_raw) :
  exists c, normalizar_apuesta resultado a !! carrera_raw a = Some c
    /\ caballos c
       = match resultado !! carrera_raw a with
         | Some c0 => caballos c0
         | None => cantidad_raw a
         end
    /\ apuestas c
       = <[codigo_raw a := _parsear_monto_str (valor_raw a)]>
           (match resultado !! carrera_raw a with
            | Some c0 => apuestas c0
            | None => ∅
            end).
Proof.
  destruct a as [[[n cant] cod] v]. unfold normalizar_apuesta.
  cbn [carrera_raw cantidad_raw codigo_raw valor_raw fst snd].
  eexists. rewrite lookup_insert_eq. split; [reflexivity|].
  destruct (resultado !! n); split; reflexivity.
Qed.

Lemma normalizar_apuesta_otra (resultado : gmap Z carrera) (a : apuesta_raw) (n : Z) :
  carrera_raw a <> n -> normalizar_apuesta resultado a !! n = resultado !! n.
Proof.
  destruct a as [[[m cant] cod] v]. unfold normalizar_apuesta.
  cbn [carrera_raw fst]. intros H. apply lookup_insert_ne, H.
Qed.

Lemma normalizar_sin_carrera (l : list apuesta_raw) (n : Z) :
  forall acc, Forall (fun a => carrera_raw a <> n) l ->
              fold_left normalizar_apuesta l acc !! n = acc !! n.
Proof.
  induction l as [|a l IH]; intros acc H; simpl; [reflexivity|].
  apply Forall_cons in H as [Ha Hl].
  rewrite (IH _ Hl). apply normalizar_apuesta_otra, Ha.
Qed.

Lemma normalizar_conserva_cantidad (l : list apuesta_raw) (n : Z) :
  forall acc c0, acc !! n = Some c0 ->
    exists c, fold_left normalizar_apuesta l acc !! n = Some c
              /\ caballos c = caballos c0.
Proof.
  induction l as [|a l IH]; intros acc c0 H; simpl; [eauto|].
  destruct (decide (carrera_raw a = n)) as [<- | Hne].
  - destruct (normalizar_apuesta_lookup acc a) as (c & Hc & Hcab & _).
    rewrite H in Hcab. destruct (IH _ _ Hc) as (c' & Hc' & Hcab').
    exists c'. split; [exact Hc'|congruence].
  - apply IH. rewrite normalizar_apuesta_otra by exact Hne. exact H.
Qed.

Lemma normalizar_conserva_valor (l : list apuesta_raw) (n : Z) (cod : string)
    (x : option spec_float) :
  Forall (fun a => ~ (carrera_raw a = n /\ codigo_raw a = cod)) l ->
  forall acc c0, acc !! n = Some c0 -> apuestas c0 !! cod = Some x ->
    exists c, fold_left normalizar_apuesta l acc !! n = Some c
              /\ apuestas c !! cod = Some x.
Proof.
  induction l as [|a l IH]; intros Hl acc c0 H Hx; simpl; [eauto|].
  apply Forall_cons in Hl as [Ha Hl].
  destruct (decide (carrera_raw a = n)) as [<- | Hne].
  - destruct (normalizar_apuesta_lookup acc a) as (c & Hc & _ & Hap).
    rewrite H in Hap. apply (IH Hl _ _ Hc).
    rewrite Hap, lookup_insert_ne; [exact Hx|].
    intros Heq. apply Ha. auto.
  - apply (IH Hl _ c0); [|exact Hx].
    rewrite normalizar_apuesta_otra by exact Hne. exact H.
Qed.

(** X9.  The number of horses of a race is the one of its first observation:
    a later observation of the same race with another count does not change
    it. *)
Theorem _normalizar_desde_lista_apuestas_primera_cantidad
    (antes despues : list apuesta_raw) (a : apuesta_raw) :
  Forall (fun b => carrera_raw b <> carrera_raw a) antes ->
  exists c, _normalizar_desde_lista_apuestas (antes ++ a :: despues) !! carrera_raw a
            = Some c
            /\ caballos c = cantidad_raw a.
Proof.
  intros Hantes. unfold _normalizar_desde_lista_apuestas.
  rewrite fold_left_app. cbn [fold_left].
  destruct (normalizar_apuesta_lookup (fold_left normalizar_apuesta antes ∅) a)
    as (c & Hc & Hcab & _).
  rewrite (normalizar_sin_carrera _ _ _ Hantes), lookup_empty in Hcab.
  destruct (normalizar_conserva_cantidad despues _ _ _ Hc) as (c' & Hc' & Hcab').
  exists c'. split; [exact Hc'|congruence].
Qed.

Lemma _normalizar_desde_lista_apuestas_primera_cantidad_witness :
  exists c, _normalizar_desde_lista_apuestas
              ([(2, 8, "GAN", "")] ++ (1, 12, "EXA", "500") :: [(1, 14, "TRI", "300")])
            !! 1 = Some c
            /\ caballos c = 12.
Proof.
  apply (_normalizar_desde_lista_apuestas_primera_cantidad
           [(2, 8, "GAN", "")] [(1, 14, "TRI", "300")] (1, 12, "EXA", "500")).
  repeat constructor. vm_compute. discriminate.
Defined.

(** X10.  The amount of a code in a race is the parse of the token of the
    last observation of that race and code; earlier observations of the same
    code are overwritten. *)
Theorem _normalizar_desde_lista_apuestas_ultimo_valor
    (antes despues : list apuesta_raw) (a : apuesta_raw) :
  Forall (fun b => ~ (carrera_raw b = carrera_raw a /\ codigo_raw b = codigo_raw a))
    despues ->
  exists c, _normalizar_desde_lista_apuestas (antes ++ a :: despues) !! carrera_raw a
            = Some c
            /\ apuestas c !! codigo_raw a = Some (_parsear_monto_str (valor_raw a)).
Proof.
  intros Hdespues. unfold _normalizar_desde_lista_apuestas.
  rewrite fold_left_app. cbn [fold_left].
  destruct (normalizar_apuesta_lookup (fold_left normalizar_apuesta antes ∅) a)
    as (c & Hc & _ & Hap).
  apply (normalizar_conserva_valor _ _ _ _ Hdespues _ _ Hc).
  rewrite Hap. apply lookup_insert_eq.
Qed.

Lemma _normalizar_desde_lista_apuestas_ultimo_valor_witness :
  exists c, _normalizar_desde_lista_apuestas
              ([(1, 12, "EXA", "500")] ++ (1, 12, "EXA", "1.000") :: [(1, 12, "TRI", "300")])
            !! 1 = Some c
            /\ apuestas c !! "EXA" = Some (_parsear_monto_str "1.000").
Proof.
  apply (_normalizar_desde_lista_apuestas_ultimo_valor
           [(1, 12, "EXA", "500")] [(1, 12, "TRI", "300")] (1, 12, "EXA", "1.000")).
  repeat constructor. vm_compute. intros [_ H]. discriminate.
Defined.

Lemma normalizar_claves (l : list apuesta_raw) :
  forall acc n,
    n ∈ dom (fold_left normalizar_apuesta l acc)
    <-> n ∈ dom acc \/ exists a, a ∈ l /\ carrera_raw a = n.
Proof.
  induction l as [|a l IH]; intros acc n; simpl.
  - split; [auto|]. intros [H | (a & Ha & _)]; [exact H|inversion Ha].
  - rewrite IH.
    assert (Hdom : n ∈ dom (normalizar_apuesta acc a)
                   <-> n ∈ dom acc \/ carrera_raw a = n).
    { destruct a as [[[m cant] cod] v]. unfold normalizar_apuesta.
      cbn [carrera_raw fst]. rewrite dom_insert_L. set_solver. }
    rewrite Hdom. split.
    + intros [[H | H] | (b & Hb & Hn)]; [auto| |].
      * right. exists a. split; [left|exact H].
      * right. exists b. split; [right; exact Hb|exact Hn].
    + intros [H | (b & Hb & Hn)]; [auto|].
      apply elem_of_cons in Hb as [-> | Hb]; [auto|].
      right. exists b. auto.
Qed.

Lemma normalizar_codigos (l : list apuesta_raw) (n : Z) (cod : string) :
  forall acc,
    cod ∈ dom (apuestas (default (Carrera 0 ∅) (fold_left normalizar_apuesta l acc !! n)))
    <-> cod ∈ dom (apuestas (default (Carrera 0 ∅) (acc !! n)))
        \/ exists a, a ∈ l /\ carrera_raw a = n /\ codigo_raw a = cod.
Proof.
  induction l as [|a l IH]; intros acc; simpl.
  - split; [auto|]. intros [H | (a & Ha & _)]; [exact H|inversion Ha].
  - rewrite IH.
    assert (Hdom : cod ∈ dom (apuestas (default (Carrera 0 ∅)
                                          (normalizar_apuesta acc a !! n)))
                   <-> cod ∈ dom (apuestas (default (Carrera 0 ∅) (acc !! n)))
                       \/ (carrera_raw a = n /\ codigo_raw a = cod)).
    { destruct (decide (carrera_raw a = n)) as [<- | Hne].
      - destruct (normalizar_apuesta_lookup acc a) as (c & Hc & _ & Hap).
        rewrite Hc. cbn [from_option id]. rewrite Hap, dom_insert_L.
        destruct (acc !! carrera_raw a); cbn [from_option id apuestas]; set_solver.
      - rewrite normalizar_apuesta_otra by exact Hne. tauto. }
    rewrite Hdom. split.
    + intros [[H | H] | (b & Hb & Hn)]; [auto| |].
      * right. exists a. split; [left|exact H].
      * right. exists b. split; [right; exact Hb|exact Hn].
    + intros [H | (b & Hb & Hn)]; [auto|].
      apply elem_of_cons in Hb as [-> | Hb]; [auto|].
      right. exists b. auto.
Qed.

(** X11.  The normalised structure has the races of the observations and no
    other, and each race has the codes observed for it and no other. *)
Theorem _normalizar_desde_lista_apuestas_claves (apuestas_raw : list apuesta_raw)
    (n : Z) :
  (n ∈ dom (_normalizar_desde_lista_apuestas apuestas_raw)
   <-> exists a, a ∈ apuestas_raw /\ carrera_raw a = n)
  /\ forall c codigo,
       _normalizar_desde_lista_apuestas apuestas_raw !! n = Some c ->
       (codigo ∈ dom (apuestas c)
        <-> exists a, a ∈ apuestas_raw /\ carrera_raw a = n /\ codigo_raw a = codigo).
Proof.
  unfold _normalizar_desde_lista_apuestas. split.
  - rewrite normalizar_claves, dom_empty_L. set_solver.
  - intros c codigo Hc.
    pose proof (normalizar_codigos apuestas_raw n codigo ∅) as H.
    rewrite Hc, lookup_empty in H. cbn [from_option id apuestas] in H.
    rewrite H, dom_empty_L. set_solver.
Qed.

(** ** The matcher returns only what the pattern recognises *)

Lemma bucle_estrella_S {A : Type} (g : bool) (r : Re.regex)
    (k : Re.caps -> option ascii -> string -> option A) (n : nat)
    (cs : Re.caps) (prev : option ascii) (s : string) :
  bucle_estrella g r k (S n) cs prev s
  = let once :=
      Re.rmatch r cs prev s
        (fun cs' prev' s' =>
           if (String.length s' <? String.length s)%nat
           then bucle_estrella g r k n cs' prev' s' else None) in
    if g then match once with Some x => Some x | None => k cs prev s end
    else match k cs prev s with Some x => Some x | None => once end.
Proof. reflexivity. Qed.

Lemma rmatch_reconoce {A : Type} (r : Re.regex) :
  forall cs prev s (k : Re.caps -> option ascii -> string -> option A) x,
    Re.rmatch r cs prev s k = Some x ->
    exists cs' prev' s', reconoce r cs prev s cs' prev' s' /\ k cs' prev' s' = Some x.
Proof.
  induction r as [|p|r1 IH1 r2 IH2|r1 IH1 r2 IH2|g r IH|m| |i r IH];
    intros cs prev s k x H.
  - exists cs, prev, s. split; [constructor|exact H].
  - destruct s as [|c s]; [discriminate|]. simpl in H.
    destruct (p c) eqn:Hp; [|discriminate].
    exists cs, (Some c), s. split; [constructor; exact Hp|exact H].
  - simpl in H. apply IH1 in H as (cs1 & prev1 & s1 & H1 & H).
    apply IH2 in H as (cs2 & prev2 & s2 & H2 & H).
    exists cs2, prev2, s2. split; [econstructor; eassumption|exact H].
  - simpl in H. destruct (Re.rmatch r1 cs prev s k) as [y|] eqn:E.
    + injection H as ->. apply IH1 in E as (cs' & prev' & s' & H1 & H).
      exists cs', prev', s'. split; [apply reconoce_alt_l; exact H1|exact H].
    + apply IH2 in H as (cs' & prev' & s' & H1 & H).
      exists cs', prev', s'. split; [apply reconoce_alt_r; exact H1|exact H].
  - rewrite rmatch_star in H.
    remember (S (String.length s)) as n eqn:En. clear En.
    revert cs prev s x H. induction n as [|n IHn]; intros cs prev s x H.
    + exists cs, prev, s. split; [constructor|exact H].
    + rewrite bucle_estrella_S in H. cbv zeta in H.
      assert (Hpaso : forall y,
                Re.rmatch r cs prev s
                  (fun cs' prev' s' =>
                     if (String.length s' <? String.length s)%nat
                     then bucle_estrella g r k n cs' prev' s' else None) = Some y ->
                exists cs' prev' s',
                  reconoce (Re.Star g r) cs prev s cs' prev' s'
                  /\ k cs' prev' s' = Some y).
      { intros y Hy. apply IH in Hy as (cs1 & prev1 & s1 & H1 & Hy).
        destruct (String.length s1 <? String.length s)%nat eqn:Hlt; [|discriminate].
        apply Nat.ltb_lt in Hlt.
        apply IHn in Hy as (cs2 & prev2 & s2 & H2 & Hy).
        exists cs2, prev2, s2. split; [|exact Hy].
        eapply reconoce_star_paso; eassumption. }
      destruct g.
      * destruct (Re.rmatch r cs prev s _) as [y|] eqn:E.
        -- injection H as ->. apply Hpaso. reflexivity.
        -- exists cs, prev, s. split; [constructor|exact H].
      * destruct (k cs prev s) as [y|] eqn:E.
        -- injection H as ->. exists cs, prev, s. split; [constructor|exact E].
        -- apply Hpaso, H.
  - simpl in H. destruct (Re.at_bol m prev) eqn:Hb; [|discriminate].
    exists cs, prev, s. split; [constructor; exact Hb|exact H].
  - simpl in H. destruct (xorb _ _) eqn:Hb; [|discriminate].
    exists cs, prev, s. split; [constructor; exact Hb|exact H].
  - simpl in H. apply IH in H as (cs' & prev' & s' & H1 & H).
    eexists _, prev', s'. split; [constructor; exact H1|exact H].
Qed.

(** ** Names of the bets *)

Lemma split_ws_lstrip (s : string) : Str.split_ws (Py.lstrip s) = Str.split_ws s.
Proof.
  induction s as [|c s IH]; [reflexivity|].
  cbn [Py.lstrip]. destruct (Py.isspace c) eqn:Hc; [|reflexivity].
  rewrite IH. cbn [Str.split_ws]. rewrite Hc. reflexivity.
Qed.

Lemma split_ws_cons (c : ascii) (s : string) :
  Str.split_ws (String c s)
  = if Py.isspace c then Str.split_ws s
    else match s with
         | EmptyString => [String c EmptyString]
         | String c' _ =>
             if Py.isspace c' then String c EmptyString :: Str.split_ws s
             else match Str.split_ws s with
                  | h :: t => String c h :: t
                  | [] => [String c EmptyString]
                  end
         end.
Proof. reflexivity. Qed.

Lemma rstrip_cons (c : ascii) (s : string) :
  Py.rstrip (String c s)
  = if Py.isspace c && Py.is_empty (Py.rstrip s) then EmptyString
    else String c (Py.rstrip s).
Proof. reflexivity. Qed.

Lemma split_ws_rstrip (s : string) : Str.split_ws (Py.rstrip s) = Str.split_ws s.
Proof.
  induction s as [|c s IH]; [reflexivity|].
  rewrite rstrip_cons, (split_ws_cons c s).
  destruct (Py.isspace c) eqn:Hc; cbn [andb].
  - destruct (Py.rstrip s) as [|d r] eqn:Hr; cbn [Py.is_empty].
    + rewrite <- IH. reflexivity.
    + rewrite split_ws_cons, Hc. exact IH.
  - rewrite split_ws_cons, Hc.
    destruct s as [|c' s']; [reflexivity|].
    rewrite rstrip_cons in *.
    destruct (Py.isspace c') eqn:Hc'; cbn [andb] in *.
    + destruct (Py.rstrip s') as [|d r] eqn:Hr; cbn [Py.is_empty] in *.
      * rewrite <- IH. reflexivity.
      * rewrite Hc', IH. reflexivity.
    + rewrite Hc', IH. reflexivity.
Qed.

Lemma split_ws_strip (s : string) : Str.split_ws (Py.strip s) = Str.split_ws s.
Proof. unfold Py.strip. rewrite split_ws_rstrip. apply split_ws_lstrip. Qed.

Lemma split_ws_palabras (s : string) (w : string) :
  w ∈ Str.split_ws s -> w <> EmptyString /\ sin_espacios w.
Proof.
  revert w. induction s as [|c s IH]; intros w Hw; [inversion Hw|].
  rewrite split_ws_cons in Hw.
  destruct (Py.isspace c) eqn:Hc; [apply IH, Hw|].
  assert (Huno : String c EmptyString <> EmptyString
                 /\ sin_espacios (String c EmptyString)).
  { split; [discriminate|]. unfold sin_espacios. simpl. rewrite Hc. reflexivity. }
  destruct s as [|c' s'].
  - apply list_elem_of_singleton in Hw. subst w. exact Huno.
  - destruct (Py.isspace c') eqn:Hc'.
    + apply elem_of_cons in Hw as [-> | Hw]; [exact Huno|apply IH, Hw].
    + destruct (Str.split_ws (String c' s')) as [|h t] eqn:Hs.
      * apply list_elem_of_singleton in Hw. subst w. exact Huno.
      * apply elem_of_cons in Hw as [-> | Hw].
        -- split; [discriminate|]. unfold sin_espacios. cbn [Py.all_chars].
           rewrite Hc. apply (IH h). left.
        -- apply IH. right. exact Hw.
Qed.

Lemma split_ws_una_palabra (w : string) :
  w <> EmptyString -> sin_espacios w -> Str.split_ws w = [w].
Proof.
  unfold sin_espacios.
  induction w as [|c w IH]; intros Hne Hw; [contradiction|].
  cbn [Py.all_chars] in Hw. apply andb_true_iff in Hw as [Hc Hw].
  apply negb_true_iff in Hc. rewrite split_ws_cons, Hc.
  destruct w as [|c' w']; [reflexivity|].
  pose proof Hw as Hw'. cbn [Py.all_chars] in Hw'.
  apply andb_true_iff in Hw' as [Hc' _]. apply negb_true_iff in Hc'.
  rewrite Hc', IH; [reflexivity|discriminate|exact Hw].
Qed.

Lemma split_ws_vacia (s : string) :
  Py.is_empty (Py.strip s) = false -> Str.split_ws s <> [].
Proof.
  intros H Hs. rewrite <- split_ws_strip in Hs.
  assert (Hl : Py.is_empty (Py.lstrip s) = false).
  { unfold Py.strip in H. destruct (Py.lstrip s); [discriminate H|reflexivity]. }
  rewrite split_ws_strip, <- split_ws_lstrip in Hs.
  clear H. induction s as [|c s IH]; [discriminate|].
  cbn [Py.lstrip] in *. destruct (Py.isspace c) eqn:Hc; [auto|].
  rewrite split_ws_cons, Hc in Hs.
  destruct s as [|c' s']; [discriminate|].
  destruct (Py.isspace c'); [discriminate|].
  destruct (Str.split_ws (String c' s')); discriminate.
Qed.

Lemma is_empty_false (s : string) : s <> EmptyString -> Py.is_empty s = false.
Proof. destruct s; [contradiction|reflexivity]. Qed.

Lemma mapeo_lookup (k cod : string) :
  _MAPEO_ABREVIATURAS !! k = Some cod ->
  (k, cod) ∈ [ ("ganador", "GAN"); ("segundo", "SEG"); ("tercero", "TER");
               ("exacta", "EXA"); ("trifecta", "TRI"); ("imperfecta", "IMP");
               ("cuatrifecta", "CUA"); ("doble", "DOB"); ("triplo", "TPL");
               ("cuaterna", "QTN"); ("quintuplo", "QTP"); ("cadena", "CAD") ].
Proof. unfold _MAPEO_ABREVIATURAS. apply elem_of_list_to_map_2. Qed.

Lemma normalizar_nombre_apuesta_palabra (nombre primera : string) (resto : list string) :
  Str.split_ws nombre = primera :: resto ->
  normalizar_nombre_apuesta nombre
  = if Py.contains "pase" (Py.lower (Py.strip nombre))
       || bool_decide (is_Some (_MAPEO_ABREVIATURAS !! Py.lower primera))
    then primera else Py.strip nombre.
Proof.
  intros Hs. unfold normalizar_nombre_apuesta.
  destruct (Py.is_empty (Py.strip nombre)) eqn:He.
  - rewrite <- split_ws_strip in Hs.
    destruct (Py.strip nombre); [discriminate Hs|discriminate He].
  - rewrite split_ws_strip, Hs. reflexivity.
Qed.

Lemma abreviar_apuesta_palabra (w : string) :
  w <> EmptyString -> sin_espacios w ->
  abreviar_apuesta w = default w (_MAPEO_ABREVIATURAS !! Py.lower w).
Proof.
  intros Hne Hw. unfold abreviar_apuesta.
  rewrite (strip_id w Hw), (is_empty_false w Hne). reflexivity.
Qed.

(** X12.  A name whose first word, whatever its case, is one of the twelve
    bet families is given the code of that family, whatever follows the
    first word. *)
Theorem abreviar_apuesta_familia (nombre primera codigo : string) (resto : list string) :
  Str.split_ws nombre = primera :: resto ->
  _MAPEO_ABREVIATURAS !! Py.lower primera = Some codigo ->
  abreviar_apuesta (normalizar_nombre_apuesta nombre) = codigo.
Proof.
  intros Hs Hk.
  rewrite (normalizar_nombre_apuesta_palabra _ _ _ Hs), Hk.
  rewrite (bool_decide_eq_true_2 (is_Some (Some codigo))) by eauto.
  rewrite orb_true_r.
  destruct (split_ws_palabras nombre primera) as [Hne Hw]; [rewrite Hs; left|].
  rewrite (abreviar_apuesta_palabra _ Hne Hw), Hk. reflexivity.
Qed.

Lemma abreviar_apuesta_familia_witness :
  abreviar_apuesta (normalizar_nombre_apuesta " Cadena Con Jackpot 1er.Pase (Unica Base)")
  = "CAD".
Proof.
  apply (abreviar_apuesta_familia " Cadena Con Jackpot 1er.Pase (Unica Base)"
           "Cadena" "CAD" ["Con"; "Jackpot"; "1er.Pase"; "(Unica"; "Base)"]);
    vm_compute; reflexivity.
Defined.

(** X13.  Normalising a name twice, or abbreviating it twice, gives the same
    as doing it once. *)
Theorem normalizar_y_abreviar_idempotentes (nombre : string) :
  normalizar_nombre_apuesta (normalizar_nombre_apuesta nombre)
  = normalizar_nombre_apuesta nombre
  /\ abreviar_apuesta (abreviar_apuesta nombre) = abreviar_apuesta nombre.
Proof.
  split.
  - destruct (Str.split_ws nombre) as [|primera resto] eqn:Hs.
    + assert (He : Py.is_empty (Py.strip nombre) = true).
      { destruct (Py.is_empty (Py.strip nombre)) eqn:He; [reflexivity|].
        destruct (split_ws_vacia nombre He Hs). }
      assert (Hn : normalizar_nombre_apuesta nombre = EmptyString).
      { unfold normalizar_nombre_apuesta. rewrite He.
        destruct (Py.strip nombre); [reflexivity|discriminate He]. }
      rewrite Hn. reflexivity.
    + rewrite (normalizar_nombre_apuesta_palabra _ _ _ Hs).
      destruct (split_ws_palabras nombre primera) as [Hne Hw]; [rewrite Hs; left|].
      match goal with
      | |- context [if ?b then primera else _] => destruct b eqn:Hcond
      end.
      * rewrite (normalizar_nombre_apuesta_palabra primera primera [])
          by (apply split_ws_una_palabra; assumption).
        rewrite (strip_id primera Hw).
        match goal with
        | |- context [if ?b then primera else _] => destruct b
        end; reflexivity.
      * assert (Hs' : Str.split_ws (Py.strip nombre) = primera :: resto)
          by (rewrite split_ws_strip; exact Hs).
        rewrite (normalizar_nombre_apuesta_palabra _ _ _ Hs').
        rewrite strip_strip, Hcond. reflexivity.
  - unfold abreviar_apuesta at 2 3.
    destruct (Py.is_empty (Py.strip nombre)) eqn:He.
    + unfold abreviar_apuesta. rewrite strip_strip, He. reflexivity.
    + destruct (_MAPEO_ABREVIATURAS !! Py.lower (Py.strip nombre)) as [cod|] eqn:Hk;
        cbn [from_option id].
      * apply mapeo_lookup in Hk.
        repeat (apply elem_of_cons in Hk as [Hk | Hk];
                [injection Hk as _ ->; vm_compute; reflexivity|]).
        inversion Hk.
      * unfold abreviar_apuesta. rewrite strip_strip, He, Hk. reflexivity.
Qed.

(** ** What the matches of a pattern are made of *)

Lemma length_app (t u : string) :
  String.length (Py.app t u) = (String.length t + String.length u)%nat.
Proof. induction t as [|c t IH]; simpl; [reflexivity|]. rewrite IH. reflexivity. Qed.

Lemma take_app (t u : string) :
  Py.take (String.length (Py.app t u) - String.length u) (Py.app t u) = t.
Proof.
  rewrite length_app.
  replace (String.length t + String.length u - String.length u)%nat
    with (String.length t) by lia.
  induction t as [|c t IH]; simpl.
  - destruct u; reflexivity.
  - rewrite IH. reflexivity.
Qed.

Lemma app_assoc_py (t u v : string) : Py.app (Py.app t u) v = Py.app t (Py.app u v).
Proof. induction t as [|c t IH]; simpl; [reflexivity|]. rewrite IH. reflexivity. Qed.

Lemma reconoce_sufijo r cs prev s cs' prev' s' :
  reconoce r cs prev s cs' prev' s' -> exists t, s = Py.app t s'.
Proof.
  induction 1;
    try (exists EmptyString; reflexivity);
    try assumption.
  - exists (String c EmptyString). reflexivity.
  - destruct IHreconoce1 as [t1 ->]. destruct IHreconoce2 as [t2 ->].
    exists (Py.app t1 t2). symmetry. apply app_assoc_py.
  - destruct IHreconoce1 as [t1 ->]. destruct IHreconoce2 as [t2 ->].
    exists (Py.app t1 t2). symmetry. apply app_assoc_py.
Qed.

Lemma reconoce_star_chr g p cs prev s cs' prev' s' :
  reconoce (Re.Star g (Re.Chr p)) cs prev s cs' prev' s' ->
  cs' = cs /\ exists t, s = Py.app t s' /\ Py.all_chars p t = true.
Proof.
  remember (Re.Star g (Re.Chr p)) as r eqn:Er.
  induction 1; try discriminate.
  - split; [reflexivity|]. exists EmptyString. split; reflexivity.
  - injection Er as -> ->.
    match goal with
    | H : reconoce (Re.Chr p) _ _ _ _ _ _ |- _ => inversion H; subst; clear H
    end.
    destruct IHreconoce2 as [-> (t & -> & Ht)]; [reflexivity|].
    split; [reflexivity|]. exists (String c t). split; [reflexivity|].
    simpl. rewrite Ht, andb_true_r. assumption.
Qed.

Lemma reconoce_plus_chr p cs prev s cs' prev' s' :
  reconoce (Re.plus (Re.Chr p)) cs prev s cs' prev' s' ->
  cs' = cs /\ exists t, s = Py.app t s' /\ t <> EmptyString /\ Py.all_chars p t = true.
Proof.
  unfold Re.plus. intros H. inversion H; subst; clear H.
  match goal with
  | H : reconoce (Re.Chr p) _ _ _ _ _ _ |- _ => inversion H; subst; clear H
  end.
  match goal with
  | H : reconoce (Re.Star _ _) _ _ _ _ _ _ |- _ =>
      apply reconoce_star_chr in H as [-> (t & -> & Ht)]
  end.
  split; [reflexivity|]. exists (String c t).
  split; [reflexivity|]. split; [discriminate|].
  simpl. rewrite Ht, andb_true_r. assumption.
Qed.

Lemma match_here_reconoce r pos prev s m :
  Re.match_here r pos prev s = Some m ->
  reconoce r [] prev s (Re.m_groups m) (Re.m_prev m) (Re.m_rest m)
  /\ Re.m_start m = pos
  /\ Re.m_text m = Py.take (String.length s - String.length (Re.m_rest m)) s.
Proof.
  unfold Re.match_here. intros H.
  apply rmatch_reconoce in H as (cs' & prev' & s' & H & [= <-]).
  cbn. auto.
Qed.

Lemma search_from_reconoce r :
  forall s pos prev m,
    Re.search_from r pos prev s = Some m ->
    exists prev' v,
      reconoce r [] prev' v (Re.m_groups m) (Re.m_prev m) (Re.m_rest m)
      /\ Re.m_text m = Py.take (String.length v - String.length (Re.m_rest m)) v.
Proof.
  induction s as [|c s IH]; intros pos prev m H; cbn [Re.search_from] in H.
  - destruct (Re.match_here r pos prev EmptyString) as [m'|] eqn:E; [|discriminate].
    injection H as ->. apply match_here_reconoce in E as (H1 & _ & H2). eauto.
  - destruct (Re.match_here r pos prev (String c s)) as [m'|] eqn:E.
    + injection H as ->. apply match_here_reconoce in E as (H1 & _ & H2). eauto.
    + eapply IH, H.
Qed.

Lemma finditer_from_reconoce r m :
  forall fuel pos prev s,
    m ∈ Re.finditer_from fuel r pos prev s ->
    exists prev' v,
      reconoce r [] prev' v (Re.m_groups m) (Re.m_prev m) (Re.m_rest m)
      /\ Re.m_text m = Py.take (String.length v - String.length (Re.m_rest m)) v.
Proof.
  induction fuel as [|fuel IH]; intros pos prev s H; cbn [Re.finditer_from] in H;
    [inversion H|].
  destruct (Re.search_from r pos prev s) as [m'|] eqn:E; [|inversion H].
  apply elem_of_cons in H as [-> | H]; [eapply search_from_reconoce, E|].
  destruct (Py.is_empty (Re.m_text m')).
  - destruct (Re.m_rest m') as [|c s']; [inversion H|]. eapply IH, H.
  - eapply IH, H.
Qed.

Lemma finditer_reconoce r s m :
  m ∈ Re.finditer r s ->
  exists prev' v,
    reconoce r [] prev' v (Re.m_groups m) (Re.m_prev m) (Re.m_rest m)
    /\ Re.m_text m = Py.take (String.length v - String.length (Re.m_rest m)) v.
Proof. apply finditer_from_reconoce. Qed.

(** ** Extraction of the bets of the document *)

Example ejemplo_pagina_apuestas_obs :
  obtener_apuestas_por_carrera [ejemplo_pagina_apuestas]
  = [ (1, 2, "GAN", ""); (1, 2, "SEG", ""); (1, 2, "TER", "");
      (1, 2, "EXA", "500,"); (1, 2, "CAD", "1.000") ].
Proof. vm_compute. reflexivity. Qed.

Lemma es_monto_sin_espacios (t : string) :
  Py.all_chars es_monto t = true -> sin_espacios t.
Proof. apply all_chars_impl. intros c. por_caracter c. Qed.

Lemma _PATRON_APUESTA_VALOR_reconoce cs prev v gs prev' s' :
  reconoce _PATRON_APUESTA_VALOR cs prev v gs prev' s' ->
  exists t, Re.group 2 gs = Some t /\ t <> EmptyString
            /\ Py.all_chars es_monto t = true.
Proof.
  unfold _PATRON_APUESTA_VALOR. cbn [Re.cat]. intros H.
  repeat match goal with
         | H : reconoce (Re.Cat _ _) _ _ _ _ _ _ |- _ => inversion H; subst; clear H
         end.
  match goal with
  | H : reconoce (Re.Group 2 _) _ _ _ _ _ _ |- _ => inversion H; subst; clear H
  end.
  match goal with
  | H : reconoce (Re.plus (Re.Chr es_monto)) _ _ _ _ _ _ |- _ =>
      apply reconoce_plus_chr in H as (_ & t & -> & Hne & Ht)
  end.
  exists t. cbn [Re.group Nat.eqb]. rewrite take_app. auto.
Qed.

(** The second group of a match of [_PATRON_APUESTA_VALOR] is a token of
    digits, periods and commas. *)
Lemma _PATRON_APUESTA_VALOR_grupo_2 (s : string) (m : Re.found) :
  m ∈ Re.finditer _PATRON_APUESTA_VALOR s ->
  Re.group_of 2 m <> EmptyString /\ Py.all_chars es_monto (Re.group_of 2 m) = true.
Proof.
  intros H. apply finditer_reconoce in H as (prev & v & H & _).
  apply _PATRON_APUESTA_VALOR_reconoce in H as (t & Hg & Hne & Ht).
  unfold Re.group_of. rewrite Hg. auto.
Qed.

Lemma apuestas_de_match_obs (num cant : Z) (s : string) (m : Re.found) (a : apuesta_raw) :
  m ∈ Re.finditer _PATRON_APUESTA_VALOR s ->
  a ∈ apuestas_de_match num cant m ->
  carrera_raw a = num /\ cantidad_raw a = cant
  /\ (valor_raw a = EmptyString \/ Py.all_chars es_monto (valor_raw a) = true).
Proof.
  intros Hm. destruct (_PATRON_APUESTA_VALOR_grupo_2 s m Hm) as [_ Hg].
  unfold apuestas_de_match.
  rewrite (strip_id (Re.group_of 2 m)) by apply es_monto_sin_espacios, Hg.
  destruct (_ || _); [intros H; inversion H|].
  destruct (Py.contains "Ganador" _).
  - intros H. apply list_elem_of_fmap in H as (p & -> & _).
    split; [reflexivity|]. split; [reflexivity|]. left. reflexivity.
  - destruct (es_apuesta_excluida _); [intros H; inversion H|].
    intros H. apply list_elem_of_singleton in H. subst a.
    split; [reflexivity|]. split; [reflexivity|]. right. exact Hg.
Qed.

Lemma obtener_apuestas_por_carrera_obs (paginas : list string) (a : apuesta_raw) :
  a ∈ obtener_apuestas_por_carrera paginas ->
  obtener_caballos_por_carrera paginas !! carrera_raw a = Some (cantidad_raw a)
  /\ (valor_raw a = EmptyString \/ Py.all_chars es_monto (valor_raw a) = true).
Proof.
  unfold obtener_apuestas_por_carrera. intros H.
  apply elem_of_flat_map in H as (texto & Ht & H).
  unfold apuestas_pagina in H.
  destruct (Re.search _PATRON_CARRERA_PDF texto) as [mc|] eqn:Hmc; [|inversion H].
  destruct (Py.is_empty (texto_apuestas texto)); [inversion H|].
  apply elem_of_flat_map in H as (m & Hm & H).
  destruct (apuestas_de_match_obs _ _ _ _ _ Hm H) as (Hn & Hc & Hv).
  split; [|exact Hv]. rewrite Hn, Hc.
  assert (Hs : is_Some (obtener_caballos_por_carrera paginas !! int_grupo 1 mc)).
  { apply caballos_paginas_claves. right. exists texto, mc. auto. }
  destruct Hs as [k Hk]. rewrite Hk. reflexivity.
Qed.

Lemma normalizar_cantidades (Q : Z -> Z -> Prop) (l : list apuesta_raw) :
  (forall a, a ∈ l -> Q (carrera_raw a) (cantidad_raw a)) ->
  forall acc,
    (forall n c, acc !! n = Some c -> Q n (caballos c)) ->
    forall n c, fold_left normalizar_apuesta l acc !! n = Some c -> Q n (caballos c).
Proof.
  induction l as [|a l IH]; intros Hl acc Hacc; [exact Hacc|].
  cbn [fold_left]. apply IH.
  - intros b Hb. apply Hl. right. exact Hb.
  - intros n c Hc. destruct (decide (carrera_raw a = n)) as [<- | Hne].
    + destruct (normalizar_apuesta_lookup acc a) as (c' & Hc' & Hcab & _).
      rewrite Hc in Hc'. injection Hc' as <-. rewrite Hcab.
      destruct (acc !! carrera_raw a) as [c0|] eqn:H0; [apply Hacc, H0|].
      apply Hl. left.
    + rewrite normalizar_apuesta_otra in Hc by exact Hne. apply Hacc, Hc.
Qed.

Lemma normalizar_valores (Q : option spec_float -> Prop) (l : list apuesta_raw) :
  (forall a, a ∈ l -> Q (_parsear_monto_str (valor_raw a))) ->
  forall acc,
    (forall n c cod v, acc !! n = Some c -> apuestas c !! cod = Some v -> Q v) ->
    forall n c cod v,
      fold_left normalizar_apuesta l acc !! n = Some c ->
      apuestas c !! cod = Some v -> Q v.
Proof.
  induction l as [|a l IH]; intros Hl acc Hacc; [exact Hacc|].
  cbn [fold_left]. apply IH.
  - intros b Hb. apply Hl. right. exact Hb.
  - intros n c cod v Hc Hv. destruct (decide (carrera_raw a = n)) as [<- | Hne].
    + destruct (normalizar_apuesta_lookup acc a) as (c' & Hc' & _ & Hap).
      rewrite Hc in Hc'. injection Hc' as <-. rewrite Hap in Hv.
      destruct (decide (codigo_raw a = cod)) as [<- | Hcod].
      * rewrite lookup_insert_eq in Hv. injection Hv as <-. apply Hl. left.
      * rewrite lookup_insert_ne in Hv by exact Hcod.
        destruct (acc !! carrera_raw a) as [c0|] eqn:H0.
        -- apply (Hacc _ _ _ _ H0 Hv).
        -- rewrite lookup_empty in Hv. discriminate.
    + rewrite normalizar_apuesta_otra in Hc by exact Hne.
      apply (Hacc _ _ _ _ Hc Hv).
Qed.

Lemma caballos_de_pdf_normalizado (paginas : list string) (n : Z) (c : carrera) :
  _normalizar_pdf paginas !! n = Some c ->
  obtener_caballos_por_carrera paginas !! n = Some (caballos c).
Proof.
  unfold _normalizar_pdf, _normalizar_desde_lista_apuestas.
  apply (normalizar_cantidades
           (fun n k => obtener_caballos_por_carrera paginas !! n = Some k)).
  - intros a Ha. apply (obtener_apuestas_por_carrera_obs paginas a Ha).
  - intros n' c' H. rewrite lookup_empty in H. discriminate.
Qed.

(** X14.  In the structure read from the document, the number of horses of
    every race is the one that [obtener_caballos_por_carrera] gives for that
    race. *)
Theorem _normalizar_pdf_caballos (paginas : list string) (n : Z) (c : carrera) :
  _normalizar_pdf paginas !! n = Some c ->
  obtener_caballos_por_carrera paginas !! n = Some (caballos c).
Proof. apply caballos_de_pdf_normalizado. Qed.

Lemma _normalizar_pdf_caballos_witness :
  obtener_caballos_por_carrera [ejemplo_pagina_apuestas] !! 1 = Some 2.
Proof.
  apply (_normalizar_pdf_caballos [ejemplo_pagina_apuestas] 1
           (Carrera 2 (default ∅ (apuestas <$> _normalizar_pdf [ejemplo_pagina_apuestas] !! 1)))).
  vm_compute. reflexivity.
Defined.

Lemma valores_de_pdf_normalizado (paginas : list string) (n : Z) (c : carrera)
    (codigo : string) (v : spec_float) :
  _normalizar_pdf paginas !! n = Some c ->
  apuestas c !! codigo = Some (Some v) -> no_negativo v.
Proof.
  unfold _normalizar_pdf, _normalizar_desde_lista_apuestas. intros Hc Hv.
  apply (normalizar_valores
           (fun o => forall w, o = Some w -> no_negativo w)
           (obtener_apuestas_por_carrera paginas)) with (acc := ∅) (n := n) (c := c)
           (cod := codigo) (v := Some v); auto.
  - intros a Ha w Hw.
    destruct (obtener_apuestas_por_carrera_obs paginas a Ha) as [_ [He | Hm]].
    + rewrite He in Hw. discriminate.
    + apply (parsear_monto_token _ _ Hm Hw).
  - intros n' c' cod' v' H. rewrite lookup_empty in H. discriminate.
Qed.

(** X15.  In the structure read from the document, no amount is negative or
    NaN. *)
Theorem _normalizar_pdf_valores (paginas : list string) (n : Z) (c : carrera)
    (codigo : string) (v : spec_float) :
  _normalizar_pdf paginas !! n = Some c ->
  apuestas c !! codigo = Some (Some v) -> no_negativo v.
Proof. apply valores_de_pdf_normalizado. Qed.

Lemma _normalizar_pdf_valores_witness :
  exists v, apuestas (default (Carrera 0 ∅) (_normalizar_pdf [ejemplo_pagina_apuestas] !! 1))
            !! "EXA" = Some (Some v)
            /\ no_negativo v.
Proof.
  eexists. split; [vm_compute; reflexivity|].
  apply (_normalizar_pdf_valores [ejemplo_pagina_apuestas] 1
           (default (Carrera 0 ∅) (_normalizar_pdf [ejemplo_pagina_apuestas] !! 1)) "EXA");
    vm_compute; reflexivity.
Defined.

(** ** The structure read from the report *)

Lemma startswith_contains (sub s : string) :
  Py.startswith sub s = true -> Py.contains sub s = true.
Proof. intros H. destruct s; simpl; rewrite H; reflexivity. Qed.

Lemma contains_app_r (sub t s : string) :
  Py.contains sub s = true -> Py.contains sub (Py.app t s) = true.
Proof.
  intros H. induction t as [|c t IH]; [exact H|].
  cbn [Py.app Py.contains]. rewrite IH. apply orb_true_r.
Qed.

Lemma reconoce_contains r cs prev s cs' prev' s' (sub : string) :
  reconoce r cs prev s cs' prev' s' ->
  Py.contains sub s' = true -> Py.contains sub s = true.
Proof.
  intros H Hs. apply reconoce_sufijo in H as [t ->]. apply contains_app_r, Hs.
Qed.

Lemma reconoce_lit (w : string) :
  forall cs prev s cs' prev' s',
    reconoce (Re.lit w) cs prev s cs' prev' s' -> s = Py.app w s' /\ cs' = cs.
Proof.
  induction w as [|c w IH]; intros cs prev s cs' prev' s' H.
  - inversion H; subst. auto.
  - destruct w as [|c' w'].
    + cbn [Re.lit] in H. inversion H; subst.
      match goal with
      | Hc : Re.is_char _ _ = true |- _ =>
          unfold Re.is_char in Hc; apply Ascii.eqb_eq in Hc; subst
      end.
      auto.
    + change (Re.lit (String c (String c' w')))
        with (Re.Cat (Re.Chr (Re.is_char c)) (Re.lit (String c' w'))) in H.
      inversion H; subst; clear H.
      match goal with
      | Hc : reconoce (Re.Chr _) _ _ _ _ _ _ |- _ => inversion Hc; subst; clear Hc
      end.
      match goal with
      | Hc : Re.is_char _ _ = true |- _ =>
          unfold Re.is_char in Hc; apply Ascii.eqb_eq in Hc; subst
      end.
      match goal with
      | Hl : reconoce _ _ _ _ _ _ _ |- _ => apply IH in Hl as [-> ->]
      end.
      auto.
Qed.

(** A line that [patron_carrera] matches has the token 1/9. *)
Lemma patron_carrera_contains cs prev s cs' prev' s' :
  reconoce patron_carrera cs prev s cs' prev' s' -> Py.contains "1/9" s = true.
Proof.
  unfold patron_carrera. cbn [Re.cat]. intros H.
  pose proof (reconoce_lit "1/9") as Hlit. revert H Hlit.
  generalize (Re.lit "1/9"). intros l H Hlit. invertir_cat.
  match goal with
  | H : reconoce (Re.plus (Re.Cat _ _)) _ _ _ _ _ _ |- _ =>
      unfold Re.plus at 1 in H; inversion H; subst; clear H
  end.
  invertir_cat.
  match goal with
  | H : reconoce l _ _ _ _ _ _ |- _ => apply Hlit in H as [-> ->]
  end.
  repeat match goal with
         | H : reconoce _ _ _ ?a _ _ _ |- Py.contains _ ?a = true =>
             apply (reconoce_contains _ _ _ _ _ _ _ _ H); clear H
         end.
  reflexivity.
Qed.

Lemma match_here_patron_caballos (pos : nat) (prev : option ascii) (s : string) :
  Py.startswith "1/9" s = true ->
  is_Some (Re.match_here patron_caballos pos prev s).
Proof.
  destruct s as [|a [|b [|c r]]]; cbn [Py.startswith]; intros H;
    repeat match type of H with
           | (_ && _) = true =>
               let Hx := fresh "Hx" in apply andb_true_iff in H as [Hx H]
           end;
    try discriminate.
  repeat match goal with
         | Hx : Ascii.eqb _ _ = true |- _ => apply Ascii.eqb_eq in Hx; subst
         end.
  cbn. eauto.
Qed.

Lemma search_from_patron_caballos (s : string) :
  forall pos prev,
    Py.contains "1/9" s = true -> is_Some (Re.search_from patron_caballos pos prev s).
Proof.
  induction s as [|c s IH]; intros pos prev H.
  - vm_compute in H. discriminate.
  - cbn [Py.contains] in H. cbn [Re.search_from].
    destruct (Py.startswith "1/9" (String c s)) eqn:Hs.
    + destruct (match_here_patron_caballos pos prev _ Hs) as [m ->]. eauto.
    + destruct (Re.match_here patron_caballos pos prev (String c s)); [eauto|].
      apply IH, H.
Qed.

Lemma finditer_patron_caballos (s : string) :
  Py.contains "1/9" s = true ->
  (1 <= length (Re.finditer patron_caballos s))%nat.
Proof.
  intros H. unfold Re.finditer. cbn [Re.finditer_from].
  destruct (search_from_patron_caballos s 0%nat None H) as [m ->].
  simpl. lia.
Qed.

Lemma leer_lineas_carrera_caballos (lineas : list string) :
  forall st,
    (forall n k, caballos_por_carrera st !! n = Some k -> 1 <= k) ->
    forall n k, caballos_por_carrera (leer_lineas_carrera st lineas) !! n = Some k ->
                1 <= k.
Proof.
  induction lineas as [|linea sig IH]; intros st Hst; [exact Hst|].
  cbn [leer_lineas_carrera]. apply IH.
  unfold leer_linea_carrera.
  destruct (Re.match_ patron_carrera linea) as [m|] eqn:Hm; [|exact Hst].
  cbn [caballos_por_carrera]. intros n k.
  destruct (decide (int_grupo 1 m = n)) as [<- | Hne].
  - rewrite lookup_insert_eq. intros [= <-].
    apply match_here_reconoce in Hm as (Hm & _).
    apply patron_carrera_contains in Hm.
    pose proof (finditer_patron_caballos linea Hm). lia.
  - rewrite lookup_insert_ne by exact Hne. apply Hst.
Qed.

Lemma caballos_de_reporte_normalizado (contenido : string) (n : Z) (c : carrera) :
  _normalizar_reporte contenido !! n = Some c -> 1 <= caballos c.
Proof.
  rewrite _normalizar_reporte_lookup.
  destruct (decide _) as [Hn|]; [|discriminate].
  intros [= <-]. cbn [caballos].
  destruct (pase_disponibilidad_dom contenido) as [Hdom _].
  rewrite <- Hdom in Hn. apply elem_of_dom in Hn as [k Hk].
  rewrite Hk. cbn [from_option id].
  unfold pase_disponibilidad in Hk.
  apply (leer_lineas_carrera_caballos (Py.split Py.nl contenido)
           (Disponibilidad ∅ ∅)) with (n := n); [|exact Hk].
  intros n' k' H. cbn [caballos_por_carrera] in H. rewrite lookup_empty in H.
  discriminate.
Qed.

(** X16.  Every race of the structure read from the report has at least one
    horse. *)
Theorem _normalizar_reporte_caballos (contenido : string) (n : Z) (c : carrera) :
  _normalizar_reporte contenido !! n = Some c -> 1 <= caballos c.
Proof. apply caballos_de_reporte_normalizado. Qed.

Lemma _normalizar_reporte_caballos_witness :
  1 <= caballos (default (Carrera 0 ∅) (_normalizar_reporte ejemplo_contenido !! 1)).
Proof.
  apply (_normalizar_reporte_caballos ejemplo_contenido 1).
  vm_compute. reflexivity.
Defined.

Lemma fold_left_invariante {A B : Type} (P : A -> Prop) (f : A -> B -> A) (l : list B) :
  (forall acc x, x ∈ l -> P acc -> P (f acc x)) ->
  forall acc, P acc -> P (fold_left f l acc).
Proof.
  induction l as [|x l IH]; intros Hf acc Hacc; [exact Hacc|].
  cbn [fold_left]. apply IH.
  - intros acc' y Hy. apply Hf. right. exact Hy.
  - apply Hf; [left|exact Hacc].
Qed.

(** The third group of a match of [patron_rsm] is a token of digits, periods
    and commas. *)
Lemma patron_rsm_reconoce cs prev v gs prev' s' :
  reconoce patron_rsm cs prev v gs prev' s' ->
  exists t, Re.group 3 gs = Some t /\ Py.all_chars es_monto t = true.
Proof.
  unfold patron_rsm. cbn [Re.cat]. intros H.
  revert H. generalize (Re.lit "---"), (Re.lit "TS"). intros l1 l2 H.
  invertir_cat.
  match goal with
  | H : reconoce (Re.Group 3 _) _ _ _ _ _ _ |- _ => inversion H; subst; clear H
  end.
  match goal with
  | H : reconoce (Re.plus (Re.Chr es_monto)) _ _ _ _ _ _ |- _ =>
      apply reconoce_plus_chr in H as (_ & t & -> & Hne & Ht)
  end.
  exists t. cbn [Re.group Nat.eqb]. rewrite take_app. auto.
Qed.

Lemma patron_rsm_grupo_3 (s : string) (m : Re.found) :
  m ∈ Re.finditer patron_rsm s -> Py.all_chars es_monto (Re.group_of 3 m) = true.
Proof.
  intros H. apply finditer_reconoce in H as (prev & v & H & _).
  apply patron_rsm_reconoce in H as (t & Hg & Ht).
  unfold Re.group_of. rewrite Hg. exact Ht.
Qed.

Lemma asignar_valor_valido (codigo : string) (v : spec_float)
    (valores : gmap Z (gmap string spec_float)) (carrera : Z) :
  no_negativo v -> codigo ∈ codigos_rsm ->
  valores_validos valores -> valores_validos (asignar_valor codigo v valores carrera).
Proof.
  intros Hv Hc Hval n d cod w. unfold asignar_valor.
  destruct (decide (carrera = n)) as [-> | Hne].
  - rewrite lookup_insert_eq. intros [= <-].
    destruct (decide (codigo = cod)) as [-> | Hcod].
    + rewrite lookup_insert_eq. intros [= <-]. auto.
    + rewrite lookup_insert_ne by exact Hcod.
      destruct (valores !! n) as [d0|] eqn:Hd; cbn [from_option id].
      * apply (Hval n d0 cod w Hd).
      * rewrite lookup_empty. discriminate.
  - rewrite lookup_insert_ne by exact Hne. apply Hval.
Qed.

Lemma asignar_a_carreras_valido (reales : list Z) (codigo : string) (v : spec_float)
    (cs : list Z) (valores : gmap Z (gmap string spec_float)) :
  no_negativo v -> codigo ∈ codigos_rsm ->
  valores_validos valores ->
  valores_validos (asignar_a_carreras reales codigo v cs valores).
Proof.
  intros Hv Hc. unfold asignar_a_carreras. apply fold_left_invariante.
  intros acc x _ Hacc. destruct (_ && _); [exact Hacc|].
  apply asignar_valor_valido; assumption.
Qed.

Lemma mapeo_rsm_codigo (tipo codigo : string) :
  mapeo_rsm tipo = Some codigo -> codigo ∈ codigos_rsm.
Proof.
  unfold mapeo_rsm.
  destruct (bool_decide_reflect (tipo ∈ codigos_rsm)) as [H|]; [|discriminate].
  intros [= <-]. exact H.
Qed.

Lemma leer_fila_rsm_valido (reales : list Z) (seccion : string)
    (valores : gmap Z (gmap string spec_float)) (m : Re.found) :
  m ∈ Re.finditer patron_rsm seccion ->
  valores_validos valores -> valores_validos (leer_fila_rsm reales valores m).
Proof.
  intros Hm Hval. unfold leer_fila_rsm.
  pose proof (patron_rsm_grupo_3 _ _ Hm) as Hg.
  rewrite (strip_id (Re.group_of 3 m)) by apply es_monto_sin_espacios, Hg.
  destruct (_parsear_monto_str (Re.group_of 3 m)) as [v|] eqn:Hv; [|exact Hval].
  destruct (mapeo_rsm _) as [codigo|] eqn:Hc; [|exact Hval].
  apply asignar_a_carreras_valido;
    [apply (parsear_monto_token _ _ Hg Hv)|apply (mapeo_rsm_codigo _ _ Hc)|exact Hval].
Qed.

Lemma pase_minimos_valido (contenido : string) (caballos : gmap Z Z) :
  valores_validos (pase_minimos contenido caballos).
Proof.
  unfold pase_minimos.
  destruct (seccion_rsm contenido) as [seccion|].
  - apply fold_left_invariante.
    + intros acc m Hm. apply (leer_fila_rsm_valido _ seccion), Hm.
    + intros n d cod v H. rewrite lookup_empty in H. discriminate.
  - intros n d cod v H. rewrite lookup_empty in H. discriminate.
Qed.

Lemma valores_de_reporte_normalizado (contenido : string) (n : Z) (c : carrera)
    (codigo : string) (v : spec_float) :
  _normalizar_reporte contenido !! n = Some c ->
  apuestas c !! codigo = Some (Some v) ->
  no_negativo v /\ codigo ∈ codigos_rsm.
Proof.
  rewrite _normalizar_reporte_lookup.
  destruct (decide _) as [Hn|]; [|discriminate].
  intros [= <-]. cbn [apuestas]. rewrite lookup_dict_de_codigos.
  destruct (decide _); [|discriminate]. intros [= Hv].
  destruct (pase_minimos contenido _ !! n) as [d|] eqn:Hd; cbn [from_option id] in Hv.
  - apply (pase_minimos_valido _ _ n d codigo v Hd Hv).
  - rewrite lookup_empty in Hv. discriminate.
Qed.

(** X17.  In the structure read from the report, a known amount is neither
    negative nor NaN, and only the nine codes of the RSM table carry one:
    GAN, SEG and TER never have an amount. *)
Theorem _normalizar_reporte_valores (contenido : string) (n : Z) (c : carrera)
    (codigo : string) (v : spec_float) :
  _normalizar_reporte contenido !! n = Some c ->
  apuestas c !! codigo = Some (Some v) ->
  no_negativo v /\ codigo ∈ codigos_rsm.
Proof. apply valores_de_reporte_normalizado. Qed.

Lemma _normalizar_reporte_valores_witness :
  exists v,
    apuestas (default (Carrera 0 ∅) (_normalizar_reporte ejemplo_contenido !! 1)) !! "EXA"
    = Some (Some v)
    /\ no_negativo v /\ "EXA" ∈ codigos_rsm.
Proof.
  eexists. split; [vm_compute; reflexivity|].
  apply (_normalizar_reporte_valores ejemplo_contenido 1
           (default (Carrera 0 ∅) (_normalizar_reporte ejemplo_contenido !! 1)));
    vm_compute; reflexivity.
Defined.

Lemma reconoce_alt_lit (ws : list string) :
  forall cs prev s cs' prev' s',
    reconoce (Re.alt (map Re.lit ws)) cs prev s cs' prev' s' ->
    exists w, w ∈ ws /\ s = Py.app w s' /\ cs' = cs.
Proof.
  induction ws as [|w ws IH]; intros cs prev s cs' prev' s' H.
  - cbn in H. inversion H; subst. discriminate.
  - destruct ws as [|w2 ws'].
    + change (Re.alt (map Re.lit [w])) with (Re.lit w) in H.
      apply reconoce_lit in H as [-> ->]. exists w. split; [left|auto].
    + change (Re.alt (map Re.lit (w :: w2 :: ws')))
        with (Re.Alt (Re.lit w) (Re.alt (map Re.lit (w2 :: ws')))) in H.
      revert H. generalize (Re.lit w) (reconoce_lit w).
      generalize (Re.alt (map Re.lit (w2 :: ws'))) IH. intros r2 IH2 r1 IH1 H.
      inversion H; subst; clear H.
      * match goal with
        | H : reconoce r1 _ _ _ _ _ _ |- _ => apply IH1 in H as [-> ->]
        end.
        exists w. split; [left|auto].
      * match goal with
        | H : reconoce r2 _ _ _ _ _ _ |- _ => apply IH2 in H as (w' & Hw' & -> & ->)
        end.
        exists w'. split; [right; exact Hw'|auto].
Qed.

Lemma patron_apuestas_linea_reconoce cs prev v gs prev' s' :
  reconoce patron_apuestas_linea cs prev v gs prev' s' ->
  exists t, Re.group 1 gs = Some t /\ t ∈ codigos_de_reporte.
Proof.
  unfold patron_apuestas_linea. cbn [Re.cat]. intros H.
  pose proof (reconoce_alt_lit codigos_de_reporte) as Halt.
  unfold codigos_de_reporte in Halt at 1. revert H Halt.
  generalize (Re.alt (map Re.lit
    ["GAN"; "SEG"; "TER"; "EXA"; "TRI"; "IMP"; "DOB"; "TPL"; "QTN"; "QTP"; "CAD"; "CUA"])).
  intros r H Halt. invertir_cat.
  repeat match goal with
         | H : reconoce Re.Wordb _ _ _ _ _ _ |- _ => inversion H; subst; clear H
         end.
  match goal with
  | H : reconoce (Re.Group 1 _) _ _ _ _ _ _ |- _ => inversion H; subst; clear H
  end.
  match goal with
  | H : reconoce r _ _ _ _ _ _ |- _ => apply Halt in H as (w & Hw & -> & ->)
  end.
  exists w. cbn [Re.group Nat.eqb]. rewrite take_app. auto.
Qed.

Lemma codigos_en_linea_conocidos (linea codigo : string) :
  codigo ∈ codigos_en_linea linea -> codigo ∈ codigos_de_reporte.
Proof.
  unfold codigos_en_linea. intros H.
  apply list_elem_of_fmap in H as (m & -> & Hm).
  apply finditer_reconoce in Hm as (prev & v & Hm & _).
  apply patron_apuestas_linea_reconoce in Hm as (t & Hg & Ht).
  unfold Re.group_of. rewrite Hg. exact Ht.
Qed.

Lemma codigos_continuacion_conocidos (siguientes : list string) (codigo : string) :
  codigo ∈ codigos_continuacion siguientes -> codigo ∈ codigos_de_reporte.
Proof.
  induction siguientes as [|l sig IH]; cbn [codigos_continuacion]; intros H;
    [inversion H|].
  destruct (Py.is_empty _); [inversion H|].
  destruct (negb _); [inversion H|].
  destruct (bool_decide _); [inversion H|].
  apply elem_of_app in H as [H | H]; [apply (codigos_en_linea_conocidos l), H|auto].
Qed.

Lemma codigos_disponibles_conocidos (num : Z) (lineas : list string) (codigo : string) :
  codigo ∈ codigos_disponibles num lineas -> codigo ∈ codigos_de_reporte.
Proof.
  induction lineas as [|l sig IH]; cbn [codigos_disponibles]; intros H.
  - apply elem_of_empty in H. contradiction.
  - apply elem_of_union in H as [H | H]; [|auto].
    destruct (Re.match_ patron_carrera l); [|apply elem_of_empty in H; contradiction].
    destruct (bool_decide _); [|apply elem_of_empty in H; contradiction].
    unfold codigos_de_linea_carrera in H.
    apply elem_of_union in H as [H | H]; apply elem_of_list_to_set in H.
    + apply (codigos_en_linea_conocidos l), H.
    + apply (codigos_continuacion_conocidos _ _ H).
Qed.

(** X18.  Every bet code of the structure read from the report is one of the
    twelve codes GAN, SEG, TER, EXA, TRI, IMP, DOB, TPL, QTN, QTP, CAD and
    CUA. *)
Theorem _normalizar_reporte_codigos (contenido : string) (n : Z) (c : carrera)
    (codigo : string) :
  _normalizar_reporte contenido !! n = Some c ->
  codigo ∈ dom (apuestas c) -> codigo ∈ codigos_de_reporte.
Proof.
  rewrite _normalizar_reporte_lookup.
  destruct (decide _) as [Hn|]; [|discriminate].
  intros [= <-]. cbn [apuestas]. rewrite dom_dict_de_codigos.
  unfold pase_disponibilidad. rewrite leer_lineas_carrera_codigos.
  cbn [apuestas_por_carrera]. rewrite lookup_empty. cbn [from_option id].
  rewrite elem_of_union. intros [H | H]; [apply elem_of_empty in H; contradiction|].
  apply (codigos_disponibles_conocidos _ _ _ H).
Qed.

Lemma _normalizar_reporte_codigos_witness : "DOB" ∈ codigos_de_reporte.
Proof.
  apply (_normalizar_reporte_codigos ejemplo_contenido 1
           (default (Carrera 0 ∅) (_normalizar_reporte ejemplo_contenido !! 1)));
    vm_compute; reflexivity.
Defined.

(** ** The section of the table *)

Lemma startswith_take (sub s : string) (j : nat) :
  Py.startswith sub (Py.take j s) = true ->
  Py.startswith sub s = true /\ (String.length sub <= j)%nat.
Proof.
  revert s j. induction sub as [|a sub IH]; intros s j H.
  - split; [destruct s; reflexivity|simpl; lia].
  - destruct j as [|j], s as [|c s]; simpl in H; try discriminate.
    apply andb_true_iff in H as [Ha H]. apply IH in H as [H Hl].
    simpl. rewrite Ha, H. split; [reflexivity|lia].
Qed.

Lemma take_startswith (sub s : string) (j : nat) :
  Py.startswith sub s = true -> (String.length sub <= j)%nat ->
  Py.startswith sub (Py.take j s) = true.
Proof.
  revert s j. induction sub as [|a sub IH]; intros s j H Hl.
  - destruct (Py.take j s); reflexivity.
  - destruct s as [|c s]; [discriminate|]. destruct j as [|j]; [simpl in Hl; lia|].
    simpl in *. apply andb_true_iff in H as [Ha H].
    rewrite Ha, IH; [reflexivity|exact H|lia].
Qed.

Lemma startswith_vacio (sub : string) :
  Py.startswith sub EmptyString = true -> sub = EmptyString.
Proof. destruct sub; [reflexivity|discriminate]. Qed.

(** A text cut before the end of the first occurrence of [sub] does not
    contain [sub]. *)
Lemma contains_take_find (sub s : string) :
  forall j, Py.contains sub (Py.take j s) = true ->
            exists k, Py.find sub s = Some k /\ (k + String.length sub <= j)%nat.
Proof.
  induction s as [|c s IH]; intros j H.
  - assert (Hs : sub = EmptyString).
    { destruct j; simpl in H; rewrite orb_false_r in H; apply startswith_vacio, H. }
    subst sub. exists 0%nat. split; [reflexivity|simpl; lia].
  - destruct j as [|j].
    + simpl in H. rewrite orb_false_r in H. apply startswith_vacio in H. subst sub.
      exists 0%nat. split; [reflexivity|simpl; lia].
    + cbn [Py.take Py.contains] in H. cbn [Py.find].
      destruct (Py.startswith sub (String c (Py.take j s))) eqn:Hs.
      * change (String c (Py.take j s)) with (Py.take (S j) (String c s)) in Hs.
        apply startswith_take in Hs as [Hs Hl]. rewrite Hs.
        exists 0%nat. split; [reflexivity|lia].
      * cbn [orb] in H. apply IH in H as (k & Hk & Hl).
        destruct (Py.startswith sub (String c s)).
        -- exists 0%nat. split; [reflexivity|lia].
        -- rewrite Hk. exists (S k). split; [reflexivity|lia].
Qed.

Lemma take_sin_marca (sub s : string) (i j : nat) :
  sub <> EmptyString -> Py.find sub s = Some i -> (j <= i)%nat ->
  Py.contains sub (Py.take j s) = false.
Proof.
  intros Hne Hf Hj. destruct (Py.contains sub (Py.take j s)) eqn:Hc; [|reflexivity].
  apply contains_take_find in Hc as (k & Hk & Hl).
  rewrite Hf in Hk. injection Hk as <-.
  destruct sub; [contradiction|simpl in Hl; lia].
Qed.

Lemma find_none_contains (sub s : string) :
  Py.find sub s = None <-> Py.contains sub s = false.
Proof.
  induction s as [|c s IH]; cbn [Py.find Py.contains].
  - destruct (Py.startswith sub EmptyString); split; intros H; try discriminate;
      reflexivity.
  - destruct (Py.startswith sub (String c s)); cbn [orb].
    + split; discriminate.
    + rewrite <- IH. destruct (Py.find sub s); split; intros H; try discriminate;
        reflexivity.
Qed.

Lemma find_startswith (sub s : string) :
  forall i, Py.find sub s = Some i -> Py.startswith sub (Py.drop i s) = true.
Proof.
  induction s as [|c s IH]; intros i; cbn [Py.find].
  - destruct (Py.startswith sub EmptyString) eqn:Hs; [|discriminate].
    intros [= <-]. exact Hs.
  - destruct (Py.startswith sub (String c s)) eqn:Hs.
    + intros [= <-]. exact Hs.
    + destruct (Py.find sub s) as [k|] eqn:Hk; [|discriminate].
      intros [= <-]. cbn [Py.drop]. apply IH. reflexivity.
Qed.

Lemma marca_rsm_antes (sub seccion : string) (i : nat) :
  sub = String Py.nl (String Py.nl (String Py.nl "")) \/ sub = "TIM BETTING" ->
  Py.startswith "RSM TABLE" seccion = true ->
  Py.find sub seccion = Some i -> (9 <= i)%nat.
Proof.
  intros Hsub Hs Hf. apply find_startswith in Hf.
  destruct (Nat.le_gt_cases 9 i) as [|Hlt]; [assumption|exfalso].
  destruct seccion as [|c1 [|c2 [|c3 [|c4 [|c5 [|c6 [|c7 [|c8 [|c9 r]]]]]]]]];
    cbn [Py.startswith] in Hs;
    repeat match type of Hs with
           | (_ && _) = true =>
               let Hx := fresh "Hx" in apply andb_true_iff in Hs as [Hx Hs]
           end;
    try discriminate Hs.
  repeat match goal with
         | Hx : Ascii.eqb _ _ = true |- _ => apply Ascii.eqb_eq in Hx; subst
         end.
  do 9 (destruct i as [|i]; [destruct Hsub; subst sub; discriminate Hf|]).
  lia.
Qed.

Lemma take_contains (sub s : string) (j : nat) :
  Py.contains sub s = false -> Py.contains sub (Py.take j s) = false.
Proof.
  intros H. destruct (Py.contains sub (Py.take j s)) eqn:Hc; [|reflexivity].
  apply contains_take_find in Hc as (k & Hk & _).
  apply find_none_contains in H. congruence.
Qed.

(** X19.  The section of the table that both normalisers of the report read
    starts at the marker RSM TABLE and stops before the first triple line
    break and before the marker TIM BETTING: it contains neither. *)
Theorem seccion_rsm_limites (contenido seccion : string) :
  seccion_rsm contenido = Some seccion ->
  Py.startswith "RSM TABLE" seccion = true
  /\ Py.contains "TIM BETTING" seccion = false
  /\ Py.contains (String Py.nl (String Py.nl (String Py.nl ""))) seccion = false.
Proof.
  unfold seccion_rsm.
  destruct (Py.find "RSM TABLE" contenido) as [inicio|] eqn:Hini; [|discriminate].
  apply find_startswith in Hini.
  set (resto := Py.drop inicio contenido) in *.
  set (nnn := String Py.nl (String Py.nl (String Py.nl ""))).
  assert (Hnnn : nnn <> EmptyString) by discriminate.
  assert (Htim : "TIM BETTING" <> EmptyString) by discriminate.
  destruct (Py.find nnn resto) as [a|] eqn:Ha;
    destruct (Py.find "TIM BETTING" resto) as [b|] eqn:Hb;
    intros [= <-].
  - pose proof (marca_rsm_antes nnn resto a (or_introl eq_refl) Hini Ha).
    pose proof (marca_rsm_antes _ resto b (or_intror eq_refl) Hini Hb).
    split; [apply take_startswith; [exact Hini|simpl; lia]|].
    split; [apply (take_sin_marca _ _ b)|apply (take_sin_marca _ _ a)];
      auto; lia.
  - pose proof (marca_rsm_antes nnn resto a (or_introl eq_refl) Hini Ha).
    split; [apply take_startswith; [exact Hini|simpl; lia]|].
    split; [apply take_contains, find_none_contains, Hb|].
    apply (take_sin_marca _ _ a); auto.
  - pose proof (marca_rsm_antes _ resto b (or_intror eq_refl) Hini Hb).
    split; [apply take_startswith; [exact Hini|simpl; lia]|].
    split; [apply (take_sin_marca _ _ b); auto|].
    apply take_contains, find_none_contains, Ha.
  - split; [exact Hini|].
    split; apply find_none_contains; assumption.
Qed.

Lemma seccion_rsm_limites_witness :
  exists seccion,
    seccion_rsm ejemplo_contenido = Some seccion
    /\ Py.startswith "RSM TABLE" seccion = true
    /\ Py.contains "TIM BETTING" seccion = false
    /\ Py.contains (String Py.nl (String Py.nl (String Py.nl ""))) seccion = false.
Proof.
  eexists. split; [vm_compute; reflexivity|].
  apply (seccion_rsm_limites ejemplo_contenido). vm_compute. reflexivity.
Defined.

(** X20.  A report without the marker RSM TABLE has no amount at all: the
    Palermo normaliser gives the empty structure, and in the structure of
    the general normaliser every amount is unknown. *)
Theorem reporte_sin_tabla (contenido : string) :
  Py.contains "RSM TABLE" contenido = false ->
  _normalizar_reporte_palermo contenido = ∅
  /\ forall n c codigo v,
       _normalizar_reporte contenido !! n = Some c ->
       apuestas c !! codigo = Some v -> v = None.
Proof.
  intros H. apply find_none_contains in H.
  assert (Hs : seccion_rsm contenido = None) by (unfold seccion_rsm; rewrite H; reflexivity).
  split.
  - unfold _normalizar_reporte_palermo. rewrite Hs. reflexivity.
  - intros n c codigo v. rewrite _normalizar_reporte_lookup.
    destruct (decide _); [|discriminate].
    intros [= <-]. cbn [apuestas]. rewrite lookup_dict_de_codigos.
    destruct (decide _); [|discriminate]. intros [= <-].
    unfold pase_minimos. rewrite Hs, lookup_empty. cbn [from_option id].
    apply lookup_empty.
Qed.

Lemma reporte_sin_tabla_witness :
  _normalizar_reporte_palermo "  1  GAN EXA 1/9 1/9" = ∅.
Proof.
  apply (reporte_sin_tabla "  1  GAN EXA 1/9 1/9"). vm_compute. reflexivity.
Defined.

(** ** Palermo: what the extraction records *)

Lemma reconoce_grupo_otro r cs prev s cs' prev' s' (i : nat) :
  reconoce r cs prev s cs' prev' s' -> i ∉ grupos r ->
  Re.group i cs' = Re.group i cs.
Proof.
  induction 1; cbn [grupos]; intros Hi; try reflexivity.
  - rewrite IHreconoce2, IHreconoce1; [reflexivity| |];
      intros Hin; apply Hi, elem_of_app; auto.
  - apply IHreconoce. intros Hin. apply Hi, elem_of_app. auto.
  - apply IHreconoce. intros Hin. apply Hi, elem_of_app. auto.
  - rewrite IHreconoce2, IHreconoce1; auto.
  - cbn [Re.group].
    destruct (Nat.eqb_spec i i0) as [-> | Hne]; [exfalso; apply Hi; left|].
    apply IHreconoce. intros Hin. apply Hi. right. exact Hin.
Qed.

Lemma grupo_en_cat (i : nat) (r cola : Re.regex) cs prev s gs prev' s' :
  reconoce (Re.Cat (Re.Group i r) cola) cs prev s gs prev' s' ->
  i ∉ grupos cola ->
  exists cs1 prev1 s1,
    reconoce r cs prev s cs1 prev1 s1
    /\ Re.group i gs = Some (Py.take (String.length s - String.length s1) s).
Proof.
  intros H Hi. inversion H; subst; clear H.
  match goal with
  | H : reconoce (Re.Group _ _) _ _ _ _ _ _ |- _ => inversion H; subst; clear H
  end.
  match goal with
  | H : reconoce cola _ _ _ _ _ _ |- _ =>
      rewrite (reconoce_grupo_otro _ _ _ _ _ _ _ i H Hi)
  end.
  cbn [Re.group]. rewrite Nat.eqb_refl. eauto.
Qed.

Lemma reconoce_cat_inv r1 r2 cs prev s cs' prev' s' :
  reconoce (Re.Cat r1 r2) cs prev s cs' prev' s' ->
  exists cs1 prev1 s1, reconoce r2 cs1 prev1 s1 cs' prev' s'.
Proof. intros H. inversion H; subst. eauto. Qed.

(** The second group of a match of [patron_fila] is a token of digits,
    periods and commas. *)
Lemma patron_fila_reconoce cs prev v gs prev' s' :
  reconoce patron_fila cs prev v gs prev' s' ->
  exists t, Re.group 2 gs = Some t /\ Py.all_chars es_monto t = true.
Proof.
  unfold patron_fila. cbn [Re.cat]. intros H.
  do 4 (apply reconoce_cat_inv in H as (? & ? & ? & H)).
  apply grupo_en_cat in H as (cs1 & prev1 & s1 & H & Hg).
  - apply reconoce_plus_chr in H as (_ & t & -> & _ & Ht).
    exists t. rewrite Hg, take_app. auto.
  - vm_compute. intros Hin.
    repeat (apply elem_of_cons in Hin as [Hin | Hin]; [discriminate|]).
    inversion Hin.
Qed.

Lemma _mapear_nombre_apuesta_palermo_codigo (descripcion codigo : string) :
  _mapear_nombre_apuesta_palermo descripcion = Some codigo ->
  codigo ∈ codigos_palermo.
Proof.
  unfold _mapear_nombre_apuesta_palermo, codigos_palermo.
  repeat match goal with
         | |- context [if ?b then _ else _] => destruct b
         end;
    intros H; try discriminate; injection H as <-;
    repeat first [left; reflexivity | right].
Qed.

Lemma fila_de_linea_valida (actual : option string) (linea : string) (f : fila) :
  fila_de_linea actual linea = Some f ->
  actual = Some (fecha_de f)
  /\ codigo_de_fila f ∈ codigos_palermo
  /\ no_negativo (valor_de_fila f)
  /\ carreras_de_fila_palermo f <> [].
Proof.
  unfold fila_de_linea.
  destruct (_ || _); [discriminate|].
  destruct (Re.match_ patron_fila linea) as [m|] eqn:Hm; [|discriminate].
  destruct actual as [fecha|]; [|discriminate].
  destruct (_mapear_nombre_apuesta_palermo _) as [codigo|] eqn:Hc; [|discriminate].
  destruct (_parsear_monto_str _) as [v|] eqn:Hv; [|discriminate].
  destruct (_extraer_carreras_palermo _) as [|c cs] eqn:Hcs; [discriminate|].
  intros [= <-]. cbn.
  split; [reflexivity|]. split; [apply (_mapear_nombre_apuesta_palermo_codigo _ _ Hc)|].
  split; [|discriminate].
  apply match_here_reconoce in Hm as (Hm & _).
  apply patron_fila_reconoce in Hm as (t & Hg & Ht).
  unfold Re.group_of in Hv. rewrite Hg in Hv. cbn [from_option id] in Hv.
  rewrite (strip_id t) in Hv by apply es_monto_sin_espacios, Ht.
  apply (parsear_monto_token _ _ Ht Hv).
Qed.

Lemma filas_de_lineas_validas (lineas : list string) :
  forall (actual : option string) (f : fila),
    f ∈ filas_de_lineas actual lineas ->
    codigo_de_fila f ∈ codigos_palermo
    /\ no_negativo (valor_de_fila f)
    /\ carreras_de_fila_palermo f <> [].
Proof.
  induction lineas as [|linea resto IH]; intros actual f Hf; [inversion Hf|].
  cbn [filas_de_lineas] in Hf. cbv zeta in Hf.
  destruct (Py.is_empty (Py.strip linea)); [apply (IH _ _ Hf)|].
  destruct (fila_de_linea _ _) as [g|] eqn:Hg; [|apply (IH _ _ Hf)].
  apply elem_of_cons in Hf as [-> | Hf]; [|apply (IH _ _ Hf)].
  apply fila_de_linea_valida in Hg. tauto.
Qed.

Lemma filas_registradas_validas (paginas : list string) (f : fila) :
  f ∈ filas_registradas paginas ->
  codigo_de_fila f ∈ codigos_palermo
  /\ no_negativo (valor_de_fila f)
  /\ carreras_de_fila_palermo f <> [].
Proof.
  unfold filas_registradas. intros H.
  apply elem_of_flat_map in H as (texto & _ & H).
  apply (filas_de_lineas_validas _ _ _ H).
Qed.

(** X21.  Every amount that the extraction of the Palermo document records
    for a date, a race and a code is neither negative nor NaN, and its code
    is one of CUA, TRI, DOB, CAD, QTN, QTP, EXA, TPL and IMP. *)
Theorem _leer_palermo_desde_pdf_valores (paginas : list string) (fecha : string)
    (carrera : Z) (codigo : string) (v : spec_float) :
  ver_fecha (_leer_palermo_desde_pdf paginas) fecha carrera codigo = Some v ->
  no_negativo v /\ codigo ∈ codigos_palermo.
Proof.
  rewrite (ver_fecha_mismas _ _ fecha carrera codigo (_leer_palermo_filas paginas)).
  intros H. apply ver_fecha_filas in H as [H | (cs & Hin & _)].
  - discriminate H.
  - apply filas_registradas_validas in Hin as (Hc & Hv & _). auto.
Qed.

Lemma _leer_palermo_desde_pdf_valores_witness :
  exists v, ver_fecha (_leer_palermo_desde_pdf ejemplo_paginas) "01/02/2026" 1 "EXA" = Some v
            /\ no_negativo v /\ "EXA" ∈ codigos_palermo.
Proof.
  eexists. split; [vm_compute; reflexivity|].
  apply (_leer_palermo_desde_pdf_valores ejemplo_paginas "01/02/2026" 1).
  vm_compute. reflexivity.
Defined.

Lemma leer_fila_rsm_palermo_valido (max_carrera : Z) (seccion : string)
    (valores : gmap Z (gmap string spec_float)) (m : Re.found) :
  m ∈ Re.finditer patron_rsm seccion ->
  valores_validos valores -> valores_validos (leer_fila_rsm_palermo max_carrera valores m).
Proof.
  intros Hm Hval. unfold leer_fila_rsm_palermo.
  pose proof (patron_rsm_grupo_3 _ _ Hm) as Hg.
  rewrite (strip_id (Re.group_of 3 m)) by apply es_monto_sin_espacios, Hg.
  destruct (mapeo_rsm _) as [codigo|] eqn:Hc; [|exact Hval].
  destruct (_parsear_monto_str (Re.group_of 3 m)) as [v|] eqn:Hv; [|exact Hval].
  apply fold_left_invariante; [|exact Hval].
  intros acc x _ Hacc. apply asignar_valor_valido;
    [apply (parsear_monto_token _ _ Hg Hv)|apply (mapeo_rsm_codigo _ _ Hc)|exact Hacc].
Qed.

(** X22.  In the structure that the Palermo normaliser reads from the
    report, every amount is neither negative nor NaN and its code is one of
    the nine codes of the RSM table. *)
Theorem _normalizar_reporte_palermo_valores (contenido : string) (n : Z)
    (d : gmap string spec_float) (codigo : string) (v : spec_float) :
  _normalizar_reporte_palermo contenido !! n = Some d ->
  d !! codigo = Some v ->
  no_negativo v /\ codigo ∈ codigos_rsm.
Proof.
  assert (H : valores_validos (_normalizar_reporte_palermo contenido)).
  { unfold _normalizar_reporte_palermo.
    destruct (seccion_rsm contenido) as [seccion|].
    - apply fold_left_invariante.
      + intros acc m Hm. apply (leer_fila_rsm_palermo_valido _ seccion), Hm.
      + intros n' d' cod' v' H. rewrite lookup_empty in H. discriminate.
    - intros n' d' cod' v' H. rewrite lookup_empty in H. discriminate. }
  apply H.
Qed.

Lemma _normalizar_reporte_palermo_valores_witness :
  exists v,
    default ∅ (_normalizar_reporte_palermo ejemplo_contenido !! 1) !! "EXA" = Some v
    /\ no_negativo v /\ "EXA" ∈ codigos_rsm.
Proof.
  eexists. split; [vm_compute; reflexivity|].
  apply (_normalizar_reporte_palermo_valores ejemplo_contenido 1
           (default ∅ (_normalizar_reporte_palermo ejemplo_contenido !! 1)));
    vm_compute; reflexivity.
Defined.

Lemma anotar_fechas (halladas : list string) :
  forall fs, NoDup fs ->
    NoDup (fold_left anotar_fecha halladas fs)
    /\ forall f, f ∈ fold_left anotar_fecha halladas fs <-> f ∈ fs \/ f ∈ halladas.
Proof.
  induction halladas as [|h hs IH]; intros fs Hnd; cbn [fold_left].
  - split; [exact Hnd|]. intros f. split; [auto|]. intros [H | H]; [exact H|inversion H].
  - assert (Hh : NoDup (anotar_fecha fs h)
                 /\ forall f, f ∈ anotar_fecha fs h <-> f ∈ fs \/ f = h).
    { unfold anotar_fecha.
      destruct (bool_decide_reflect (h ∈ fs)) as [Hin|Hno].
      - split; [exact Hnd|]. intros f. split; [auto|]. intros [H | ->]; assumption.
      - split.
        + apply NoDup_app. split; [exact Hnd|]. split; [|apply NoDup_singleton].
          intros x Hx Hx'. apply list_elem_of_singleton in Hx'. subst x. contradiction.
        + intros f. rewrite elem_of_app, list_elem_of_singleton. reflexivity. }
    destruct Hh as [Hnd' Hin']. destruct (IH _ Hnd') as [Hnd'' Hin''].
    split; [exact Hnd''|]. intros f. rewrite Hin'', Hin', elem_of_cons. tauto.
Qed.

Lemma registrar_coherente (d : datos_palermo) (f : fila) :
  fechas_coherentes d -> fecha_de f ∈ fechas d -> fechas_coherentes (registrar d f).
Proof.
  destruct f as [[[fecha codigo] v] cs]. cbn [fecha_de fst].
  intros (Hnd & Hsub & Hdom & Hord & Hin) Hf.
  unfold fechas_coherentes, registrar, registrar_fila.
  cbn [fechas apuestas_por_fecha resumen_por_fecha orden_fechas].
  rewrite !dom_insert_L, Hdom.
  split; [exact Hnd|]. split.
  { intros g Hg. apply elem_of_union in Hg as [Hg | Hg]; [|auto].
    apply elem_of_singleton in Hg. subst g. exact Hf. }
  split; [reflexivity|].
  destruct (bool_decide_reflect (fecha ∈ dom (apuestas_por_fecha d))) as [Hya|Hno].
  - split; [exact Hord|]. intros g. rewrite Hin. set_solver.
  - split.
    + apply NoDup_app. split; [exact Hord|]. split; [|apply NoDup_singleton].
      intros x Hx Hx'. apply list_elem_of_singleton in Hx'. subst x.
      apply Hno, Hin, Hx.
    + intros g. rewrite elem_of_app, list_elem_of_singleton, Hin. set_solver.
Qed.

Lemma procesar_linea_coherente (st : lector) (linea : string) :
  fechas_coherentes (datos st) ->
  (forall f, fecha_actual st = Some f -> f ∈ fechas (datos st)) ->
  fechas_coherentes (datos (procesar_linea st linea))
  /\ (forall f, fecha_actual (procesar_linea st linea) = Some f ->
                f ∈ fechas (datos (procesar_linea st linea))).
Proof.
  intros Hco Hact. rewrite procesar_linea_fila. cbv zeta.
  destruct (Py.is_empty (Py.strip linea)); [auto|].
  cbn [datos fecha_actual].
  set (s := Py.strip linea).
  destruct Hco as (Hnd & Hsub & Hdom & Hord & Hin).
  destruct (anotar_fechas (fechas_de_linea s) _ Hnd) as [Hnd' Hin'].
  set (d := con_fechas (datos st)
              (fold_left anotar_fecha (fechas_de_linea s) (fechas (datos st)))).
  assert (Hd : fechas_coherentes d).
  { unfold fechas_coherentes, d, con_fechas.
    cbn [fechas apuestas_por_fecha resumen_por_fecha orden_fechas].
    split; [exact Hnd'|]. split; [|auto].
    intros f Hf. apply Hin'. left. apply Hsub, Hf. }
  assert (Hactual : forall f, fecha_tras_linea (fecha_actual st) s = Some f ->
                              f ∈ fechas d).
  { intros f. unfold fecha_tras_linea, d, con_fechas. cbn [fechas].
    destruct (last (fechas_de_linea s)) as [g|] eqn:Hl.
    - intros [= <-]. apply Hin'. right.
      apply last_Some in Hl as [l' ->]. apply elem_of_app. right. left.
    - intros H. apply Hin'. left. apply Hact, H. }
  destruct (fila_de_linea _ s) as [f|] eqn:Hf.
  - assert (Hfe : fecha_de f ∈ fechas d).
    { apply fila_de_linea_valida in Hf as (Hf & _). apply Hactual, Hf. }
    split; [apply registrar_coherente; assumption|].
    intros g Hg. destruct f as [[[fe co] v] cs].
    unfold registrar, registrar_fila. cbn [fechas]. apply Hactual, Hg.
  - auto.
Qed.

Lemma procesar_pagina_coherente (d : datos_palermo) (texto : string) :
  fechas_coherentes d -> fechas_coherentes (procesar_pagina d texto).
Proof.
  intros Hd. unfold procesar_pagina.
  assert (H : forall lineas st,
            fechas_coherentes (datos st) ->
            (forall f, fecha_actual st = Some f -> f ∈ fechas (datos st)) ->
            fechas_coherentes (datos (fold_left procesar_linea lineas st))).
  { induction lineas as [|l ls IH]; intros st H1 H2; [exact H1|].
    cbn [fold_left]. destruct (procesar_linea_coherente st l H1 H2) as [H1' H2'].
    apply IH; assumption. }
  apply H; [exact Hd|]. intros f Hf. discriminate Hf.
Qed.

Lemma fechas_coherentes_leidas (paginas : list string) :
  fechas_coherentes (_leer_palermo_desde_pdf paginas).
Proof.
  unfold _leer_palermo_desde_pdf. apply fold_left_invariante.
  - intros acc texto _. apply procesar_pagina_coherente.
  - unfold fechas_coherentes, datos_vacios. cbn.
    rewrite !dom_empty_L. repeat split; try apply NoDup_nil_2; set_solver.
Qed.

(** X23.  In the result of the extraction of the Palermo document no date is
    listed twice, every date that has bets is one of the listed dates, and
    the summaries are kept for exactly the dates that have bets. *)
Theorem _leer_palermo_desde_pdf_fechas (paginas : list string) :
  let d := _leer_palermo_desde_pdf paginas in
  NoDup (fechas d)
  /\ (forall f, f ∈ dom (apuestas_por_fecha d) -> f ∈ fechas d)
  /\ dom (resumen_por_fecha d) = dom (apuestas_por_fecha d).
Proof.
  cbv zeta.
  destruct (fechas_coherentes_leidas paginas) as (H1 & H2 & H3 & _). auto.
Qed.

(** ** The Palermo comparison *)

Lemma comparar_monto_palermo_nil (n : Z) (codigo : string) (a b : spec_float) :
  comparar_monto_palermo n codigo (Some a) (Some b) = []
  <-> supera_tolerancia a b = false.
Proof.
  unfold comparar_monto_palermo.
  destruct (supera_tolerancia a b); split; auto; discriminate.
Qed.

Lemma dom_iguales (A B : gset string) :
  A ∖ B = ∅ -> B ∖ A = ∅ -> A = B.
Proof.
  intros H1 H2. apply set_eq. intros c. split; intros Hc.
  - destruct (decide (c ∈ B)) as [|Hn]; [assumption|].
    assert (Hx : c ∈ A ∖ B) by (apply elem_of_difference; auto).
    rewrite H1 in Hx. apply elem_of_empty in Hx. contradiction.
  - destruct (decide (c ∈ A)) as [|Hn]; [assumption|].
    assert (Hx : c ∈ B ∖ A) by (apply elem_of_difference; auto).
    rewrite H2 in Hx. apply elem_of_empty in Hx. contradiction.
Qed.

Lemma comparar_carrera_palermo_nil
    (apuestas_pdf datos_reporte : gmap Z (gmap string spec_float)) (n : Z) :
  comparar_carrera_palermo apuestas_pdf datos_reporte n = []
  <-> exists p r, apuestas_pdf !! n = Some p /\ datos_reporte !! n = Some r
                  /\ carreras_coinciden_palermo p r.
Proof.
  unfold comparar_carrera_palermo.
  destruct (apuestas_pdf !! n) as [p|] eqn:Hp.
  2:{ split; [discriminate|]. intros (p & r & H & _). discriminate. }
  destruct (datos_reporte !! n) as [r|] eqn:Hr.
  2:{ split; [discriminate|]. intros (p' & r' & _ & H & _). discriminate. }
  split.
  - intros H. apply app_eq_nil in H as [H1 H]. apply app_eq_nil in H as [H2 H3].
    exists p, r. split; [reflexivity|]. split; [reflexivity|].
    destruct (bool_decide_reflect (dom p ∖ dom r = ∅)) as [Hs1|]; [|discriminate].
    destruct (bool_decide_reflect (dom r ∖ dom p = ∅)) as [Hs2|]; [|discriminate].
    pose proof (dom_iguales _ _ Hs1 Hs2) as Hdom.
    split; [exact Hdom|]. intros codigo a b Ha Hb.
    apply (comparar_monto_palermo_nil n codigo). rewrite <- Ha, <- Hb.
    apply (flat_map_nil_inv _ _ H3 codigo).
    apply elem_of_elements, elem_of_intersection.
    split; apply elem_of_dom; eauto.
  - intros (p' & r' & [= <-] & [= <-] & Hd & Hv).
    rewrite Hd, difference_diag_L.
    rewrite (bool_decide_eq_true_2 (∅ = ∅)) by reflexivity.
    cbn [List.app]. apply flat_map_nil. intros c Hin.
    apply elem_of_elements, elem_of_intersection in Hin as [_ Hin].
    pose proof Hin as Hin'. rewrite <- Hd in Hin'.
    apply elem_of_dom in Hin as [b Hb]. apply elem_of_dom in Hin' as [a Ha].
    rewrite Ha, Hb. apply comparar_monto_palermo_nil, (Hv c); assumption.
Qed.

(** X24.  The Palermo comparison answers that everything matches exactly
    when the bets of the document side, as selected and completed, and the
    structure of the report have the same races and, in every race, the same
    codes with amounts within the tolerance. *)
Theorem comparar_palermo_coincide (datos_pdf : datos_palermo) (contenido : string)
    (fecha_objetivo : option string) :
  let datos_reporte := _normalizar_reporte_palermo contenido in
  let apuestas_pdf := apuestas_palermo datos_pdf datos_reporte fecha_objetivo in
  (comparar_palermo datos_pdf contenido fecha_objetivo).1.1 = true
  <-> dom apuestas_pdf = dom datos_reporte
      /\ forall n p r, apuestas_pdf !! n = Some p -> datos_reporte !! n = Some r ->
                       carreras_coinciden_palermo p r.
Proof.
  cbv zeta. unfold comparar_palermo. cbn [fst].
  set (rep := _normalizar_reporte_palermo contenido).
  set (pdf := apuestas_palermo datos_pdf rep fecha_objetivo).
  rewrite bool_decide_eq_true, length_zero_iff_nil. split.
  - intros H.
    assert (Hn : forall n, n ∈ dom pdf ∪ dom rep ->
                 exists p r, pdf !! n = Some p /\ rep !! n = Some r
                             /\ carreras_coinciden_palermo p r).
    { intros n Hn. apply comparar_carrera_palermo_nil.
      apply (flat_map_nil_inv _ _ H n).
      apply elem_of_sorted, elem_of_elements, Hn. }
    split.
    + apply set_eq. intros n. split; intros Hin.
      * destruct (Hn n) as (p & r & _ & Hr & _); [apply elem_of_union; auto|].
        apply elem_of_dom. eauto.
      * destruct (Hn n) as (p & r & Hp & _ & _); [apply elem_of_union; auto|].
        apply elem_of_dom. eauto.
    + intros n p r Hp Hr.
      destruct (Hn n) as (p' & r' & Hp' & Hr' & Hco).
      { apply elem_of_union. left. apply elem_of_dom. eauto. }
      congruence.
  - intros [Hdom Hco]. apply flat_map_nil. intros n Hn.
    apply elem_of_sorted, elem_of_elements in Hn.
    rewrite <- Hdom, union_idemp_L in Hn.
    apply comparar_carrera_palermo_nil.
    pose proof Hn as Hn'. rewrite Hdom in Hn'.
    apply elem_of_dom in Hn as [p Hp]. apply elem_of_dom in Hn' as [r Hr].
    exists p, r. eauto.
Qed.

Lemma flat_map_singleton {A B : Type} (f : A -> B) (l : list A) :
  flat_map (fun x => [f x]) l = map f l.
Proof. induction l as [|x l IH]; simpl; [reflexivity|]. rewrite IH. reflexivity. Qed.

(** X25.  When the selected date is not one of the dates of the document,
    the Palermo comparison reports every race of the report, in ascending
    order, as missing in the document, and nothing else. *)
Theorem comparar_palermo_fecha_ausente (paginas : list string) (contenido : string)
    (fecha : string) :
  fecha ∉ fechas (_leer_palermo_desde_pdf paginas) ->
  (comparar_palermo (_leer_palermo_desde_pdf paginas) contenido (Some fecha)).1.2
  = map PalermoSoloEnReporte
      (sorted (elements (dom (_normalizar_reporte_palermo contenido)))).
Proof.
  intros Hf.
  destruct (fechas_coherentes_leidas paginas) as (_ & Hsub & Hdom & _).
  set (d := _leer_palermo_desde_pdf paginas) in *.
  assert (Ha : apuestas_por_fecha d !! fecha = None).
  { apply not_elem_of_dom. intros H. apply Hf, Hsub, H. }
  assert (Hr : resumen_por_fecha d !! fecha = None).
  { apply not_elem_of_dom. rewrite Hdom. apply not_elem_of_dom, Ha. }
  unfold comparar_palermo. cbn [fst snd].
  set (rep := _normalizar_reporte_palermo contenido).
  assert (Hpdf : apuestas_palermo d rep (Some fecha) = ∅).
  { unfold apuestas_palermo. rewrite Ha, Hr. cbn [from_option id].
    unfold codigos_all_si_unica. cbn [fold_left].
    unfold completar_codigo. rewrite !lookup_empty. reflexivity. }
  rewrite Hpdf, dom_empty_L, union_empty_l_L.
  rewrite <- flat_map_singleton. apply flat_map_ext. intros n.
  unfold comparar_carrera_palermo. rewrite lookup_empty. reflexivity.
Qed.

Lemma comparar_palermo_fecha_ausente_witness :
  (comparar_palermo (_leer_palermo_desde_pdf ejemplo_paginas) ejemplo_contenido
     (Some "09/09/2026")).1.2
  = map PalermoSoloEnReporte
      (sorted (elements (dom (_normalizar_reporte_palermo ejemplo_contenido)))).
Proof.
  apply (comparar_palermo_fecha_ausente ejemplo_paginas ejemplo_contenido "09/09/2026").
  rewrite list_elem_of_In. vm_compute. intuition discriminate.
Defined.

(** ** Race headers per page *)

Lemma split_ws_app_palabra (w resto : string) :
  w <> EmptyString -> sin_espacios w ->
  Str.split_ws (Py.app w (String " " resto)) = w :: Str.split_ws resto.
Proof.
  unfold sin_espacios.
  induction w as [|c w IH]; intros Hne Hw; [contradiction|].
  cbn [Py.all_chars] in Hw. apply andb_true_iff in Hw as [Hc Hw].
  apply negb_true_iff in Hc.
  cbn [Py.app]. rewrite split_ws_cons, Hc.
  destruct w as [|c' w'].
  - cbn [Py.app]. reflexivity.
  - pose proof Hw as Hw'. cbn [Py.all_chars] in Hw'.
    apply andb_true_iff in Hw' as [Hc' _]. apply negb_true_iff in Hc'.
    cbn [Py.app] in *. rewrite Hc', IH; [reflexivity|discriminate|exact Hw].
Qed.

Lemma split_ws_join (ws : list string) :
  (forall w, w ∈ ws -> w <> EmptyString /\ sin_espacios w) ->
  Str.split_ws (Str.join " " ws) = ws.
Proof.
  induction ws as [|w ws IH]; intros H; [reflexivity|].
  destruct (H w) as [Hne Hw]; [left|].
  destruct ws as [|w2 ws'].
  - cbn [Str.join]. apply split_ws_una_palabra; assumption.
  - change (Str.join " " (w :: w2 :: ws'))
      with (Py.app w (String " " (Str.join " " (w2 :: ws')))).
    rewrite split_ws_app_palabra by assumption.
    rewrite IH; [reflexivity|]. intros x Hx. apply H. right. exact Hx.
Qed.

Lemma lstrip_palabra (w resto : string) :
  w <> EmptyString -> sin_espacios w -> Py.lstrip (Py.app w resto) = Py.app w resto.
Proof.
  unfold sin_espacios. destruct w as [|c w]; [contradiction|].
  intros _ Hw. cbn [Py.all_chars] in Hw. apply andb_true_iff in Hw as [Hc _].
  apply negb_true_iff in Hc. cbn [Py.app Py.lstrip]. rewrite Hc. reflexivity.
Qed.

Lemma rstrip_app_palabra (t w : string) :
  w <> EmptyString -> sin_espacios w -> Py.rstrip (Py.app t w) = Py.app t w.
Proof.
  intros Hne Hw. induction t as [|c t IH].
  - cbn [Py.app]. apply rstrip_id, Hw.
  - cbn [Py.app]. rewrite rstrip_cons, IH.
    destruct (Py.app t w) eqn:E.
    + destruct t, w; try discriminate E. contradiction.
    + cbn [Py.is_empty]. rewrite andb_false_r. reflexivity.
Qed.

Lemma join_cons2 (w w2 : string) (ws : list string) :
  Str.join " " (w :: w2 :: ws) = Py.app w (String " " (Str.join " " (w2 :: ws))).
Proof. reflexivity. Qed.

Lemma join_palabras_forma (ws : list string) :
  (forall w, w ∈ ws -> w <> EmptyString /\ sin_espacios w) ->
  ws <> [] ->
  exists t w, Str.join " " ws = Py.app t w /\ w <> EmptyString /\ sin_espacios w.
Proof.
  induction ws as [|w ws IH]; intros H Hne; [contradiction|].
  destruct (H w) as [Hw1 Hw2]; [left|].
  destruct ws as [|w2 ws'].
  - exists EmptyString, w. auto.
  - destruct IH as (t & u & Hj & Hu1 & Hu2);
      [intros x Hx; apply H; right; exact Hx|discriminate|].
    rewrite join_cons2, Hj.
    exists (Py.app w (String " " t)), u. split; [|auto].
    rewrite app_assoc_py. reflexivity.
Qed.

Lemma join_palabras_strip (ws : list string) :
  (forall w, w ∈ ws -> w <> EmptyString /\ sin_espacios w) ->
  Py.strip (Str.join " " ws) = Str.join " " ws.
Proof.
  intros H. destruct ws as [|w ws]; [reflexivity|].
  destruct (join_palabras_forma (w :: ws) H) as (t & u & Hj & Hu1 & Hu2);
    [discriminate|].
  unfold Py.strip.
  assert (Hl : Py.lstrip (Str.join " " (w :: ws)) = Str.join " " (w :: ws)).
  { destruct (H w) as [Hw1 Hw2]; [left|].
    destruct ws as [|w2 ws']; [apply lstrip_id, Hw2|].
    rewrite join_cons2. apply lstrip_palabra; assumption. }
  rewrite Hl, Hj. apply rstrip_app_palabra; assumption.
Qed.

Lemma contains_doble_palabra (w resto : string) :
  w <> EmptyString -> sin_espacios w ->
  Py.lstrip resto = resto ->
  Py.contains "  " (Py.app w (String " " resto)) = Py.contains "  " resto.
Proof.
  unfold sin_espacios. intros Hne Hw Hr.
  induction w as [|c w IH]; [contradiction|].
  cbn [Py.all_chars] in Hw. apply andb_true_iff in Hw as [Hc Hw].
  assert (Hcs : Ascii.eqb " " c = false).
  { destruct (Ascii.eqb_spec " " c) as [<-|]; [discriminate Hc|reflexivity]. }
  cbn [Py.app Py.contains Py.startswith]. rewrite Hcs. cbn [andb orb].
  destruct w as [|c' w'].
  - cbn [Py.app Py.contains Py.startswith].
    destruct resto as [|r0 resto']; [reflexivity|].
    cbn [Py.lstrip] in Hr.
    destruct (Ascii.eqb_spec " " r0) as [<-|Hr0].
    + change (Py.isspace " ") with true in Hr. cbv iota in Hr. exfalso. clear -Hr.
      assert (Hlen : forall s, (String.length (Py.lstrip s) <= String.length s)%nat).
      { induction s as [|a s IHs]; simpl; [lia|]. destruct (Py.isspace a); simpl; lia. }
      pose proof (Hlen resto') as Hl. rewrite Hr in Hl. simpl in Hl. lia.
    + cbn [andb orb]. reflexivity.
  - apply IH; [discriminate|exact Hw].
Qed.

Lemma join_palabras_sin_doble (ws : list string) :
  (forall w, w ∈ ws -> w <> EmptyString /\ sin_espacios w) ->
  Py.contains "  " (Str.join " " ws) = false.
Proof.
  induction ws as [|w ws IH]; intros H; [reflexivity|].
  destruct (H w) as [Hw1 Hw2]; [left|].
  assert (Hsin : forall u, sin_espacios u -> Py.contains "  " u = false).
  { unfold sin_espacios. induction u as [|c u IHu]; intros Hu; [reflexivity|].
    cbn [Py.all_chars] in Hu. apply andb_true_iff in Hu as [Hc Hu].
    cbn [Py.contains Py.startswith].
    destruct (Ascii.eqb_spec " " c) as [<-|]; [discriminate Hc|].
    cbn [andb orb]. apply IHu, Hu. }
  destruct ws as [|w2 ws'].
  - cbn [Str.join]. apply Hsin, Hw2.
  - rewrite join_cons2.
    assert (H' : forall x, x ∈ w2 :: ws' -> x <> EmptyString /\ sin_espacios x)
      by (intros x Hx; apply H; right; exact Hx).
    rewrite contains_doble_palabra; [apply IH, H'|assumption|assumption|].
    pose proof (join_palabras_strip (w2 :: ws') H') as Hs.
    unfold Py.strip in Hs.
    destruct (H' w2) as [Hx1 Hx2]; [left|].
    destruct ws' as [|w3 ws'']; [apply lstrip_id, Hx2|].
    rewrite join_cons2. apply lstrip_palabra; assumption.
Qed.

(** X26.  The pages for which [obtener_carreras_por_pagina] gives a race
    number are those that give [obtener_caballos_por_carrera] its entries:
    both functions find the same races in a document. *)
Theorem obtener_carreras_por_pagina_carreras (paginas : list string) (n : Z) :
  n ∈ dom (obtener_caballos_por_carrera paginas)
  <-> exists p, p ∈ obtener_carreras_por_pagina paginas /\ numero_carrera p = Some n.
Proof.
  rewrite elem_of_dom. unfold obtener_caballos_por_carrera.
  rewrite caballos_paginas_claves, lookup_empty. split.
  - intros [H | (texto & m & Ht & Hm & Hn)]; [destruct H; discriminate|].
    apply list_elem_of_lookup in Ht as [i Hi].
    exists (carrera_de_pagina (Z.of_nat i + 1) texto). split.
    + unfold obtener_carreras_por_pagina. apply list_elem_of_lookup. exists i.
      rewrite list_lookup_imap, Hi. reflexivity.
    + unfold carrera_de_pagina. rewrite Hm. cbn. rewrite Hn. reflexivity.
  - intros (p & Hp & Hn). right.
    unfold obtener_carreras_por_pagina in Hp.
    apply list_elem_of_lookup in Hp as [i Hi]. rewrite list_lookup_imap in Hi.
    destruct (paginas !! i) as [texto|] eqn:Ht; [|discriminate].
    injection Hi as <-. unfold carrera_de_pagina in Hn.
    destruct (Re.search _PATRON_CARRERA_PDF texto) as [m|] eqn:Hm; [|discriminate].
    injection Hn as <-. exists texto, m.
    split; [apply list_elem_of_lookup; eauto|auto].
Qed.

(** X27.  A race name given by [obtener_carreras_por_pagina] is in normal
    form: its words are separated by single spaces and there is no white
    space around it, so that splitting it into words and joining them again
    gives the same name. *)
Theorem obtener_carreras_por_pagina_nombre (paginas : list string)
    (p : pagina_carrera) (nombre : string) :
  p ∈ obtener_carreras_por_pagina paginas ->
  nombre_carrera p = Some nombre ->
  Str.join " " (Str.split_ws nombre) = nombre
  /\ Py.strip nombre = nombre
  /\ Py.contains "  " nombre = false.
Proof.
  intros Hp Hn. unfold obtener_carreras_por_pagina in Hp.
  apply list_elem_of_lookup in Hp as [i Hi]. rewrite list_lookup_imap in Hi.
  destruct (paginas !! i) as [texto|] eqn:Ht; [|discriminate].
  injection Hi as <-. unfold carrera_de_pagina in Hn.
  destruct (Re.search _PATRON_CARRERA_PDF texto) as [m|] eqn:Hm; [|discriminate].
  injection Hn as <-.
  pose proof (split_ws_palabras (Py.strip (Re.group_of 2 m))) as Hws.
  revert Hws. generalize (Str.split_ws (Py.strip (Re.group_of 2 m))). intros ws Hws.
  split; [rewrite split_ws_join; [reflexivity|exact Hws]|].
  split; [apply join_palabras_strip, Hws|apply join_palabras_sin_doble, Hws].
Qed.

Lemma obtener_carreras_por_pagina_nombre_witness :
  Str.join " " (Str.split_ws "Premio UNO") = "Premio UNO"
  /\ Py.strip "Premio UNO" = "Premio UNO"
  /\ Py.contains "  " "Premio UNO" = false.
Proof.
  apply (obtener_carreras_por_pagina_nombre
           [unir_lineas ["1a -  Premio   UNO  - 14:05 hs."; "01 ALFA"]]
           (PaginaCarrera 1 (Some 1) (Some "Premio UNO")));
    [|reflexivity].
  apply list_elem_of_In. vm_compute. left. reflexivity.
Defined.

(** ** Patterns and letter case *)

Lemma length_map_chars (f : ascii -> ascii) (s : string) :
  String.length (Py.map_chars f s) = String.length s.
Proof. induction s as [|c s IH]; simpl; [reflexivity|]. rewrite IH. reflexivity. Qed.

Lemma mismo_exito_alt {A B : Type} (x1 x2 : option A) (y1 y2 : option B) :
  mismo_exito x1 y1 -> mismo_exito x2 y2 ->
  mismo_exito (match x1 with Some a => Some a | None => x2 end)
              (match y1 with Some b => Some b | None => y2 end).
Proof.
  unfold mismo_exito. intros H1 H2.
  destruct x1 as [a|], y1 as [b|].
  - split; intros _; eauto.
  - exfalso. destruct H1 as [H1 _].
    specialize (H1 (ex_intro _ a eq_refl)). destruct H1 as [? H1]. discriminate.
  - exfalso. destruct H1 as [_ H1].
    specialize (H1 (ex_intro _ b eq_refl)). destruct H1 as [? H1]. discriminate.
  - exact H2.
Qed.

Lemma mismo_exito_none {A B : Type} : mismo_exito (@None A) (@None B).
Proof. unfold mismo_exito. split; intros [? H]; discriminate. Qed.

Lemma rmatch_map_chars {A B : Type} (f : ascii -> ascii) (r : Re.regex) :
  conserva_limites f -> clases_invariantes f r ->
  forall cs cs' prev s
         (k : Re.caps -> option ascii -> string -> option A)
         (k' : Re.caps -> option ascii -> string -> option B),
    (forall c1 c2 p t, mismo_exito (k c1 p t) (k' c2 (f <$> p) (Py.map_chars f t))) ->
    mismo_exito (Re.rmatch r cs prev s k)
                (Re.rmatch r cs' (f <$> prev) (Py.map_chars f s) k').
Proof.
  intros [Hw Hn].
  induction r as [|p|r1 IH1 r2 IH2|r1 IH1 r2 IH2|g r IH|m| |i r IH];
    intros Hr cs cs' prev s k k' Hk.
  - apply Hk.
  - destruct s as [|c s]; cbn [Py.map_chars Re.rmatch]; [apply mismo_exito_none|].
    cbn [clases_invariantes] in Hr. rewrite Hr.
    destruct (p c); [apply (Hk cs cs' (Some c) s)|apply mismo_exito_none].
  - destruct Hr as [Hr1 Hr2]. cbn [Re.rmatch].
    apply (IH1 Hr1). intros c1 c2 p t. apply (IH2 Hr2), Hk.
  - destruct Hr as [Hr1 Hr2]. cbn [Re.rmatch].
    apply mismo_exito_alt; [apply (IH1 Hr1), Hk|apply (IH2 Hr2), Hk].
  - cbn [clases_invariantes] in Hr. rewrite !rmatch_star, length_map_chars.
    generalize (S (String.length s)). intros n.
    revert cs cs' prev s. induction n as [|n IHn]; intros cs cs' prev s.
    + apply Hk.
    + rewrite !bucle_estrella_S. cbv zeta.
      assert (Honce : mismo_exito
                (Re.rmatch r cs prev s
                   (fun cs1 prev1 s1 =>
                      if (String.length s1 <? String.length s)%nat
                      then bucle_estrella g r k n cs1 prev1 s1 else None))
                (Re.rmatch r cs' (f <$> prev) (Py.map_chars f s)
                   (fun cs1 prev1 s1 =>
                      if (String.length s1 <? String.length (Py.map_chars f s))%nat
                      then bucle_estrella g r k' n cs1 prev1 s1 else None))).
      { apply (IH Hr). intros c1 c2 p t. rewrite !length_map_chars.
        destruct (String.length t <? String.length s)%nat;
          [apply IHn|apply mismo_exito_none]. }
      destruct g; apply mismo_exito_alt; first [exact Honce | apply Hk].
  - cbn [Re.rmatch].
    assert (Hb : Re.at_bol m (f <$> prev) = Re.at_bol m prev).
    { destruct prev as [c|]; [|reflexivity]. cbn. rewrite Hn. reflexivity. }
    rewrite Hb. destruct (Re.at_bol m prev); [apply Hk|apply mismo_exito_none].
  - cbn [Re.rmatch].
    assert (Hb : Re.word_before (f <$> prev) = Re.word_before prev).
    { destruct prev as [c|]; [|reflexivity]. cbn. apply Hw. }
    assert (Ha : Re.word_after (Py.map_chars f s) = Re.word_after s).
    { destruct s as [|c s]; [reflexivity|]. cbn. apply Hw. }
    rewrite Hb, Ha. destruct (xorb _ _); [apply Hk|apply mismo_exito_none].
  - cbn [clases_invariantes] in Hr. cbn [Re.rmatch].
    apply (IH Hr). intros c1 c2 p t. apply Hk.
Qed.

Lemma search_from_map_chars (f : ascii -> ascii) (r : Re.regex) :
  conserva_limites f -> clases_invariantes f r ->
  forall s pos prev,
    mismo_exito (Re.search_from r pos prev s)
                (Re.search_from r pos (f <$> prev) (Py.map_chars f s)).
Proof.
  intros Hf Hr. induction s as [|c s IH]; intros pos prev;
    cbn [Re.search_from Py.map_chars].
  - apply (mismo_exito_alt _ (@None Re.found) _ (@None Re.found));
      [|apply mismo_exito_none].
    unfold Re.match_here. apply (rmatch_map_chars f r Hf Hr).
    intros c1 c2 p t. unfold mismo_exito. split; eauto.
  - apply mismo_exito_alt; [|apply (IH (S pos) (Some c))].
    unfold Re.match_here. apply (rmatch_map_chars f r Hf Hr).
    intros c1 c2 p t. unfold mismo_exito. split; eauto.
Qed.

Lemma hay_map_chars (f : ascii -> ascii) (r : Re.regex) (s : string) :
  conserva_limites f -> clases_invariantes f r ->
  hay r (Py.map_chars f s) = hay r s.
Proof.
  intros Hf Hr. unfold hay, Re.search.
  pose proof (search_from_map_chars f r Hf Hr s 0%nat None) as H.
  unfold mismo_exito in H. cbn [fmap option_fmap option_map] in H.
  apply bool_decide_ext. symmetry. exact H.
Qed.

Lemma lit_i_invariante (f : ascii -> ascii) (w : string) :
  (forall c, Py.lower_char (f c) = Py.lower_char c) ->
  clases_invariantes f (Re.lit_i w).
Proof.
  intros Hl. induction w as [|a w IH]; [exact I|].
  assert (Ha : forall c, Re.is_char_i a (f c) = Re.is_char_i a c).
  { intros c. unfold Re.is_char_i. rewrite Hl. reflexivity. }
  destruct w as [|b w']; [exact Ha|].
  change (Re.lit_i (String a (String b w')))
    with (Re.Cat (Re.Chr (Re.is_char_i a)) (Re.lit_i (String b w'))).
  split; [exact Ha|exact IH].
Qed.

Lemma cambio_de_caja_hechos (c : ascii) :
  (Py.lower_char (Py.upper_char c) = Py.lower_char c
   /\ Py.lower_char (Py.lower_char c) = Py.lower_char c)
  /\ (Py.isspace (Py.upper_char c) = Py.isspace c
      /\ Py.isspace (Py.lower_char c) = Py.isspace c)
  /\ (Py.isword (Py.upper_char c) = Py.isword c
      /\ Py.isword (Py.lower_char c) = Py.isword c)
  /\ (Ascii.eqb (Py.upper_char c) "010" = Ascii.eqb c "010"
      /\ Ascii.eqb (Py.lower_char c) "010" = Ascii.eqb c "010")
  /\ (Ascii.eqb (Py.upper_char c) "." = Ascii.eqb c "."
      /\ Ascii.eqb (Py.lower_char c) "." = Ascii.eqb c ".").
Proof. por_caracter c. Qed.

Lemma patrones_de_pase_invariantes (f : ascii -> ascii) :
  (forall c, Py.lower_char (f c) = Py.lower_char c) ->
  (forall c, Py.isspace (f c) = Py.isspace c) ->
  (forall c, Ascii.eqb (f c) "." = Ascii.eqb c ".") ->
  clases_invariantes f _PATRON_EXCLUIR_PASE_SIN_FINAL
  /\ clases_invariantes f _PATRON_FINAL
  /\ clases_invariantes f _PATRON_PRIMER_PASE.
Proof.
  intros Hl Hs Hp.
  assert (Hlit : forall w, clases_invariantes f (Re.lit_i w))
    by (intros w; apply lit_i_invariante, Hl).
  assert (Hpunto : clases_invariantes f (Re.opt (Re.lit "."))).
  { split; [|exact I]. intros c. apply Hp. }
  assert (Hesp : clases_invariantes f (Re.star Re.s)) by exact Hs.
  unfold _PATRON_EXCLUIR_PASE_SIN_FINAL, _PATRON_FINAL, _PATRON_PRIMER_PASE.
  cbn [Re.alt Re.cat clases_invariantes].
  repeat match goal with |- _ /\ _ => split end;
    first [apply Hlit | exact Hpunto | exact Hesp | exact I].
Qed.

Lemma es_apuesta_excluida_map_chars (f : ascii -> ascii) (nombre : string) :
  (forall c, Py.lower_char (f c) = Py.lower_char c) ->
  (forall c, Py.isspace (f c) = Py.isspace c) ->
  (forall c, Ascii.eqb (f c) "." = Ascii.eqb c ".") ->
  conserva_limites f ->
  es_apuesta_excluida (Py.map_chars f nombre) = es_apuesta_excluida nombre.
Proof.
  intros Hl Hs Hp Hf.
  destruct (patrones_de_pase_invariantes f Hl Hs Hp) as (H1 & H2 & H3).
  unfold es_apuesta_excluida.
  rewrite !hay_map_chars by assumption.
  rewrite (strip_map_chars f nombre Hs).
  unfold Py.lower at 1.
  rewrite map_chars_map_chars,
    (map_chars_ext (fun c => Py.lower_char (f c)) Py.lower_char) by exact Hl.
  fold (Py.lower (Py.strip nombre)).
  destruct nombre; reflexivity.
Qed.

(** X28.  Whether a bet name made of ASCII characters is excluded does not
    depend on the case of its letters. *)
Theorem es_apuesta_excluida_mayusculas (nombre : string) :
  Py.isascii nombre = true ->
  es_apuesta_excluida (Py.upper nombre) = es_apuesta_excluida nombre
  /\ es_apuesta_excluida (Py.lower nombre) = es_apuesta_excluida nombre.
Proof.
  intros _.
  split; apply es_apuesta_excluida_map_chars;
    try (intros c; apply (cambio_de_caja_hechos c));
    split; intros c; apply (cambio_de_caja_hechos c).
Qed.

Lemma es_apuesta_excluida_mayusculas_witness :
  es_apuesta_excluida (Py.upper "Cuaterna Final")
  = es_apuesta_excluida "Cuaterna Final"
  /\ es_apuesta_excluida (Py.lower "Cuaterna Final")
     = es_apuesta_excluida "Cuaterna Final".
Proof. apply (es_apuesta_excluida_mayusculas "Cuaterna Final"). reflexivity. Defined.

(** X29.  The code that [_mapear_nombre_apuesta_palermo] gives to a
    description made of ASCII characters does not depend on the case of its
    letters; the code of any description does not depend on the white space
    around it. *)
Theorem _mapear_nombre_apuesta_palermo_mayusculas (descripcion : string) :
  (Py.isascii descripcion = true ->
   _mapear_nombre_apuesta_palermo (Py.upper descripcion)
   = _mapear_nombre_apuesta_palermo descripcion
   /\ _mapear_nombre_apuesta_palermo (Py.lower descripcion)
      = _mapear_nombre_apuesta_palermo descripcion)
  /\ _mapear_nombre_apuesta_palermo (Py.strip descripcion)
     = _mapear_nombre_apuesta_palermo descripcion.
Proof.
  assert (H : forall f,
            (forall c, Py.lower_char (f c) = Py.lower_char c) ->
            (forall c, Py.isspace (f c) = Py.isspace c) ->
            _mapear_nombre_apuesta_palermo (Py.map_chars f descripcion)
            = _mapear_nombre_apuesta_palermo descripcion).
  { intros f Hl Hs. unfold _mapear_nombre_apuesta_palermo.
    rewrite (strip_map_chars f descripcion Hs).
    assert (E : Py.lower (Py.map_chars f (Py.strip descripcion))
                = Py.lower (Py.strip descripcion)).
    { unfold Py.lower. rewrite map_chars_map_chars. apply map_chars_ext, Hl. }
    rewrite E. destruct descripcion; reflexivity. }
  split.
  { intros _.
    split; apply H; intros c; apply (cambio_de_caja_hechos c). }
  unfold _mapear_nombre_apuesta_palermo. rewrite strip_strip.
  destruct (Py.strip descripcion) as [|c t] eqn:E.
  - destruct descripcion; reflexivity.
  - destruct descripcion; [discriminate E|reflexivity].
Qed.

Lemma _mapear_nombre_apuesta_palermo_mayusculas_witness :
  _mapear_nombre_apuesta_palermo (Py.upper "Pick Cuatro")
  = _mapear_nombre_apuesta_palermo "Pick Cuatro"
  /\ _mapear_nombre_apuesta_palermo (Py.lower "Pick Cuatro")
     = _mapear_nombre_apuesta_palermo "Pick Cuatro".
Proof.
  apply (proj1 (_mapear_nombre_apuesta_palermo_mayusculas "Pick Cuatro")).
  reflexivity.
Defined.

(** ** The whole comparison, from the pages of the document *)

Lemma valor_de_some (d : gmap string (option spec_float)) (codigo : string)
    (v : spec_float) :
  valor_de d codigo = Some v -> d !! codigo = Some (Some v).
Proof.
  unfold valor_de. destruct (d !! codigo) as [o|]; cbn; [|discriminate].
  intros ->. reflexivity.
Qed.

(** X30.  In the comparison of a document, read from its pages, against a
    report, every discrepancy carries plausible data: horse counts within
    0..24 on the document side and at least 1 on the report side; amounts
    that are neither negative nor NaN; a difference of amounts that really
    exceeds the tolerance; and an amount of the report only for one of the
    nine codes of the RSM table. *)
Theorem comparar_pdf_y_reporte_plausible (paginas : list string)
    (contenido_reporte : string) (d : diferencia) :
  d ∈ (comparar_pdf_y_reporte (obtener_apuestas_por_carrera paginas)
         contenido_reporte).2 ->
  diferencia_plausible d.
Proof.
  unfold comparar_pdf_y_reporte, comparar_datos. cbn [snd].
  fold (_normalizar_pdf paginas).
  intros H. apply elem_of_flat_map in H as (n & _ & H).
  unfold comparar_carrera in H.
  destruct (_normalizar_pdf paginas !! n) as [p|] eqn:Hp.
  2:{ apply list_elem_of_singleton in H. subst d. exact I. }
  destruct (_normalizar_reporte contenido_reporte !! n) as [r|] eqn:Hr.
  2:{ apply list_elem_of_singleton in H. subst d. exact I. }
  rewrite !elem_of_app in H. destruct H as [H | [H | [H | H]]].
  - destruct (bool_decide _); [inversion H|].
    apply list_elem_of_singleton in H. subst d. cbn.
    split.
    + apply (caballos_por_carrera_acotados paginas n).
      apply (caballos_de_pdf_normalizado _ _ _ Hp).
    + apply (caballos_de_reporte_normalizado _ _ _ Hr).
  - destruct (bool_decide _); [inversion H|].
    apply list_elem_of_singleton in H. subst d. exact I.
  - destruct (bool_decide _); [inversion H|].
    apply list_elem_of_singleton in H. subst d. exact I.
  - apply elem_of_flat_map in H as (codigo & _ & H).
    unfold comparar_valor in H.
    destruct (bool_decide_reflect (codigo ∈ apuestas_sin_comparar_valor)) as [|Hno];
      [inversion H|].
    destruct (valor_de (apuestas p) codigo) as [a|] eqn:Ha;
      destruct (valor_de (apuestas r) codigo) as [b|] eqn:Hb.
    + destruct (supera_tolerancia a b) eqn:Ht; [|inversion H].
      apply list_elem_of_singleton in H. subst d. cbn.
      apply valor_de_some in Ha, Hb.
      destruct (valores_de_reporte_normalizado _ _ _ _ _ Hr Hb) as [Hvb Hcb].
      split; [apply (valores_de_pdf_normalizado _ _ _ _ _ Hp Ha)|]. auto.
    + apply list_elem_of_singleton in H. subst d. cbn.
      apply valor_de_some in Ha.
      split; [apply (valores_de_pdf_normalizado _ _ _ _ _ Hp Ha)|exact Hno].
    + apply list_elem_of_singleton in H. subst d. cbn.
      apply valor_de_some in Hb.
      apply (valores_de_reporte_normalizado _ _ _ _ _ Hr Hb).
    + inversion H.
Qed.

Lemma comparar_pdf_y_reporte_plausible_witness :
  diferencia_plausible (CaballosDifieren 1 2 4).
Proof.
  apply (comparar_pdf_y_reporte_plausible [ejemplo_pagina_apuestas] ejemplo_contenido).
  apply list_elem_of_In. vm_compute. left. reflexivity.
Defined.
